(** * StdIO: line-delimited JSON requests over standard input and output

    A shallow embedding of [clients/tabby-agent/src/StdIO.ts] and the
    properties of its framing, its codec, its dispatch of requests, its
    cancellation of pending requests and its forwarding of events.

    - Texts are [string]s of bytes: a text is held in UTF-8, as the input
      delivers it and the output receives it, and a chunk is the text that
      [data.toString()] gives.  A surrogate that stands alone, which a
      JavaScript string can hold and UTF-8 cannot, is held as the three
      bytes that the same scheme gives it.
    - A value that travels on the wire is a [json] term.  Numbers are held
      exactly, as integers and as decimal fractions; where a JavaScript
      number holds them exactly too is part of [well_formed].  [value] adds
      [undefined], which property reads produce.
    - [this.ongoingRequests] is the finite map of its own properties, keyed
      by property name ([ToString] of the id).  Ids are numbers by their
      declared type, and for such keys the object inherits nothing.
    - The provider is a record of its members: a call either throws or
      returns a value or a thenable.  A thenable is named by a [handle];
      when it resolves or rejects is up to the surroundings ([Settle]).
      [cancel()] on a [CancelablePromise] is recorded; what it does to the
      operation is the provider's business.
    - The process is a state [StdIO] and a step function over the events
      that reach it: a call of [bind], a chunk on the input, an event of the
      provider, the settlement of an operation.  [handleRequest] runs up to
      its [await]; the rest of it runs at the end of the turn in which the
      awaited operation is settled. *)

From Stdlib Require Import ZArith Ascii String List Bool Lia.
From Stdlib Require Import DecimalString DecimalZ DecimalFacts.
From stdpp Require Import base tactics option list gmap strings.

Local Open Scope string_scope.
Local Open Scope Z_scope.
Local Open Scope list_scope.

#[local] Arguments String.append !_ _ : simpl nomatch.

(** ** Texts *)

Definition LF : ascii := "010"%char.

Definition is_LF (c : ascii) : bool := Ascii.eqb c LF.

(** [s.endsWith("\n")] *)
Fixpoint endsWithLF (s : string) : bool :=
  match s with
  | EmptyString => false
  | String c EmptyString => is_LF c
  | String _ s' => endsWithLF s'
  end.

(** Whether the character [c] occurs in [s]. *)
Fixpoint occurs (c : ascii) (s : string) : bool :=
  match s with
  | EmptyString => false
  | String d s' => Ascii.eqb c d || occurs c s'
  end.

Fixpoint concat_text (l : list string) : string :=
  match l with
  | [] => ""
  | s :: l' => s +:+ concat_text l'
  end.

(** Modelled from the spec: [splitLines] of [./utils], which is not among
    the sources.  It cuts a text into its lines; each piece keeps its line
    terminator (the caller tests [endsWith("\n")] on the last piece), the
    last piece is the unterminated rest, and no piece is empty. *)
Fixpoint splitLines (s : string) : list string :=
  match s with
  | EmptyString => []
  | String c s' =>
      if is_LF c then String c "" :: splitLines s'
      else match splitLines s' with
           | [] => [String c ""]
           | l :: ls => String c l :: ls
           end
  end.

(** ** Framing: the first half of [handleInput]

    [frame buffer input] is the list [lines] the loop of [handleInput]
    runs over, and the new content of [this.buffer]. *)
Definition frame (buffer input : string) : list string * string :=
  let buffer := buffer +:+ input in
  let lines := splitLines buffer in
  match last lines with
  | None => ([], buffer)
  | Some l =>
      if endsWithLF l then (lines, "")
      else (removelast lines, l)
  end.

(** Successive calls of the framer, one per chunk. *)
Fixpoint feed (buffer : string) (chunks : list string) : list string * string :=
  match chunks with
  | [] => ([], buffer)
  | c :: cs =>
      let '(ls, b) := frame buffer c in
      let '(ls', b') := feed b cs in
      (ls ++ ls', b')
  end.

(** A complete line: its content followed by the terminator. *)
Definition terminated (l : string) : string := l +:+ String LF "".

(** ** JSON values

    A number is held exactly, and each number has one form: an integer is
    [JNum n], any other number is [JDec m e], the number [m * 10 ^ e] with
    [e < 0] and [m] no multiple of ten.  An object is the list of its own
    properties in creation order. *)
#[local] Unset Elimination Schemes.
Inductive json : Type :=
| JNull
| JBool (b : bool)
| JNum (n : Z)
| JDec (m e : Z)
| JStr (s : string)
| JArr (l : list json)
| JObj (l : list (string * json)).
#[local] Set Elimination Schemes.

(** A JavaScript value as the dispatcher meets it. *)
Inductive value : Type :=
| Undefined
| J (j : json).

Definition DQUOTE : ascii := "034"%char.
Definition BACKSLASH : ascii := "092"%char.
Definition BS : ascii := "008"%char.
Definition TAB : ascii := "009"%char.
Definition FF : ascii := "012"%char.
Definition CR : ascii := "013"%char.

(** *** [JSON.stringify] *)

Definition hex_digit (n : nat) : ascii :=
  nth n (list_ascii_of_string "0123456789abcdef") "0"%char.

(** The bytes of the code point [code]. *)
Definition utf8 (code : N) : string :=
  if (code <? 128)%N then String (ascii_of_N code) ""
  else if (code <? 2048)%N then
    String (ascii_of_N (192 + code / 64))
      (String (ascii_of_N (128 + code mod 64)) "")
  else if (code <? 65536)%N then
    String (ascii_of_N (224 + code / 4096))
      (String (ascii_of_N (128 + code / 64 mod 64))
         (String (ascii_of_N (128 + code mod 64)) ""))
  else
    String (ascii_of_N (240 + code / 262144))
      (String (ascii_of_N (128 + code / 4096 mod 64))
         (String (ascii_of_N (128 + code / 64 mod 64))
            (String (ascii_of_N (128 + code mod 64)) ""))).

(** The code unit that the bytes [a b c] hold, if it is a surrogate. *)
Definition surrogate (a b c : ascii) : option N :=
  if (N_of_ascii a =? 237)%N
     && (160 <=? N_of_ascii b)%N && (N_of_ascii b <=? 191)%N
     && (128 <=? N_of_ascii c)%N && (N_of_ascii c <=? 191)%N
  then Some (53248 + (N_of_ascii b - 128) * 64 + (N_of_ascii c - 128))%N
  else None.

(** UnicodeEscape: [\u] and four hexadecimal digits in lower case. *)
Definition escape_u (code : N) : string :=
  String BACKSLASH
    (String "u"
       (String (hex_digit (N.to_nat (code / 4096)))
          (String (hex_digit (N.to_nat (code / 256 mod 16)))
             (String (hex_digit (N.to_nat (code / 16 mod 16)))
                (String (hex_digit (N.to_nat (code mod 16))) ""))))).

(** QuoteJSONString for a character that is no surrogate. *)
Definition quote_char (c : ascii) : string :=
  if Ascii.eqb c DQUOTE then String BACKSLASH (String DQUOTE "")
  else if Ascii.eqb c BACKSLASH then String BACKSLASH (String BACKSLASH "")
  else if Ascii.eqb c BS then String BACKSLASH "b"
  else if Ascii.eqb c FF then String BACKSLASH "f"
  else if Ascii.eqb c LF then String BACKSLASH "n"
  else if Ascii.eqb c CR then String BACKSLASH "r"
  else if Ascii.eqb c TAB then String BACKSLASH "t"
  else if (nat_of_ascii c <? 32)%nat then
    String BACKSLASH
      ("u00" +:+ String (hex_digit (nat_of_ascii c / 16))
                  (String (hex_digit (nat_of_ascii c mod 16)) ""))
  else String c "".

(** The surrogates: the high ones are D800 to DBFF, the low ones DC00 to
    DFFF. *)
Definition is_high (code : N) : bool := (55296 <=? code)%N && (code <? 56320)%N.

Definition is_low (code : N) : bool := (56320 <=? code)%N && (code <? 57344)%N.

(** Whether [s] starts with the bytes of a low surrogate. *)
Definition low_head (s : string) : bool :=
  match s with
  | String a (String b (String c _)) =>
      match surrogate a b c with
      | Some code => is_low code
      | None => false
      end
  | _ => false
  end.

(** QuoteJSONString.  A surrogate that stands alone is written as an escape,
    every other character above the control characters as it is.  (The bytes
    of a low surrogate right after those of a high one are no text of
    JavaScript, where the two are one code point of four bytes; they are
    left as they are.) *)
Fixpoint quote_chars (s : string) : string :=
  match s with
  | EmptyString => ""
  | String a s1 =>
      match s1 with
      | String b (String c s3) =>
          match surrogate a b c with
          | Some code =>
              escape_u code
              +:+ (if is_high code && low_head s3 then
                     match s3 with
                     | String a' (String b' (String c' s6)) =>
                         String a' (String b' (String c' (quote_chars s6)))
                     | _ => quote_chars s3
                     end
                   else quote_chars s3)
          | None => quote_char a +:+ quote_chars s1
          end
      | _ => quote_char a +:+ quote_chars s1
      end
  end.

Definition quote (s : string) : string :=
  String DQUOTE (quote_chars s +:+ String DQUOTE "").

(** Number::toString for an integer. *)
Definition number_to_string (n : Z) : string :=
  NilZero.string_of_int (Z.to_int n).

(** [n] zeros. *)
Fixpoint zeros (n : nat) : string :=
  match n with
  | O => ""
  | S n' => String "0" (zeros n')
  end.

(** The first [n] characters of [s], and the others. *)
Fixpoint text_take (n : nat) (s : string) : string :=
  match n, s with
  | S n', String c s' => String c (text_take n' s')
  | _, _ => ""
  end.

Fixpoint text_drop (n : nat) (s : string) : string :=
  match n, s with
  | S n', String _ s' => text_drop n' s'
  | _, _ => s
  end.

(** The decimal digits of [|m|]. *)
Definition digits (m : Z) : string :=
  NilZero.string_of_uint (N.to_uint (Z.abs_N m)).

(** Number::toString for the positive number [0.ds * 10 ^ n] that is not an
    integer, [ds] its digits without a zero at either end: plain notation when
    the point is within 21 digits after the first digit or 6 zeros before it,
    otherwise with an exponent. *)
Definition point_notation (ds : string) (n : Z) : string :=
  let k := Z.of_nat (String.length ds) in
  if (0 <? n) && (n <=? 21) then
    text_take (Z.to_nat n) ds +:+ "." +:+ text_drop (Z.to_nat n) ds
  else if (-6 <? n) && (n <=? 0) then
    "0." +:+ zeros (Z.to_nat (- n)) +:+ ds
  else
    text_take 1 ds
    +:+ (if k =? 1 then "" else "." +:+ text_drop 1 ds)
    +:+ "e" +:+ (if n - 1 <? 0 then "-" else "+") +:+ digits (n - 1).

(** Number::toString for [m * 10 ^ e] with [e < 0] *)
Definition decimal_to_string (m e : Z) : string :=
  let ds := digits m in
  (if m <? 0 then "-" else "")
  +:+ point_notation ds (Z.of_nat (String.length ds) + e).

(** [Array.prototype.join(",")] on texts. *)
Fixpoint commas (l : list string) : string :=
  match l with
  | [] => ""
  | [x] => x
  | x :: l' => x +:+ "," +:+ commas l'
  end.

Fixpoint stringify (j : json) : string :=
  match j with
  | JNull => "null"
  | JBool true => "true"
  | JBool false => "false"
  | JNum n => number_to_string n
  | JDec m e => decimal_to_string m e
  | JStr s => quote s
  | JArr l => "[" +:+ commas (map stringify l) +:+ "]"
  | JObj l =>
      "{" +:+ commas (map (fun kv => quote (fst kv) +:+ ":" +:+ stringify (snd kv)) l)
          +:+ "}"
  end.

(** An element of an array as [JSON.stringify] writes it: [undefined] is
    written as [null]. *)
Definition slot (v : value) : json :=
  match v with
  | Undefined => JNull
  | J j => j
  end.

(** *** [JSON.parse] *)

Definition is_ws (c : ascii) : bool :=
  Ascii.eqb c " " || Ascii.eqb c TAB || Ascii.eqb c LF || Ascii.eqb c CR.

Fixpoint skip_ws (s : string) : string :=
  match s with
  | String c s' => if is_ws c then skip_ws s' else s
  | EmptyString => s
  end.

Fixpoint strip_prefix (p s : string) : option string :=
  match p, s with
  | EmptyString, _ => Some s
  | String a p', String b s' => if Ascii.eqb a b then strip_prefix p' s' else None
  | String _ _, EmptyString => None
  end.

(** The value of a hexadecimal digit, in either case. *)
Definition hex_value (c : ascii) : option N :=
  let n := N_of_ascii c in
  if (48 <=? n)%N && (n <=? 57)%N then Some (n - 48)%N
  else if (97 <=? n)%N && (n <=? 102)%N then Some (n - 87)%N
  else if (65 <=? n)%N && (n <=? 70)%N then Some (n - 55)%N
  else None.

Definition hex4 (a b c d : ascii) : option N :=
  match hex_value a, hex_value b, hex_value c, hex_value d with
  | Some x, Some y, Some z, Some w => Some (((x * 16 + y) * 16 + z) * 16 + w)%N
  | _, _, _, _ => None
  end.

(** The character an escape letter stands for. *)
Definition unescape (e : ascii) : option ascii :=
  if Ascii.eqb e DQUOTE then Some DQUOTE
  else if Ascii.eqb e BACKSLASH then Some BACKSLASH
  else if Ascii.eqb e "/" then Some "/"%char
  else if Ascii.eqb e "b" then Some BS
  else if Ascii.eqb e "f" then Some FF
  else if Ascii.eqb e "n" then Some LF
  else if Ascii.eqb e "r" then Some CR
  else if Ascii.eqb e "t" then Some TAB
  else None.

(** One more character in front of the content read so far. *)
Definition push_char (c : ascii) (r : option (string * string)) : option (string * string) :=
  match r with
  | Some (s, rest) => Some (String c s, rest)
  | None => None
  end.

(** The same for the bytes of a character. *)
Definition push_text (t : string) (r : option (string * string)) : option (string * string) :=
  match r with
  | Some (s, rest) => Some (t +:+ s, rest)
  | None => None
  end.

(** The characters of a string literal after its opening quote: the content
    and the text after the closing quote.  A [\u] escape stands for a code
    unit; the escape of a high surrogate followed by the escape of a low one
    stands for one code point. *)
Fixpoint parse_chars (s : string) : option (string * string) :=
  match s with
  | EmptyString => None
  | String c r =>
      if Ascii.eqb c DQUOTE then Some ("", r)
      else if Ascii.eqb c BACKSLASH then
        match r with
        | EmptyString => None
        | String e r1 =>
            if Ascii.eqb e "u" then
              match r1 with
              | String h1 (String h2 (String h3 (String h4 r2))) =>
                  match hex4 h1 h2 h3 h4 with
                  | Some code =>
                      let alone := push_text (utf8 code) (parse_chars r2) in
                      if is_high code then
                        match r2 with
                        | String b0 (String u0
                            (String l1 (String l2 (String l3 (String l4 r3))))) =>
                            if Ascii.eqb b0 BACKSLASH && Ascii.eqb u0 "u" then
                              match hex4 l1 l2 l3 l4 with
                              | Some low =>
                                  if is_low low then
                                    push_text
                                      (utf8 (65536 + (code - 55296) * 1024 + (low - 56320)))
                                      (parse_chars r3)
                                  else alone
                              | None => alone
                              end
                            else alone
                        | _ => alone
                        end
                      else alone
                  | None => None
                  end
              | _ => None
              end
            else
              match unescape e with
              | Some d => push_char d (parse_chars r1)
              | None => None
              end
        end
      else if (nat_of_ascii c <? 32)%nat then None
      else push_char c (parse_chars r)
  end.

(** The digit that a character writes, in front of the digits after it. *)
Definition digit_of (c : ascii) : option (Decimal.uint -> Decimal.uint) :=
  if Ascii.eqb c "0" then Some Decimal.D0
  else if Ascii.eqb c "1" then Some Decimal.D1
  else if Ascii.eqb c "2" then Some Decimal.D2
  else if Ascii.eqb c "3" then Some Decimal.D3
  else if Ascii.eqb c "4" then Some Decimal.D4
  else if Ascii.eqb c "5" then Some Decimal.D5
  else if Ascii.eqb c "6" then Some Decimal.D6
  else if Ascii.eqb c "7" then Some Decimal.D7
  else if Ascii.eqb c "8" then Some Decimal.D8
  else if Ascii.eqb c "9" then Some Decimal.D9
  else None.

(** The digits at the head of a text, and what follows them. *)
Fixpoint parse_digits (s : string) : Decimal.uint * string :=
  match s with
  | EmptyString => (Decimal.Nil, s)
  | String c r =>
      match digit_of c with
      | Some d => let '(u, r') := parse_digits r in (d u, r')
      | None => (Decimal.Nil, s)
      end
  end.

(** The digits [u] followed by the digits [v]. *)
Fixpoint uint_app (u v : Decimal.uint) : Decimal.uint :=
  match u with
  | Decimal.Nil => v
  | Decimal.D0 u' => Decimal.D0 (uint_app u' v)
  | Decimal.D1 u' => Decimal.D1 (uint_app u' v)
  | Decimal.D2 u' => Decimal.D2 (uint_app u' v)
  | Decimal.D3 u' => Decimal.D3 (uint_app u' v)
  | Decimal.D4 u' => Decimal.D4 (uint_app u' v)
  | Decimal.D5 u' => Decimal.D5 (uint_app u' v)
  | Decimal.D6 u' => Decimal.D6 (uint_app u' v)
  | Decimal.D7 u' => Decimal.D7 (uint_app u' v)
  | Decimal.D8 u' => Decimal.D8 (uint_app u' v)
  | Decimal.D9 u' => Decimal.D9 (uint_app u' v)
  end.

(** The sign of a number token, if it has one. *)
Definition parse_sign (s : string) : bool * string :=
  match s with
  | String c r => if Ascii.eqb c "-" then (true, r) else (false, s)
  | EmptyString => (false, s)
  end.

(** At least one digit; and a zero in front of other digits. *)
Definition nonempty (u : Decimal.uint) : bool :=
  match u with
  | Decimal.Nil => false
  | _ => true
  end.

Definition leading_zero (u : Decimal.uint) : bool :=
  match u with
  | Decimal.D0 u' => nonempty u'
  | _ => false
  end.

(** The integer part of a number token: [0], or digits without a leading
    zero. *)
Definition parse_integer (s : string) : option (Decimal.uint * string) :=
  let '(u, r) := parse_digits s in
  if nonempty u && negb (leading_zero u) then Some (u, r) else None.

(** The fraction of a number token, if it has one: a point and digits. *)
Definition parse_fraction (s : string) : option (Decimal.uint * string) :=
  match s with
  | String c r =>
      if Ascii.eqb c "." then
        let '(f, r') := parse_digits r in
        if nonempty f then Some (f, r') else None
      else Some (Decimal.Nil, s)
  | EmptyString => Some (Decimal.Nil, s)
  end.

(** The exponent of a number token, if it has one: [e] or [E], an optional
    sign and digits. *)
Definition parse_exponent (s : string) : option (Z * string) :=
  match s with
  | String c r =>
      if Ascii.eqb c "e" || Ascii.eqb c "E" then
        let '(negative, r1) :=
          match r with
          | String d r' =>
              if Ascii.eqb d "-" then (true, r')
              else if Ascii.eqb d "+" then (false, r')
              else (false, r)
          | EmptyString => (false, r)
          end in
        let '(x, r2) := parse_digits r1 in
        if nonempty x then Some (if negative then - Z.of_uint x else Z.of_uint x, r2)
        else None
      else Some (0, s)
  | EmptyString => Some (0, s)
  end.

(** The number [m * 10 ^ e] for [e < 0], in its one form. *)
Fixpoint strip_zeros (fuel : nat) (m e : Z) : json :=
  match fuel with
  | O => JNum m
  | S fuel' =>
      if m mod 10 =? 0 then strip_zeros fuel' (m / 10) (e + 1) else JDec m e
  end.

(** The number [m * 10 ^ e]. *)
Definition number_of (m e : Z) : json :=
  if m =? 0 then JNum 0
  else if 0 <=? e then JNum (m * 10 ^ e)
  else strip_zeros (Z.to_nat (- e)) m e.

(** A number token without its sign: the digits of the integer part and of
    the fraction as one integer, and the power of ten to multiply it with. *)
Definition parse_unsigned (s : string) : option (Z * Z * string) :=
  match parse_integer s with
  | None => None
  | Some (u, r) =>
      match parse_fraction r with
      | None => None
      | Some (f, r1) =>
          match parse_exponent r1 with
          | None => None
          | Some (x, r2) =>
              Some (Z.of_uint (uint_app u f), x - Z.of_nat (Decimal.nb_digits f), r2)
          end
      end
  end.

(** A number token: a sign, an integer part, a fraction, an exponent, of
    which only the integer part must be there; and the number it writes. *)
Definition parse_number (s : string) : option (json * string) :=
  let '(negative, s1) := parse_sign s in
  match parse_unsigned s1 with
  | None => None
  | Some (m, e, r) => Some (number_of (if negative then - m else m) e, r)
  end.

(** [CreateDataProperty]: a repeated key replaces the earlier value. *)
Fixpoint obj_set (k : string) (v : json) (o : list (string * json)) : list (string * json) :=
  match o with
  | [] => [(k, v)]
  | (k', v') :: o' =>
      if String.eqb k k' then (k, v) :: o' else (k', v') :: obj_set k v o'
  end.

Fixpoint parse_value (fuel : nat) (s : string) {struct fuel} : option (json * string) :=
  match fuel with
  | O => None
  | S fuel =>
      match skip_ws s with
      | EmptyString => None
      | String c r =>
          if Ascii.eqb c "[" then
            match skip_ws r with
            | EmptyString => None
            | String c' r' =>
                if Ascii.eqb c' "]" then Some (JArr [], r')
                else parse_elements fuel r []
            end
          else if Ascii.eqb c "{" then
            match skip_ws r with
            | EmptyString => None
            | String c' r' =>
                if Ascii.eqb c' "}" then Some (JObj [], r')
                else parse_members fuel r []
            end
          else if Ascii.eqb c DQUOTE then
            match parse_chars r with
            | Some (str, r') => Some (JStr str, r')
            | None => None
            end
          else if Ascii.eqb c "n" then
            match strip_prefix "ull" r with
            | Some r' => Some (JNull, r')
            | None => None
            end
          else if Ascii.eqb c "t" then
            match strip_prefix "rue" r with
            | Some r' => Some (JBool true, r')
            | None => None
            end
          else if Ascii.eqb c "f" then
            match strip_prefix "alse" r with
            | Some r' => Some (JBool false, r')
            | None => None
            end
          else
            parse_number (String c r)
      end
  end
with parse_elements (fuel : nat) (s : string) (acc : list json) {struct fuel}
  : option (json * string) :=
  match fuel with
  | O => None
  | S fuel =>
      match parse_value fuel s with
      | None => None
      | Some (v, r) =>
          match skip_ws r with
          | EmptyString => None
          | String c r' =>
              if Ascii.eqb c "," then parse_elements fuel r' (acc ++ [v])
              else if Ascii.eqb c "]" then Some (JArr (acc ++ [v]), r')
              else None
          end
      end
  end
with parse_members (fuel : nat) (s : string) (acc : list (string * json)) {struct fuel}
  : option (json * string) :=
  match fuel with
  | O => None
  | S fuel =>
      match skip_ws s with
      | EmptyString => None
      | String q r =>
          if Ascii.eqb q DQUOTE then
            match parse_chars r with
            | None => None
            | Some (k, r1) =>
                match skip_ws r1 with
                | EmptyString => None
                | String c r2 =>
                    if Ascii.eqb c ":" then
                      match parse_value fuel r2 with
                      | None => None
                      | Some (v, r3) =>
                          match skip_ws r3 with
                          | EmptyString => None
                          | String d r4 =>
                              if Ascii.eqb d "," then parse_members fuel r4 (obj_set k v acc)
                              else if Ascii.eqb d "}" then Some (JObj (obj_set k v acc), r4)
                              else None
                          end
                      end
                    else None
                end
            end
          else None
      end
  end.

(** [JSON.parse(text)]; [None] is its SyntaxError.  One value, with
    nothing but white space around it. *)
Definition JSON_parse (text : string) : option json :=
  match parse_value (2 * String.length text + 2) text with
  | Some (v, r) =>
      match skip_ws r with
      | EmptyString => Some v
      | String _ _ => None
      end
  | None => None
  end.

(** *** Well-formed values and measures used by the proofs *)

(** Induction on [json], with the hypothesis for every element of an array
    and every property of an object. *)
Definition json_ind (P : json -> Prop)
    (fnull : P JNull)
    (fbool : forall b, P (JBool b))
    (fnum : forall n, P (JNum n))
    (fdec : forall m e, P (JDec m e))
    (fstr : forall s, P (JStr s))
    (farr : forall l, Forall P l -> P (JArr l))
    (fobj : forall l, Forall (fun kv => P (snd kv)) l -> P (JObj l)) :
  forall j, P j :=
  fix F (j : json) : P j :=
    match j with
    | JNull => fnull
    | JBool b => fbool b
    | JNum n => fnum n
    | JDec m e => fdec m e
    | JStr s => fstr s
    | JArr l =>
        farr l ((fix G (l : list json) : Forall P l :=
                   match l with
                   | [] => List.Forall_nil P
                   | x :: l' => List.Forall_cons P x l' (F x) (G l')
                   end) l)
    | JObj l =>
        fobj l ((fix G (l : list (string * json)) : Forall (fun kv => P (snd kv)) l :=
                   match l with
                   | [] => List.Forall_nil _
                   | kv :: l' => List.Forall_cons _ kv l' (F (snd kv)) (G l')
                   end) l)
    end.

Fixpoint distinct (l : list string) : bool :=
  match l with
  | [] => true
  | k :: l' => negb (existsb (String.eqb k) l') && distinct l'
  end.

(** The values the model stands for: numbers that a JavaScript number holds
    (an integer up to 2^53, a fraction in its one form with at most 15 digits
    and at least 1e-300: these a double gives back as they are read), and
    objects without a repeated key. *)
Fixpoint well_formed (j : json) : bool :=
  match j with
  | JNum n => Z.abs n <=? 9007199254740991
  | JDec m e =>
      negb (m mod 10 =? 0) && (e <? 0)
      && (Z.abs m <? 1000000000000000) && (-300 <=? e)
  | JArr l => forallb well_formed l
  | JObj l => distinct (map fst l) && forallb (fun kv => well_formed (snd kv)) l
  | _ => true
  end.

(** Fuel that [parse_value] needs for the text of a value. *)
Fixpoint weight (j : json) : nat :=
  match j with
  | JArr l => S (list_sum (map (fun x => S (weight x)) l))
  | JObj l => S (list_sum (map (fun kv => S (weight (snd kv))) l))
  | _ => 1
  end.

(** What may follow a value in a text: nothing, a separator, a closing
    bracket or white space. *)
Definition delimiter (c : ascii) : bool :=
  Ascii.eqb c "," || Ascii.eqb c "]" || Ascii.eqb c "}" || is_ws c.

Definition delimits (rest : string) : bool :=
  match rest with
  | EmptyString => true
  | String c _ => delimiter c
  end.

(** The first character of the text of a value. *)
Definition value_start (c : ascii) : bool :=
  Ascii.eqb c "[" || Ascii.eqb c "{" || Ascii.eqb c DQUOTE || Ascii.eqb c "n"
  || Ascii.eqb c "t" || Ascii.eqb c "f" || Ascii.eqb c "-"
  || match digit_of c with Some _ => true | None => false end.

(** The texts of a list after its first element, up to [close]. *)
Fixpoint seps (l : list string) (close : string) : string :=
  match l with
  | [] => close
  | x :: l' => "," +:+ x +:+ seps l' close
  end.

(** No character of [s] is a control character. *)
Fixpoint printable (s : string) : bool :=
  match s with
  | EmptyString => true
  | String c s' => negb (nat_of_ascii c <? 32)%nat && printable s'
  end.

(** Whether [s] starts with the escape of a low surrogate. *)
Definition low_escape (s : string) : bool :=
  match s with
  | String b0 (String u0 (String l1 (String l2 (String l3 (String l4 _))))) =>
      if Ascii.eqb b0 BACKSLASH && Ascii.eqb u0 "u" then
        match hex4 l1 l2 l3 l4 with
        | Some low => is_low low
        | None => false
        end
      else false
  | _ => false
  end.

(** A text of digits. *)
Fixpoint all_digits (s : string) : bool :=
  match s with
  | EmptyString => true
  | String c s' =>
      match digit_of c with
      | Some _ => all_digits s'
      | None => false
      end
  end.

(** ** Property reads on parsed values *)

(** ToString, as a property key: [obj[v]] reads the property named
    [ToString v]. *)
Fixpoint ToString (j : json) : string :=
  match j with
  | JNull => "null"
  | JBool true => "true"
  | JBool false => "false"
  | JNum n => number_to_string n
  | JDec m e => decimal_to_string m e
  | JStr s => s
  | JArr l =>
      commas (map (fun x => match x with JNull => "" | _ => ToString x end) l)
  | JObj _ => "[object Object]"
  end.

Definition to_key (v : value) : string :=
  match v with
  | Undefined => "undefined"
  | J j => ToString j
  end.

(** The last binding of [k] among the own properties [o]. *)
Fixpoint own_property (k : string) (o : list (string * json)) : value :=
  match o with
  | [] => Undefined
  | (k', v) :: o' =>
      match own_property k o' with
      | Undefined => if String.eqb k k' then J v else Undefined
      | found => found
      end
  end.

Definition index_key (i : nat) : string :=
  NilZero.string_of_uint (Nat.to_uint i).

(** The number of bytes of the character that the byte [a] starts; [1]
    also for a byte that starts none. *)
Definition char_bytes (a : ascii) : nat :=
  match a with
  | Ascii _ _ _ _ b4 b5 b6 b7 =>
      if b7 && b6 then (if b5 then (if b4 then 4 else 3) else 2) else 1
  end%nat.

(** The surrogates of a character of four bytes [a b c d], each in three
    bytes.  The character has the bits [uuuuu zzzz yyyyyy xxxxxx], spread as
    [11110uuu 10uuzzzz 10yyyyyy 10xxxxxx]; with [wwww = uuuuu - 1] the high
    surrogate is [110110ww wwzzzzyy] and the low one [110111yy yyxxxxxx]. *)
Definition high_surrogate (a b c : ascii) : string :=
  match a, b, c with
  | Ascii u2 u3 _ _ _ _ _ _, Ascii z0 z1 z2 z3 u0 u1 _ _, Ascii _ _ _ _ y4 y5 _ _ =>
      let w0 := negb u0 in
      let k1 := negb u0 in
      let w1 := xorb u1 k1 in
      let k2 := k1 && negb u1 in
      let w2 := xorb u2 k2 in
      let k3 := k2 && negb u2 in
      let w3 := xorb u3 k3 in
      String "237"
        (String (Ascii w0 w1 w2 w3 false true false true)
           (String (Ascii y4 y5 z0 z1 z2 z3 false true) ""))
  end.

Definition low_surrogate (c d : ascii) : string :=
  match c, d with
  | Ascii y0 y1 y2 y3 _ _ _ _, Ascii x0 x1 x2 x3 x4 x5 _ _ =>
      String "237"
        (String (Ascii y0 y1 y2 y3 true true false true)
           (String (Ascii x0 x1 x2 x3 x4 x5 false true) ""))
  end.

(** The code units of a text, each as the text it is on its own: a
    character of up to three bytes is one code unit, a character of four
    bytes is two surrogates. *)
Fixpoint code_units (s : string) : list string :=
  match s with
  | EmptyString => []
  | String a s1 =>
      match char_bytes a, s1 with
      | 2%nat, String b s2 => String a (String b "") :: code_units s2
      | 3%nat, String b (String c s3) =>
          String a (String b (String c "")) :: code_units s3
      | 4%nat, String b (String c (String d s4)) =>
          high_surrogate a b c :: low_surrogate c d :: code_units s4
      | _, _ => String a "" :: code_units s1
      end
  end.

(** [v[i]] for an index [i]; [None] is the TypeError of reading a property
    of [null] or [undefined]. *)
Definition get_index (v : value) (i : nat) : option value :=
  match v with
  | Undefined | J JNull => None
  | J (JArr l) =>
      Some (match nth_error l i with Some x => J x | None => Undefined end)
  | J (JStr str) =>
      Some (match nth_error (code_units str) i with
            | Some unit => J (JStr unit)
            | None => Undefined
            end)
  | J (JObj o) => Some (own_property (index_key i) o)
  | J (JBool _) | J (JNum _) | J (JDec _ _) => Some Undefined
  end.

(** [v.name] for a name that no built-in prototype defines, as [func] and
    [args] are. *)
Definition get_field (v : value) (name : string) : option value :=
  match v with
  | Undefined | J JNull => None
  | J (JObj o) => Some (own_property name o)
  | J _ => Some Undefined
  end.

(** [v === str] for a string [str] *)
Definition strict_equal (v : value) (str : string) : bool :=
  match v with
  | J (JStr s) => String.eqb s str
  | _ => false
  end.

(** ** Pending operations *)

(** Modelled from the spec: [CancelablePromise] of [./generated] is not
    among the sources.  A pending operation is named by a handle, which is
    either cancelable (it supports an explicit cancel action) or plain (any
    other [PromiseLike]). *)
Inductive handle : Type :=
| Plain (n : nat)
| Cancelable (n : nat).

#[global] Instance handle_eq_dec : EqDecision handle.
Proof. solve_decision. Defined.

#[global] Instance handle_countable : Countable handle :=
  inj_countable'
    (fun h => match h with Plain n => inl n | Cancelable n => inr n end)
    (fun x => match x with inl n => Plain n | inr n => Cancelable n end)
    (fun h => match h with Plain _ => eq_refl | Cancelable _ => eq_refl end).

(** [ongoing instanceof CancelablePromise] *)
Definition isCancelable (h : handle) : bool :=
  match h with
  | Cancelable _ => true
  | Plain _ => false
  end.

Inductive settlement : Type :=
| Fulfilled (v : value)
| Rejected.

Inductive result : Type :=
| Value (v : value)
| Thenable (h : handle).

Inductive outcome : Type :=
| Throws
| Returns (r : result).

(** A record of the logger, by level and message. *)
Inductive log_entry : Type :=
| LogError (msg : string)
| LogDebug (msg : string).

(** The two slots of a response array. *)
Definition Response : Type := value * value.

(** An activation of [handleRequest] that waits at its [await]: the
    request, [response[0]] as set so far, and the awaited thenable. *)
Record activation : Type := Activation {
  act_request : json;
  act_id : value;
  act_handle : handle
}.

Inductive progress : Type :=
| Completed (response : Response)
| Awaiting (a : activation).

Section Provider.

(** The state of the capability provider, which its functions read and
    change. *)
Context {AgentState : Type}.

(** The event names [bind] subscribes to; [agentEventNames] of [./Agent]
    is not among the sources. *)
Variable agentEventNames : list string.

(** Modelled from the spec: [Agent] of [./Agent] is not among the sources.
    The provider exposes named operations, each returning an immediate value
    or a pending handle.  [agent_member name] is [this.agent[name]]: [None]
    for a falsy member, otherwise what [func.apply(this.agent, args)] does
    in a state of the provider.  [agent_id] tells providers apart. *)
Record Agent : Type := {
  agent_id : nat;
  agent_member : string -> option (value -> AgentState -> outcome * AgentState)
}.

Record StdIO : Type := {
  (* the fields of the class *)
  outStream : list string;                (* texts written, oldest first *)
  logger : list log_entry;                (* records logged, oldest first *)
  buffer : string;
  ongoingRequests : gmap string handle;
  agent : option Agent;
  (* the surroundings *)
  listeners : list (nat * string);        (* subscriptions: provider, event name *)
  suspended : list activation;            (* activations waiting at [await] *)
  settled : gmap handle settlement;       (* operations resolved or rejected *)
  cancelCalls : list handle;              (* calls of [cancel()] *)
  provider : AgentState
}.

(** [new StdIO()] *)
Definition new_StdIO (st : AgentState) : StdIO :=
  {| outStream := []; logger := []; buffer := ""; ongoingRequests := ∅;
     agent := None; listeners := []; suspended := []; settled := ∅;
     cancelCalls := []; provider := st |}.

Definition write (text : string) (s : StdIO) : StdIO :=
  {| outStream := outStream s ++ [text]; logger := logger s; buffer := buffer s;
     ongoingRequests := ongoingRequests s; agent := agent s;
     listeners := listeners s; suspended := suspended s; settled := settled s;
     cancelCalls := cancelCalls s; provider := provider s |}.

Definition log (e : log_entry) (s : StdIO) : StdIO :=
  {| outStream := outStream s; logger := logger s ++ [e]; buffer := buffer s;
     ongoingRequests := ongoingRequests s; agent := agent s;
     listeners := listeners s; suspended := suspended s; settled := settled s;
     cancelCalls := cancelCalls s; provider := provider s |}.

Definition set_buffer (b : string) (s : StdIO) : StdIO :=
  {| outStream := outStream s; logger := logger s; buffer := b;
     ongoingRequests := ongoingRequests s; agent := agent s;
     listeners := listeners s; suspended := suspended s; settled := settled s;
     cancelCalls := cancelCalls s; provider := provider s |}.

Definition set_ongoingRequests (m : gmap string handle) (s : StdIO) : StdIO :=
  {| outStream := outStream s; logger := logger s; buffer := buffer s;
     ongoingRequests := m; agent := agent s;
     listeners := listeners s; suspended := suspended s; settled := settled s;
     cancelCalls := cancelCalls s; provider := provider s |}.

Definition set_agent (a : Agent) (s : StdIO) : StdIO :=
  {| outStream := outStream s; logger := logger s; buffer := buffer s;
     ongoingRequests := ongoingRequests s; agent := Some a;
     listeners := listeners s; suspended := suspended s; settled := settled s;
     cancelCalls := cancelCalls s; provider := provider s |}.

Definition set_listeners (l : list (nat * string)) (s : StdIO) : StdIO :=
  {| outStream := outStream s; logger := logger s; buffer := buffer s;
     ongoingRequests := ongoingRequests s; agent := agent s;
     listeners := l; suspended := suspended s; settled := settled s;
     cancelCalls := cancelCalls s; provider := provider s |}.

Definition set_suspended (l : list activation) (s : StdIO) : StdIO :=
  {| outStream := outStream s; logger := logger s; buffer := buffer s;
     ongoingRequests := ongoingRequests s; agent := agent s;
     listeners := listeners s; suspended := l; settled := settled s;
     cancelCalls := cancelCalls s; provider := provider s |}.

Definition set_settled (m : gmap handle settlement) (s : StdIO) : StdIO :=
  {| outStream := outStream s; logger := logger s; buffer := buffer s;
     ongoingRequests := ongoingRequests s; agent := agent s;
     listeners := listeners s; suspended := suspended s; settled := m;
     cancelCalls := cancelCalls s; provider := provider s |}.

Definition set_cancelCalls (l : list handle) (s : StdIO) : StdIO :=
  {| outStream := outStream s; logger := logger s; buffer := buffer s;
     ongoingRequests := ongoingRequests s; agent := agent s;
     listeners := listeners s; suspended := suspended s; settled := settled s;
     cancelCalls := l; provider := provider s |}.

Definition set_provider (st : AgentState) (s : StdIO) : StdIO :=
  {| outStream := outStream s; logger := logger s; buffer := buffer s;
     ongoingRequests := ongoingRequests s; agent := agent s;
     listeners := listeners s; suspended := suspended s; settled := settled s;
     cancelCalls := cancelCalls s; provider := st |}.

(** ** [sendResponse] *)

(** [JSON.stringify(response)] *)
Definition encode (response : Response) : string :=
  stringify (JArr [slot (fst response); slot (snd response)]).

Definition sendResponse (response : Response) (s : StdIO) : StdIO :=
  write (encode response +:+ String LF "") s.

(** ** [cancelRequest]

    [None] is a TypeError raised while reading [request[1].args[0]]. *)
Definition cancel_target (request : json) : option value :=
  match get_index (J request) 1 with
  | None => None
  | Some data =>
      match get_field data "args" with
      | None => None
      | Some args => get_index args 0
      end
  end.

Definition cancelRequest (request : json) (s : StdIO) : option (bool * StdIO) :=
  match cancel_target request with
  | None => None
  | Some target =>
      match ongoingRequests s !! to_key target with
      | None => Some (false, s)
      | Some ongoing =>
          let s1 :=
            if isCancelable ongoing
            then set_cancelCalls (cancelCalls s ++ [ongoing]) s
            else s in
          Some (true, set_ongoingRequests (delete (to_key target) (ongoingRequests s1)) s1)
      end
  end.

(** ** [handleRequest] *)

(** The [catch] clause, followed by [return response]. *)
Definition caught (request : json) (response : Response) (s : StdIO) : progress * StdIO :=
  (Completed response,
   log (LogError ("Failed to handle request: " +:+ stringify request)) s).

(** The run of [handleRequest] up to its [return] or its [await]. *)
Definition handleRequest (request : json) (s : StdIO) : progress * StdIO :=
  let null := J JNull in
  match agent s with
  | None => caught request (J (JNum 0), null) s
  | Some a =>
      match get_index (J request) 0 with
      | None => caught request (J (JNum 0), null) s
      | Some id =>
          match get_index (J request) 1 with
          | None => caught request (id, null) s
          | Some data =>
              match get_field data "func" with
              | None => caught request (id, null) s
              | Some funcName =>
                  if strict_equal funcName "cancelRequest" then
                      match cancelRequest request s with
                      | None => caught request (id, null) s
                      | Some (b, s') => (Completed (id, J (JBool b)), s')
                      end
                  else
                      match agent_member a (to_key funcName) with
                      | None => caught request (id, null) s
                      | Some func =>
                          let args :=
                            match get_field data "args" with
                            | Some args => args
                            | None => Undefined
                            end in
                          let '(o, st) := func args (provider s) in
                          let s1 := set_provider st s in
                          match o with
                          | Throws => caught request (id, null) s1
                          | Returns (Value (J JNull)) => caught request (id, null) s1
                          | Returns (Value v) => (Completed (id, v), s1)
                          | Returns (Thenable h) =>
                              (Awaiting (Activation request id h),
                               set_ongoingRequests
                                 (<[to_key id := h]> (ongoingRequests s1)) s1)
                          end
                      end
              end
          end
      end
  end.

(** The rest of [handleRequest] after its [await], and the [then] callback
    of [handleInput] that sends the response. *)
Definition resume (a : activation) (o : settlement) (s : StdIO) : StdIO :=
  match o with
  | Fulfilled v =>
      let s1 := set_ongoingRequests (delete (to_key (act_id a)) (ongoingRequests s)) s in
      log (LogDebug "Sent response") (sendResponse (act_id a, v) s1)
  | Rejected =>
      let s1 := snd (caught (act_request a) (act_id a, J JNull) s) in
      log (LogDebug "Sent response") (sendResponse (act_id a, J JNull) s1)
  end.

(** ** [handleInput] *)

(** One decoded request: [handleRequest(request).then(...)].  When
    [handleRequest] returns without waiting, its [then] callback is the next
    thing to write to the stream, so it is run here; when it waits, the
    activation is kept until its operation is settled. *)
Definition dispatch (request : json) (s : StdIO) : StdIO :=
  let s0 := log (LogDebug "Received request") s in
  match handleRequest request s0 with
  | (Completed response, s1) => log (LogDebug "Sent response") (sendResponse response s1)
  | (Awaiting a, s1) => set_suspended (suspended s1 ++ [a]) s1
  end.

(** The body of the loop over [lines]. *)
Definition handle_line (s : StdIO) (line : string) : StdIO :=
  match JSON_parse line with
  | None => log (LogError ("Failed to parse request: " +:+ line)) s
  | Some request => dispatch request s
  end.

Definition handleInput (data : string) (s : StdIO) : StdIO :=
  let '(lines, rest) := frame (buffer s) data in
  fold_left handle_line lines (set_buffer rest s).

(** ** [bind] and the events of the provider *)

Definition bind (a : Agent) (s : StdIO) : StdIO :=
  let s1 := set_agent a s in
  set_listeners (listeners s1 ++ map (fun eventName => (agent_id a, eventName)) agentEventNames) s1.

(** The provider [from] emits [event] under [name]: every listener
    subscribed to it runs. *)
Definition emit (from : nat) (name : string) (event : value) (s : StdIO) : StdIO :=
  fold_left
    (fun s l =>
       if Nat.eqb (fst l) from && String.eqb (snd l) name
       then sendResponse (J (JNum 0), event) s
       else s)
    (listeners s) s.

(** ** The event loop

    What happens to the process, one turn at a time: a call of [bind], a
    chunk given to the listener that [listen] installs, an event of a
    provider, the settlement of an operation, a change of the provider's
    state.  At the end of a turn the activations whose awaited operation is
    settled run to their end, in the order in which they were suspended. *)
Inductive event : Type :=
| Bind (a : Agent)
| Data (chunk : string)
| Emit (from : nat) (name : string) (payload : value)
| Settle (h : handle) (o : settlement)
| Evolve (st : AgentState).

Fixpoint drain_list (l : list activation) (s : StdIO) : list activation * StdIO :=
  match l with
  | [] => ([], s)
  | a :: l' =>
      match settled s !! act_handle a with
      | Some o => drain_list l' (resume a o s)
      | None => let '(k, s') := drain_list l' s in (a :: k, s')
      end
  end.

Definition drain (s : StdIO) : StdIO :=
  let '(k, s') := drain_list (suspended s) s in
  set_suspended k s'.

Definition settle (h : handle) (o : settlement) (s : StdIO) : StdIO :=
  match settled s !! h with
  | Some _ => s
  | None => set_settled (<[h := o]> (settled s)) s
  end.

Definition step (s : StdIO) (e : event) : StdIO :=
  drain
    match e with
    | Bind a => bind a s
    | Data chunk => handleInput chunk s
    | Emit from name payload => emit from name payload s
    | Settle h o => settle h o s
    | Evolve st => set_provider st s
    end.

Definition run (s : StdIO) (trace : list event) : StdIO :=
  fold_left step trace s.

End Provider.

Arguments Agent : clear implicits.
Arguments StdIO : clear implicits.
Arguments event : clear implicits.

(** ** Requests as the types of the source declare them *)

(** [AgentFunctionRequest]: [[id, {func, args}]] *)
Definition AgentFunctionRequest (id : json) (func : string) (args : list json) : json :=
  JArr [id; JObj [("func", JStr func); ("args", JArr args)]].

(** [CancellationRequest]: [[id, {func: "cancelRequest", args: [target]}]] *)
Definition CancellationRequest (id target : json) : json :=
  AgentFunctionRequest id "cancelRequest" [target].

(** The shape that the specification expects of a decoded line: an array of
    two elements, a number and an object with the fields [func] and [args].
    The source does not test it. *)
Definition has_request_shape (j : json) : bool :=
  match j with
  | JArr [JNum _; JObj o] =>
      match own_property "func" o, own_property "args" o with
      | J _, J _ => true
      | _, _ => false
      end
  | _ => false
  end.

(** ** Counting requests and responses in the log *)

Definition is_debug (msg : string) (e : log_entry) : bool :=
  match e with
  | LogDebug m => String.eqb m msg
  | LogError _ => false
  end.

Fixpoint count_log (p : log_entry -> bool) (l : list log_entry) : nat :=
  match l with
  | [] => 0
  | e :: l' => ((if p e then 1 else 0) + count_log p l')%nat
  end.

(** Requests decoded so far, and responses to requests sent so far. *)
Definition received {AgentState : Type} (s : StdIO AgentState) : nat :=
  count_log (is_debug "Received request") (logger s).

Definition sent {AgentState : Type} (s : StdIO AgentState) : nat :=
  count_log (is_debug "Sent response") (logger s).

Definition parses (line : string) : bool :=
  match JSON_parse line with
  | Some _ => true
  | None => false
  end.

(** A [bind] of the provider [from]. *)
Definition binds {AgentState : Type} (from : nat) (e : event AgentState) : bool :=
  match e with
  | Bind a => Nat.eqb (agent_id a) from
  | _ => false
  end.

(** ** A provider for the examples

    [ping] returns a value at once, [getCompletions] a cancelable
    operation and [postEvent] a plain one (a different one for each first
    argument), [fail] throws. *)
Definition operation_number (args : value) : nat :=
  match get_index args 0 with
  | Some (J (JNum n)) => Z.to_nat n
  | _ => 0%nat
  end.

Definition example_agent : Agent unit :=
  {| agent_id := 1;
     agent_member := fun name =>
       if String.eqb name "ping"
       then Some (fun _ st => (Returns (Value (J (JStr "pong"))), st))
       else if String.eqb name "getCompletions"
       then Some (fun args st => (Returns (Thenable (Cancelable (operation_number args))), st))
       else if String.eqb name "postEvent"
       then Some (fun args st => (Returns (Thenable (Plain (operation_number args))), st))
       else if String.eqb name "fail"
       then Some (fun _ st => (Throws, st))
       else None |}.

Definition example_events : list string := ["statusChanged"].

(** A request line as the peer writes it. *)
Definition line_of (request : json) : string := terminated (stringify request).

(** ** Waiting activations and binds, for the properties of the event loop *)

(** Whether the activation [a] waits for the operation [h]. *)
Definition awaits (h : handle) (a : activation) : bool :=
  bool_decide (act_handle a = h).

(** The second slot of the response of an activation whose operation
    settled with [o]: [response[1] = await result], or the [null] that a
    rejection leaves. *)
Definition payload_of (o : settlement) : value :=
  match o with
  | Fulfilled v => v
  | Rejected => J JNull
  end.

(** The line that [sendResponse] writes for [response]. *)
Definition response_line (response : Response) : string :=
  terminated (encode response).



(** The text of the euro sign, U+20AC, and of the character U+1F600 of four
    bytes. *)
Definition euro : string := String "226" (String "130" (String "172" "")).

Definition grin : string :=
  String "240" (String "159" (String "152" (String "128" ""))).

Definition is_Bind {AgentState : Type} (e : event AgentState) : bool :=
  match e with
  | Bind _ => true
  | _ => false
  end.

(** How often [name] occurs among [names]. *)
Fixpoint occurrences (name : string) (names : list string) : nat :=
  match names with
  | [] => 0
  | n :: names' => ((if String.eqb n name then 1 else 0) + occurrences name names')%nat
  end.

(** A text that is one response and its newline. *)
Definition is_response_line (t : string) : Prop :=
  exists response : Response, t = response_line response.

(** ** Unit tests of the framer *)

Example frame_two_lines :
  frame "" ("ab" +:+ String LF ("cd" +:+ String LF "ef"))
  = (["ab" +:+ String LF ""; "cd" +:+ String LF ""], "ef").
Proof. reflexivity. Qed.

Example frame_empty : frame "" "" = ([], "").
Proof. reflexivity. Qed.

Example feed_split :
  feed "" ["a"; "b" +:+ String LF "c"; ""; String LF "d"]
  = (["ab" +:+ String LF ""; "c" +:+ String LF ""], "d").
Proof. reflexivity. Qed.

(** ** Unit tests of the codec *)

Example stringify_request :
  stringify (JArr [JNum 7; JObj [("func", JStr "cancelRequest"); ("args", JArr [JNum 3])]])
  = "[7,{" +:+ quote "func" +:+ ":" +:+ quote "cancelRequest" +:+ ","
      +:+ quote "args" +:+ ":[3]}]".
Proof. reflexivity. Qed.

Example parse_request :
  JSON_parse ("[7, {" +:+ quote "func" +:+ " : " +:+ quote "cancelRequest" +:+ ","
      +:+ quote "args" +:+ ":[-3, true, null]}]" +:+ String LF "")
  = Some (JArr [JNum 7; JObj [("func", JStr "cancelRequest");
                               ("args", JArr [JNum (-3); JBool true; JNull])]]).
Proof. vm_compute. reflexivity. Qed.

Example parse_truncated : JSON_parse "[7, {" = None.
Proof. reflexivity. Qed.

Example parse_leading_zero : JSON_parse "01" = None.
Proof. reflexivity. Qed.

Example parse_numbers :
  JSON_parse "[1.5, -0.25e1, 1e2, 2E-3, 0.0, -0, 12.50]"
  = Some (JArr [JDec 15 (-1); JDec (-25) (-1); JNum 100; JDec 2 (-3); JNum 0; JNum 0;
                JDec 125 (-1)]).
Proof. vm_compute. reflexivity. Qed.

Example parse_no_numbers :
  map JSON_parse ["1."; ".5"; "1e"; "1e+"; "-"; "+1"; "0x10"; "1.5.2"; "00"; "-01"]
  = [None; None; None; None; None; None; None; None; None; None].
Proof. vm_compute. reflexivity. Qed.

Example stringify_numbers :
  stringify (JArr [JDec 15 (-1); JDec (-5) (-1); JDec 1 (-6); JDec 1 (-7); JDec 15 (-8);
                   JDec (-12345) (-2)])
  = "[1.5,-0.5,0.000001,1e-7,1.5e-7,-123.45]".
Proof. vm_compute. reflexivity. Qed.

Example parse_escapes :
  JSON_parse (String DQUOTE ("\u20ac \u00e9 \uD83D\uDE00 \ud83d \/" +:+ String DQUOTE ""))
  = Some (JStr (euro +:+ " " +:+ String "195" (String "169" "") +:+ " " +:+ grin
                +:+ " " +:+ String "237" (String "160" (String "189" "")) +:+ " /")).
Proof. vm_compute. reflexivity. Qed.

Example stringify_surrogate :
  stringify (JStr (euro +:+ grin +:+ String "237" (String "160" (String "189" ""))))
  = String DQUOTE (euro +:+ grin +:+ "\ud83d" +:+ String DQUOTE "").
Proof. vm_compute. reflexivity. Qed.

Example code_units_of_text :
  code_units ("a" +:+ euro +:+ grin)
  = ["a"; euro; String "237" (String "160" (String "189" ""));
     String "237" (String "184" (String "128" ""))].
Proof. vm_compute. reflexivity. Qed.

Example stringify_control :
  stringify (JStr (String LF (String "001"%char "a")))
  = String DQUOTE (String BACKSLASH "n" +:+ String BACKSLASH "u0001a" +:+ String DQUOTE "").
Proof. reflexivity. Qed.

(** ** Unit tests of the dispatcher *)

Example ping_pong :
  outStream (run example_events (new_StdIO tt)
               [Bind example_agent; Data (line_of (AgentFunctionRequest (JNum 5) "ping" []))])
  = [terminated ("[5," +:+ quote "pong" +:+ "]")].
Proof. vm_compute. reflexivity. Qed.

Example cancel_unknown :
  outStream (run example_events (new_StdIO tt)
               [Bind example_agent; Data (line_of (CancellationRequest (JNum 7) (JNum 3)))])
  = [terminated "[7,false]"].
Proof. vm_compute. reflexivity. Qed.

Example malformed_line :
  outStream (run example_events (new_StdIO tt)
               [Bind example_agent; Data (terminated "[7, {")])
  = [].
Proof. vm_compute. reflexivity. Qed.

Example fraction_id :
  outStream (run example_events (new_StdIO tt)
               [Bind example_agent;
                Data (terminated ("[1.5,{" +:+ quote "func" +:+ ":" +:+ quote "ping"
                                  +:+ "," +:+ quote "args" +:+ ":[]}]"))])
  = [terminated ("[1.5," +:+ quote "pong" +:+ "]")].
Proof. vm_compute. reflexivity. Qed.

Example string_request :
  outStream (run example_events (new_StdIO tt)
               [Bind example_agent; Data (terminated (quote (euro +:+ "uro")))])
  = [terminated ("[" +:+ quote euro +:+ ",null]")].
Proof. vm_compute. reflexivity. Qed.

Example out_of_order :
  outStream (run example_events (new_StdIO tt)
               [Bind example_agent;
                Data (line_of (AgentFunctionRequest (JNum 1) "postEvent" [JNum 1])
                      +:+ line_of (AgentFunctionRequest (JNum 2) "postEvent" [JNum 2]));
                Settle (Plain 2) (Fulfilled (J (JStr "b")));
                Settle (Plain 1) (Fulfilled (J (JStr "a")))])
  = [terminated ("[2," +:+ quote "b" +:+ "]"); terminated ("[1," +:+ quote "a" +:+ "]")].
Proof. vm_compute. reflexivity. Qed.

(** * Properties *)

(** ** Texts *)

Lemma text_app_assoc (a b c : string) : (a +:+ b) +:+ c = a +:+ (b +:+ c).
Proof. induction a as [|x a IH]; simpl; [reflexivity | now rewrite IH]. Qed.

Lemma text_app_nil_r (a : string) : a +:+ "" = a.
Proof. induction a as [|x a IH]; simpl; [reflexivity | now rewrite IH]. Qed.

Lemma text_length_app (a b : string) :
  String.length (a +:+ b) = (String.length a + String.length b)%nat.
Proof. induction a as [|x a IH]; simpl; [reflexivity | now rewrite IH]. Qed.

Lemma concat_text_app (l k : list string) :
  concat_text (l ++ k) = concat_text l +:+ concat_text k.
Proof.
  induction l as [|x l IH]; simpl; [reflexivity|].
  now rewrite IH, text_app_assoc.
Qed.

Lemma occurs_app (c : ascii) (a b : string) :
  occurs c (a +:+ b) = occurs c a || occurs c b.
Proof.
  induction a as [|x a IH]; simpl; [reflexivity|].
  now rewrite IH, orb_assoc.
Qed.

Lemma is_LF_true (c : ascii) : is_LF c = true -> c = LF.
Proof. unfold is_LF. apply Ascii.eqb_eq. Qed.

(** ** The framer *)

Lemma splitLines_fragment (frag : string) :
  occurs LF frag = false ->
  splitLines frag = match frag with EmptyString => [] | _ => [frag] end.
Proof.
  induction frag as [|c frag IH]; cbn [occurs splitLines]; [reflexivity|].
  intros H. apply orb_false_iff in H as [Hc Hfrag].
  unfold is_LF. rewrite Ascii.eqb_sym, Hc.
  rewrite (IH Hfrag). now destruct frag.
Qed.

Lemma splitLines_terminated (l s : string) :
  occurs LF l = false ->
  splitLines (terminated l +:+ s) = terminated l :: splitLines s.
Proof.
  unfold terminated.
  induction l as [|c l IH]; cbn [occurs splitLines String.append]; intros H.
  - reflexivity.
  - apply orb_false_iff in H as [Hc Hl].
    unfold is_LF at 1. rewrite Ascii.eqb_sym, Hc.
    now rewrite (IH Hl).
Qed.

Lemma splitLines_lines (ls : list string) (frag : string) :
  Forall (fun l => occurs LF l = false) ls ->
  occurs LF frag = false ->
  splitLines (concat_text (map terminated ls) +:+ frag)
  = map terminated ls ++ match frag with EmptyString => [] | _ => [frag] end.
Proof.
  intros Hls Hfrag. induction Hls as [|l ls Hl _ IH]; cbn [concat_text map app].
  - now apply splitLines_fragment.
  - rewrite text_app_assoc, splitLines_terminated by exact Hl.
    now rewrite IH.
Qed.

Lemma endsWithLF_terminated (l : string) : endsWithLF (terminated l) = true.
Proof.
  unfold terminated.
  induction l as [|c l IH]; cbn [endsWithLF String.append]; [reflexivity|].
  destruct l; exact IH.
Qed.

Lemma endsWithLF_occurs (s : string) : endsWithLF s = true -> occurs LF s = true.
Proof.
  induction s as [|c s IH]; cbn [endsWithLF occurs]; [discriminate|].
  destruct s as [|d s].
  - intros H. apply is_LF_true in H. subst c. reflexivity.
  - intros H. rewrite (IH H). apply orb_true_r.
Qed.

(** Fed with complete lines followed by a fragment, the framer gives the
    lines to the loop and keeps the fragment. *)
Lemma frame_lines (ls : list string) (frag : string) :
  Forall (fun l => occurs LF l = false) ls ->
  occurs LF frag = false ->
  frame "" (concat_text (map terminated ls) +:+ frag) = (map terminated ls, frag).
Proof.
  intros Hls Hfrag. unfold frame. cbn [String.append].
  rewrite splitLines_lines by assumption.
  destruct frag as [|c frag].
  - rewrite app_nil_r, text_app_nil_r.
    destruct (last (map terminated ls)) as [l|] eqn:Hlast.
    + assert (Hin : l ∈ map terminated ls).
      { apply last_Some in Hlast as [k ->]. set_solver. }
      apply list_elem_of_fmap in Hin as [l0 [-> _]].
      now rewrite endsWithLF_terminated.
    + apply last_None in Hlast. destruct ls; [reflexivity | discriminate].
  - rewrite last_snoc.
    destruct (endsWithLF (String c frag)) eqn:E.
    + apply endsWithLF_occurs in E. congruence.
    + now rewrite removelast_last.
Qed.

Lemma frame_buffer (b c : string) : frame b c = frame "" (b +:+ c).
Proof. reflexivity. Qed.

(** Every text is a sequence of complete lines followed by a fragment. *)
Lemma text_lines (s : string) :
  exists ls frag,
    Forall (fun l => occurs LF l = false) ls /\ occurs LF frag = false /\
    s = concat_text (map terminated ls) +:+ frag.
Proof.
  induction s as [|c s (ls & frag & Hls & Hfrag & ->)].
  - exists [], "". repeat split; constructor.
  - destruct (Ascii.eqb LF c) eqn:E.
    + apply Ascii.eqb_eq in E. subst c.
      exists ("" :: ls), frag. repeat split; [constructor; [reflexivity | exact Hls] | exact Hfrag].
    + destruct ls as [|l ls].
      * exists [], (String c frag). repeat split; [constructor|].
        cbn [occurs]. now rewrite E.
      * exists (String c l :: ls), frag.
        inversion Hls as [|? ? Hl Hls']; subst.
        repeat split; [|exact Hfrag].
        constructor; [cbn [occurs]; now rewrite E, Hl | exact Hls'].
Qed.

Lemma text_lines_unique (ls ls' : list string) (frag frag' : string) :
  Forall (fun l => occurs LF l = false) ls -> occurs LF frag = false ->
  Forall (fun l => occurs LF l = false) ls' -> occurs LF frag' = false ->
  concat_text (map terminated ls) +:+ frag = concat_text (map terminated ls') +:+ frag' ->
  map terminated ls = map terminated ls' /\ frag = frag'.
Proof.
  intros H1 H2 H3 H4 E.
  pose proof (frame_lines ls frag H1 H2) as F.
  rewrite E, (frame_lines ls' frag' H3 H4) in F.
  now inversion F.
Qed.

Lemma feed_lines (chunks : list string) :
  forall (b : string) (ls : list string) (frag : string),
    occurs LF b = false ->
    Forall (fun l => occurs LF l = false) ls -> occurs LF frag = false ->
    b +:+ concat_text chunks = concat_text (map terminated ls) +:+ frag ->
    feed b chunks = (map terminated ls, frag).
Proof.
  induction chunks as [|c cs IH]; intros b ls frag Hb Hls Hfrag E;
    cbn [feed concat_text] in *.
  - rewrite text_app_nil_r in E.
    destruct (text_lines_unique [] ls b frag) as [E1 E2];
      [constructor | assumption .. |].
    now rewrite <- E1, <- E2.
  - destruct (text_lines (b +:+ c)) as (l1 & f1 & Hl1 & Hf1 & E1).
    destruct (text_lines (f1 +:+ concat_text cs)) as (l2 & f2 & Hl2 & Hf2 & E2).
    rewrite frame_buffer, E1, (frame_lines l1 f1 Hl1 Hf1).
    rewrite (IH f1 l2 f2 Hf1 Hl2 Hf2 E2).
    rewrite <- text_app_assoc, E1, text_app_assoc, E2, <- text_app_assoc in E.
    rewrite <- concat_text_app, <- map_app in E.
    destruct (text_lines_unique (l1 ++ l2) ls f2 frag) as [E3 E4];
      [apply Forall_app; now split | assumption .. |].
    now rewrite <- E3, <- E4, map_app.
Qed.

(** ** The loop of [handleInput] does not read the buffer *)

Section Dispatch.

Context {AgentState : Type}.
Implicit Types (s : StdIO AgentState) (request : json) (line : string).

Lemma set_buffer_buffer s : set_buffer (buffer s) s = s.
Proof. now destruct s. Qed.

Lemma set_buffer_twice (b b' : string) s :
  set_buffer b (set_buffer b' s) = set_buffer b s.
Proof. reflexivity. Qed.

Lemma cancelRequest_set_buffer (b : string) request s :
  cancelRequest request (set_buffer b s)
  = match cancelRequest request s with
    | Some (r, s') => Some (r, set_buffer b s')
    | None => None
    end.
Proof.
  unfold cancelRequest. destruct (cancel_target request) as [target|]; [|reflexivity].
  cbn [ongoingRequests set_buffer].
  destruct (ongoingRequests s !! to_key target) as [ongoing|]; [|reflexivity].
  now destruct (isCancelable ongoing).
Qed.

Lemma handleRequest_set_buffer (b : string) request s :
  handleRequest request (set_buffer b s)
  = (fst (handleRequest request s), set_buffer b (snd (handleRequest request s))).
Proof.
  unfold handleRequest. cbn [agent set_buffer].
  destruct (agent s) as [a|]; [|reflexivity].
  destruct (get_index (J request) 0) as [id|]; [|reflexivity].
  destruct (get_index (J request) 1) as [data|]; [|reflexivity].
  destruct (get_field data "func") as [funcName|]; [|reflexivity].
  destruct (strict_equal funcName "cancelRequest").
  - rewrite cancelRequest_set_buffer.
    destruct (cancelRequest request s) as [[r s']|]; reflexivity.
  - destruct (agent_member a (to_key funcName)) as [func|]; [|reflexivity].
    change (provider (set_buffer b s)) with (provider s).
    destruct (func _ (provider s)) as [o st].
    destruct o as [|[[|[]]|h]]; reflexivity.
Qed.

Lemma handle_line_set_buffer (b : string) s line :
  handle_line (set_buffer b s) line = set_buffer b (handle_line s line).
Proof.
  unfold handle_line. destruct (JSON_parse line) as [request|]; [|reflexivity].
  unfold dispatch.
  change (log ?e (set_buffer b s)) with (set_buffer b (log e s)).
  rewrite handleRequest_set_buffer.
  destruct (handleRequest request _) as [[response|a] s1]; reflexivity.
Qed.

Lemma handle_lines_set_buffer (b : string) (lines : list string) s :
  fold_left handle_line lines (set_buffer b s)
  = set_buffer b (fold_left handle_line lines s).
Proof.
  revert s. induction lines as [|l lines IH]; intros s; cbn [fold_left]; [reflexivity|].
  now rewrite handle_line_set_buffer, IH.
Qed.

Lemma handleInput_lines (chunk : string) s :
  handleInput chunk s
  = set_buffer (snd (frame (buffer s) chunk))
      (fold_left handle_line (fst (frame (buffer s) chunk)) s).
Proof.
  unfold handleInput. destruct (frame (buffer s) chunk) as [lines rest].
  apply handle_lines_set_buffer.
Qed.

(** Chunk after chunk, [handleInput] runs its loop over the lines that
    [feed] gives, and keeps the buffer that [feed] keeps. *)
Lemma handleInput_feed (chunks : list string) s :
  fold_left (fun s chunk => handleInput chunk s) chunks s
  = set_buffer (snd (feed (buffer s) chunks))
      (fold_left handle_line (fst (feed (buffer s) chunks)) s).
Proof.
  revert s. induction chunks as [|c cs IH]; intros s; cbn [fold_left feed].
  - symmetry. apply set_buffer_buffer.
  - rewrite IH, handleInput_lines.
    destruct (frame (buffer s) c) as [ls b]. cbn [fst snd buffer set_buffer].
    destruct (feed b cs) as [ls' b']. cbn [fst snd].
    now rewrite fold_left_app, handle_lines_set_buffer.
Qed.

End Dispatch.

(** C4. Whatever the chunk boundaries, a text made of N newline-terminated
    lines followed by a fragment without newline gives the framer the same
    N lines as the whole text in one chunk; the loop of [handleInput] runs
    over exactly these lines, in order, and the fragment stays in the buffer
    and produces no line. *)
Theorem framer_chunking {AgentState : Type}
    (ls : list string) (frag : string) (chunks : list string) (s : StdIO AgentState) :
  Forall (fun l => occurs LF l = false) ls ->
  occurs LF frag = false ->
  concat_text chunks = concat_text (map terminated ls) +:+ frag ->
  buffer s = "" ->
  feed "" chunks = (map terminated ls, frag)
  /\ feed "" chunks = feed "" [concat_text chunks]
  /\ length (fst (feed "" chunks)) = length ls
  /\ fold_left (fun s chunk => handleInput chunk s) chunks s
     = set_buffer frag (fold_left handle_line (map terminated ls) s)
  /\ buffer (fold_left (fun s chunk => handleInput chunk s) chunks s) = frag.
Proof.
  intros Hls Hfrag E Hb.
  assert (F : feed "" chunks = (map terminated ls, frag))
    by (apply feed_lines; [reflexivity | assumption ..]).
  assert (G : fold_left (fun s chunk => handleInput chunk s) chunks s
              = set_buffer frag (fold_left handle_line (map terminated ls) s))
    by (now rewrite handleInput_feed, Hb, F).
  split; [exact F|]. split; [|split; [|split; [exact G|]]].
  - rewrite F. symmetry. apply feed_lines; [reflexivity | assumption ..|].
    cbn [concat_text String.append]. now rewrite text_app_nil_r.
  - rewrite F. cbn [fst]. apply length_map.
  - now rewrite G.
Qed.

(** ** The codec *)

Ltac each_ascii c :=
  destruct c as [[|] [|] [|] [|] [|] [|] [|] [|]].

Lemma printable_app (a b : string) :
  printable (a +:+ b) = printable a && printable b.
Proof.
  induction a as [|c a IH]; cbn [printable String.append]; [reflexivity|].
  now rewrite IH, andb_assoc.
Qed.

Lemma parse_chars_quote_char (c : ascii) (r : string) :
  parse_chars (quote_char c +:+ r) = push_char c (parse_chars r).
Proof. each_ascii c; reflexivity. Qed.

Lemma parse_chars_raw (x : ascii) (t : string) :
  (128 <=? N_of_ascii x)%N = true ->
  parse_chars (String x t) = push_char x (parse_chars t).
Proof. each_ascii x; intros H; try discriminate H; reflexivity. Qed.

Lemma low_escape_head (x : ascii) (t : string) :
  Ascii.eqb x BACKSLASH = false -> low_escape (String x t) = false.
Proof.
  intros H. destruct t as [|u0 [|l1 [|l2 [|l3 [|l4 r]]]]]; try reflexivity.
  cbn [low_escape]. now rewrite H.
Qed.

Lemma low_escape_second (e : ascii) (t : string) :
  Ascii.eqb e "u" = false -> low_escape (String BACKSLASH (String e t)) = false.
Proof.
  intros H. destruct t as [|l1 [|l2 [|l3 [|l4 r]]]]; try reflexivity.
  cbn [low_escape]. now rewrite H, andb_false_r.
Qed.

Lemma low_escape_quote_char (x : ascii) (t : string) :
  low_escape (quote_char x +:+ t) = false.
Proof.
  each_ascii x;
    first [ apply low_escape_head; reflexivity
          | apply low_escape_second; reflexivity
          | reflexivity ].
Qed.

(** A [\u] escape that is not the first half of a pair of escapes stands
    for its code unit. *)
Lemma parse_chars_unicode (h1 h2 h3 h4 : ascii) (code : N) (t : string) :
  hex4 h1 h2 h3 h4 = Some code ->
  (is_high code = true -> low_escape t = false) ->
  parse_chars
    (String BACKSLASH (String "u" (String h1 (String h2 (String h3 (String h4 t))))))
  = push_text (utf8 code) (parse_chars t).
Proof.
  intros H Hlow.
  change (parse_chars
            (String BACKSLASH (String "u" (String h1 (String h2 (String h3 (String h4 t)))))))
    with (match hex4 h1 h2 h3 h4 with
          | Some code =>
              let alone := push_text (utf8 code) (parse_chars t) in
              if is_high code then
                match t with
                | String b0 (String u0
                    (String l1 (String l2 (String l3 (String l4 r3))))) =>
                    if Ascii.eqb b0 BACKSLASH && Ascii.eqb u0 "u" then
                      match hex4 l1 l2 l3 l4 with
                      | Some low =>
                          if is_low low then
                            push_text
                              (utf8 (65536 + (code - 55296) * 1024 + (low - 56320)))
                              (parse_chars r3)
                          else alone
                      | None => alone
                      end
                    else alone
                | _ => alone
                end
              else alone
          | None => None
          end).
  rewrite H. cbv zeta.
  destruct (is_high code); [|reflexivity]. specialize (Hlow eq_refl).
  destruct t as [|b0 [|u0 [|l1 [|l2 [|l3 [|l4 r3]]]]]]; try reflexivity.
  cbn [low_escape] in Hlow.
  destruct (Ascii.eqb b0 BACKSLASH && Ascii.eqb u0 "u"); [|reflexivity].
  destruct (hex4 l1 l2 l3 l4) as [low|]; [|reflexivity].
  now rewrite Hlow.
Qed.

Lemma hex_value_digit (n : N) :
  (n < 16)%N -> hex_value (hex_digit (N.to_nat n)) = Some n.
Proof.
  intros H.
  assert (E : In n [0; 1; 2; 3; 4; 5; 6; 7; 8; 9; 10; 11; 12; 13; 14; 15]%N).
  { cbn [In]. lia. }
  cbn [In] in E. repeat destruct E as [<-|E]; try reflexivity. contradiction.
Qed.

(** The escape of a surrogate: its four hexadecimal digits give the code
    unit back, and the bytes of the code unit are those it was read from. *)
Lemma escape_u_surrogate (a b c : ascii) (code : N) :
  surrogate a b c = Some code ->
  exists h1 h2 h3 h4,
    escape_u code
    = String BACKSLASH (String "u" (String h1 (String h2 (String h3 (String h4 "")))))
    /\ hex4 h1 h2 h3 h4 = Some code
    /\ utf8 code = String a (String b (String c "")).
Proof.
  unfold surrogate. intros H.
  destruct (N.eqb_spec (N_of_ascii a) 237) as [Ea|]; [|discriminate].
  destruct (N.leb_spec 160 (N_of_ascii b)) as [Hb1|]; [|discriminate].
  destruct (N.leb_spec (N_of_ascii b) 191) as [Hb2|]; [|discriminate].
  destruct (N.leb_spec 128 (N_of_ascii c)) as [Hc1|]; [|discriminate].
  destruct (N.leb_spec (N_of_ascii c) 191) as [Hc2|]; [|discriminate].
  cbn [andb] in H. injection H as <-.
  set (x := N_of_ascii b) in *. set (y := N_of_ascii c) in *.
  set (code := (53248 + (x - 128) * 64 + (y - 128))%N).
  assert (R : (55296 <= code < 57344)%N) by (unfold code; lia).
  eexists _, _, _, _. split; [reflexivity|]. split.
  - assert (D2 : (code / 256 = code / 16 / 16)%N)
      by (now rewrite N.Div0.div_div).
    assert (D3 : (code / 4096 = code / 16 / 16 / 16)%N)
      by (now rewrite !N.Div0.div_div).
    pose proof (N.div_mod' code 16) as M1.
    pose proof (N.div_mod' (code / 16) 16) as M2.
    pose proof (N.div_mod' (code / 16 / 16) 16) as M3.
    pose proof (N.mod_lt code 16 ltac:(lia)) as L1.
    pose proof (N.mod_lt (code / 16) 16 ltac:(lia)) as L2.
    pose proof (N.mod_lt (code / 16 / 16) 16 ltac:(lia)) as L3.
    unfold hex4. rewrite D2, D3.
    clearbody code. clear x y Hb1 Hb2 Hc1 Hc2.
    assert (L4 : (code / 16 / 16 / 16 < 16)%N)
      by (zify; Z.div_mod_to_equations; lia).
    rewrite (hex_value_digit _ L4), (hex_value_digit _ L3), (hex_value_digit _ L2),
      (hex_value_digit _ L1).
    f_equal. zify; Z.div_mod_to_equations; lia.
  - unfold utf8.
    destruct (N.ltb_spec code 128); [lia|].
    destruct (N.ltb_spec code 2048); [lia|].
    destruct (N.ltb_spec code 65536); [|lia].
    rewrite <- (ascii_N_embedding a), <- (ascii_N_embedding b), <- (ascii_N_embedding c).
    fold x y. rewrite Ea.
    assert (Q1 : (code / 4096 = 13)%N)
      by (symmetry; apply (N.div_unique code 4096 13 ((x - 128) * 64 + (y - 128)));
          unfold code; lia).
    assert (Q2 : (code / 64 = 832 + (x - 128))%N)
      by (symmetry; apply (N.div_unique code 64 (832 + (x - 128)) (y - 128));
          unfold code; lia).
    assert (Q3 : ((832 + (x - 128)) mod 64 = x - 128)%N)
      by (symmetry; apply (N.mod_unique (832 + (x - 128)) 64 13 (x - 128)); lia).
    assert (Q4 : (code mod 64 = y - 128)%N)
      by (symmetry; apply (N.mod_unique code 64 (832 + (x - 128)) (y - 128));
          unfold code; lia).
    rewrite Q1, Q2, Q3, Q4. repeat f_equal; lia.
Qed.

Lemma surrogate_bytes (a b c : ascii) (code : N) :
  surrogate a b c = Some code ->
  Ascii.eqb a BACKSLASH = false
  /\ (128 <=? N_of_ascii a)%N = true
  /\ (128 <=? N_of_ascii b)%N = true
  /\ (128 <=? N_of_ascii c)%N = true.
Proof.
  unfold surrogate. intros H.
  destruct (N.eqb_spec (N_of_ascii a) 237) as [Ea|]; [|discriminate].
  destruct (N.leb_spec 160 (N_of_ascii b)) as [Hb1|]; [|discriminate].
  destruct (N.leb_spec (N_of_ascii b) 191) as [Hb2|]; [|discriminate].
  destruct (N.leb_spec 128 (N_of_ascii c)) as [Hc1|]; [|discriminate].
  split; [|split; [|split]].
  - destruct (Ascii.eqb_spec a BACKSLASH) as [->|]; [discriminate Ea | reflexivity].
  - rewrite Ea. reflexivity.
  - apply N.leb_le. lia.
  - reflexivity.
Qed.

Lemma quote_chars_cons (a : ascii) (s1 : string) :
  quote_chars (String a s1)
  = match s1 with
    | String b (String c s3) =>
        match surrogate a b c with
        | Some code =>
            escape_u code
            +:+ (if is_high code && low_head s3 then
                   match s3 with
                   | String a' (String b' (String c' s6)) =>
                       String a' (String b' (String c' (quote_chars s6)))
                   | _ => quote_chars s3
                   end
                 else quote_chars s3)
        | None => quote_char a +:+ quote_chars s1
        end
    | _ => quote_char a +:+ quote_chars s1
    end.
Proof. destruct s1 as [|b [|c s3]]; reflexivity. Qed.

Lemma low_escape_escape_u (a b c : ascii) (code : N) (t : string) :
  surrogate a b c = Some code -> low_escape (escape_u code +:+ t) = is_low code.
Proof.
  intros H. destruct (escape_u_surrogate a b c code H) as (h1 & h2 & h3 & h4 & -> & E & _).
  cbn [String.append low_escape].
  change (Ascii.eqb BACKSLASH BACKSLASH && Ascii.eqb "u" "u") with true. cbv iota.
  now rewrite E.
Qed.

(** What [quote_chars] writes does not start with the escape of a low
    surrogate, unless the text starts with a low surrogate. *)
Lemma low_escape_quote (s rest : string) :
  low_head s = false -> low_escape (quote_chars s +:+ String DQUOTE rest) = false.
Proof.
  intros H. destruct s as [|a s1]; [now apply low_escape_head|].
  rewrite quote_chars_cons.
  assert (Plain : low_escape ((quote_char a +:+ quote_chars s1) +:+ String DQUOTE rest)
                  = false)
    by (rewrite text_app_assoc; apply low_escape_quote_char).
  destruct s1 as [|b [|c s3]]; [exact Plain | exact Plain |].
  cbn [low_head] in H.
  destruct (surrogate a b c) as [code|] eqn:E; [|exact Plain].
  now rewrite text_app_assoc, (low_escape_escape_u a b c code _ E).
Qed.

Lemma parse_chars_quote_bounded (n : nat) :
  forall s rest : string,
    (String.length s <= n)%nat ->
    parse_chars (quote_chars s +:+ String DQUOTE rest) = Some (s, rest).
Proof.
  induction n as [|n IH]; intros s rest Hn;
    (destruct s as [|a s1]; [reflexivity|]); cbn [String.length] in Hn; [lia|].
  assert (Plain : parse_chars ((quote_char a +:+ quote_chars s1) +:+ String DQUOTE rest)
                  = Some (String a s1, rest)).
  { rewrite text_app_assoc, parse_chars_quote_char, IH by lia. reflexivity. }
  rewrite quote_chars_cons.
  destruct s1 as [|b [|c s3]]; [exact Plain | exact Plain |].
  cbn [String.length] in Hn.
  destruct (surrogate a b c) as [code|] eqn:E; [|exact Plain].
  destruct (escape_u_surrogate a b c code E) as (h1 & h2 & h3 & h4 & -> & Eh & Eu).
  rewrite text_app_assoc. cbn [String.append].
  destruct (is_high code && low_head s3) eqn:P.
  - apply andb_true_iff in P as [_ P].
    destruct s3 as [|a' [|b' [|c' s6]]]; try discriminate P.
    cbn [low_head] in P. destruct (surrogate a' b' c') as [low|] eqn:E'; [|discriminate].
    destruct (surrogate_bytes a' b' c' low E') as (Hbs & Ha' & Hb' & Hc').
    cbn [String.append String.length] in *.
    rewrite (parse_chars_unicode h1 h2 h3 h4 code _ Eh)
      by (intros _; now apply low_escape_head).
    rewrite (parse_chars_raw a' _ Ha'), (parse_chars_raw b' _ Hb'),
      (parse_chars_raw c' _ Hc'), IH by lia.
    rewrite Eu. reflexivity.
  - rewrite (parse_chars_unicode h1 h2 h3 h4 code _ Eh).
    + rewrite IH by lia. rewrite Eu. reflexivity.
    + intros Hh. rewrite Hh in P. cbn [andb] in P. now apply low_escape_quote.
Qed.

Lemma parse_chars_quote (s rest : string) :
  parse_chars (quote_chars s +:+ String DQUOTE rest) = Some (s, rest).
Proof. exact (parse_chars_quote_bounded _ s rest (Nat.le_refl _)). Qed.

Lemma quote_app (s rest : string) :
  quote s +:+ rest = String DQUOTE (quote_chars s +:+ String DQUOTE rest).
Proof. unfold quote. cbn [String.append]. now rewrite text_app_assoc. Qed.

Lemma printable_quote_char (c : ascii) : printable (quote_char c) = true.
Proof. each_ascii c; reflexivity. Qed.

Lemma printable_hex_digit (n : nat) (t : string) :
  printable (String (hex_digit n) t) = printable t.
Proof. do 17 (destruct n as [|n]; [reflexivity|]). reflexivity. Qed.

Lemma printable_escape_u (code : N) : printable (escape_u code) = true.
Proof.
  unfold escape_u.
  change (printable (String BACKSLASH (String "u" ?x))) with (printable x).
  now rewrite !printable_hex_digit.
Qed.

Lemma printable_raw (x : ascii) (t : string) :
  (128 <=? N_of_ascii x)%N = true -> printable (String x t) = printable t.
Proof. each_ascii x; intros H; try discriminate H; reflexivity. Qed.

Lemma printable_quote_chars_bounded (n : nat) :
  forall s : string, (String.length s <= n)%nat -> printable (quote_chars s) = true.
Proof.
  induction n as [|n IH]; intros s Hn;
    (destruct s as [|a s1]; [reflexivity|]); cbn [String.length] in Hn; [lia|].
  assert (Plain : printable (quote_char a +:+ quote_chars s1) = true)
    by (rewrite printable_app, printable_quote_char, IH by lia; reflexivity).
  rewrite quote_chars_cons.
  destruct s1 as [|b [|c s3]]; [exact Plain | exact Plain |].
  cbn [String.length] in Hn.
  destruct (surrogate a b c) as [code|]; [|exact Plain].
  rewrite printable_app, printable_escape_u. cbn [andb].
  destruct (is_high code && low_head s3) eqn:P; [|apply IH; lia].
  apply andb_true_iff in P as [_ P].
  destruct s3 as [|a' [|b' [|c' s6]]]; try discriminate P.
  cbn [low_head] in P. destruct (surrogate a' b' c') as [low|] eqn:E'; [|discriminate].
  destruct (surrogate_bytes a' b' c' low E') as (_ & Ha' & Hb' & Hc').
  rewrite (printable_raw a' _ Ha'), (printable_raw b' _ Hb'), (printable_raw c' _ Hc').
  apply IH. cbn [String.length] in Hn. lia.
Qed.

Lemma printable_quote (s : string) : printable (quote s) = true.
Proof.
  unfold quote. cbn [printable]. rewrite printable_app.
  now rewrite (printable_quote_chars_bounded _ s (Nat.le_refl _)).
Qed.

Lemma delimiter_not_number (c : ascii) :
  delimiter c = true ->
  digit_of c = None /\ Ascii.eqb c "." || Ascii.eqb c "e" || Ascii.eqb c "E" = false.
Proof. each_ascii c; intros H; try discriminate H; split; reflexivity. Qed.

Lemma delimits_digits (rest : string) :
  delimits rest = true -> parse_digits rest = (Decimal.Nil, rest).
Proof.
  destruct rest as [|c rest]; [reflexivity|]. cbn [delimits parse_digits].
  intros H. now rewrite (proj1 (delimiter_not_number c H)).
Qed.

Lemma parse_digits_uint (u : Decimal.uint) (rest : string) :
  delimits rest = true ->
  parse_digits (NilEmpty.string_of_uint u +:+ rest) = (u, rest).
Proof.
  intros H. induction u as [|u IH|u IH|u IH|u IH|u IH|u IH|u IH|u IH|u IH|u IH];
    cbn [NilEmpty.string_of_uint String.append];
    [now apply delimits_digits | ..];
    (change (parse_digits (String ?c ?r))
       with (match digit_of c with
             | Some d => let '(u, r') := parse_digits r in (d u, r')
             | None => (Decimal.Nil, String c r)
             end);
     cbv [digit_of Ascii.eqb Bool.eqb]; now rewrite IH).
Qed.

Lemma to_uint_no_leading_zero (p : positive) (u : Decimal.uint) :
  Pos.to_uint p <> Decimal.D0 u.
Proof.
  intros E.
  pose proof (DecimalPos.Unsigned.to_of (Pos.to_uint p)) as H.
  rewrite DecimalPos.Unsigned.of_to in H. cbn [N.to_uint] in H.
  rewrite E, unorm_D0 in H.
  destruct (Decimal.uint_eq_dec (Decimal.nzhead u) Decimal.Nil) as [Hn|Hn].
  - unfold Decimal.unorm in H. rewrite Hn in H.
    apply (DecimalPos.Unsigned.to_uint_nonzero p). now rewrite E, H.
  - rewrite (unorm_nzhead u Hn) in H. symmetry in H.
    exact (nzhead_nonzero _ _ H).
Qed.

Lemma string_of_uint_nonnil (u : Decimal.uint) :
  u <> Decimal.Nil -> NilZero.string_of_uint u = NilEmpty.string_of_uint u.
Proof. destruct u; [congruence | reflexivity ..]. Qed.

(** *** Digit texts *)

Lemma digit_of_cases (c : ascii) (d : Decimal.uint -> Decimal.uint) :
  digit_of c = Some d ->
  (Ascii.eqb c "0" = true /\ d = Decimal.D0)
  \/ (Ascii.eqb c "0" = false
      /\ (d = Decimal.D1 \/ d = Decimal.D2 \/ d = Decimal.D3 \/ d = Decimal.D4
          \/ d = Decimal.D5 \/ d = Decimal.D6 \/ d = Decimal.D7 \/ d = Decimal.D8
          \/ d = Decimal.D9)).
Proof.
  unfold digit_of. destruct (Ascii.eqb c "0"); [intros [= <-]; now left|].
  intros H. right. split; [reflexivity|].
  repeat match type of H with
         | (if ?b then _ else _) = _ => destruct b; [injection H as <-; tauto|]
         end.
  discriminate.
Qed.

Lemma digit_of_app (c : ascii) (d : Decimal.uint -> Decimal.uint) (u v : Decimal.uint) :
  digit_of c = Some d -> uint_app (d u) v = d (uint_app u v).
Proof.
  intros H. apply digit_of_cases in H as [[_ ->]|[_ H]]; [reflexivity|].
  repeat destruct H as [->|H]; try subst d; reflexivity.
Qed.

Lemma digit_of_nonempty (c : ascii) (d : Decimal.uint -> Decimal.uint) (u : Decimal.uint) :
  digit_of c = Some d -> nonempty (d u) = true.
Proof.
  intros H. apply digit_of_cases in H as [[_ ->]|[_ H]]; [reflexivity|].
  repeat destruct H as [->|H]; try subst d; reflexivity.
Qed.

Lemma digit_of_nb_digits (c : ascii) (d : Decimal.uint -> Decimal.uint) (u : Decimal.uint) :
  digit_of c = Some d -> Decimal.nb_digits (d u) = S (Decimal.nb_digits u).
Proof.
  intros H. apply digit_of_cases in H as [[_ ->]|[_ H]]; [reflexivity|].
  repeat destruct H as [->|H]; try subst d; reflexivity.
Qed.

Lemma digit_of_leading (c : ascii) (d : Decimal.uint -> Decimal.uint) (u : Decimal.uint) :
  digit_of c = Some d -> Ascii.eqb c "0" = false -> leading_zero (d u) = false.
Proof.
  intros H Hc. apply digit_of_cases in H as [[H _]|[_ H]]; [congruence|].
  repeat destruct H as [->|H]; try subst d; reflexivity.
Qed.

Lemma uint_app_nil_r (u : Decimal.uint) : uint_app u Decimal.Nil = u.
Proof. induction u; cbn [uint_app]; congruence. Qed.

(** The digits at the head of a text are read whatever follows them. *)
Lemma parse_digits_app (a b : string) :
  all_digits a = true ->
  parse_digits (a +:+ b)
  = (uint_app (fst (parse_digits a)) (fst (parse_digits b)), snd (parse_digits b)).
Proof.
  induction a as [|c a IH]; cbn [all_digits String.append]; intros H.
  - cbn [parse_digits fst uint_app]. now destruct (parse_digits b).
  - cbn [parse_digits]. destruct (digit_of c) as [d|] eqn:E; [|discriminate].
    rewrite (IH H). destruct (parse_digits a) as [u r]. cbn [fst snd].
    now rewrite (digit_of_app c d _ _ E).
Qed.

Lemma parse_digits_text (a : string) :
  all_digits a = true -> snd (parse_digits a) = "".
Proof.
  induction a as [|c a IH]; cbn [all_digits parse_digits]; intros H; [reflexivity|].
  destruct (digit_of c); [|discriminate].
  specialize (IH H). now destruct (parse_digits a).
Qed.

Lemma nb_digits_text (a : string) :
  all_digits a = true -> Decimal.nb_digits (fst (parse_digits a)) = String.length a.
Proof.
  induction a as [|c a IH]; cbn [all_digits parse_digits String.length]; intros H;
    [reflexivity|].
  destruct (digit_of c) as [d|] eqn:E; [|discriminate].
  specialize (IH H). destruct (parse_digits a) as [u r]. cbn [fst] in *.
  now rewrite (digit_of_nb_digits c d u E), IH.
Qed.

Lemma nonempty_text (c : ascii) (a : string) :
  all_digits (String c a) = true -> nonempty (fst (parse_digits (String c a))) = true.
Proof.
  cbn [all_digits parse_digits]. destruct (digit_of c) as [d|] eqn:E; [|discriminate].
  intros _. destruct (parse_digits a) as [u r]. exact (digit_of_nonempty c d u E).
Qed.

Lemma all_digits_app (a b : string) :
  all_digits (a +:+ b) = all_digits a && all_digits b.
Proof.
  induction a as [|c a IH]; cbn [all_digits String.append]; [reflexivity|].
  now destruct (digit_of c).
Qed.

Lemma text_take_drop (n : nat) (s : string) : text_take n s +:+ text_drop n s = s.
Proof.
  revert s. induction n as [|n IH]; intros [|c s]; cbn [text_take text_drop String.append];
    try reflexivity.
  now rewrite IH.
Qed.

Lemma text_take_length (n : nat) (s : string) :
  (n <= String.length s)%nat -> String.length (text_take n s) = n.
Proof.
  revert s. induction n as [|n IH]; intros [|c s]; cbn [text_take String.length];
    intros H; try reflexivity; try lia.
  rewrite IH; lia.
Qed.

Lemma all_digits_string_of_uint (u : Decimal.uint) :
  all_digits (NilEmpty.string_of_uint u) = true.
Proof. induction u; cbn [NilEmpty.string_of_uint all_digits]; try exact IHu; reflexivity. Qed.

Lemma parse_digits_string_of_uint (u : Decimal.uint) :
  parse_digits (NilEmpty.string_of_uint u) = (u, "").
Proof.
  rewrite <- (text_app_nil_r (NilEmpty.string_of_uint u)).
  now apply parse_digits_uint.
Qed.

Lemma all_digits_zeros (n : nat) : all_digits (zeros n) = true.
Proof. induction n as [|n IH]; [reflexivity | exact IH]. Qed.

Lemma zeros_length (n : nat) : String.length (zeros n) = n.
Proof. induction n as [|n IH]; cbn [zeros String.length]; congruence. Qed.

Lemma of_uint_zeros (n : nat) (u : Decimal.uint) :
  Z.of_uint (uint_app (fst (parse_digits (zeros n))) u) = Z.of_uint u.
Proof.
  induction n as [|n IH]; [reflexivity|].
  cbn [zeros]. change (parse_digits (String "0" ?r))
    with (let '(u, r') := parse_digits r in (Decimal.D0 u, r')).
  destruct (parse_digits (zeros n)) as [v r]. cbn [fst uint_app] in *.
  exact IH.
Qed.

Lemma parse_integer_text (c : ascii) (a b : string) :
  all_digits (String c a) = true -> Ascii.eqb c "0" = false ->
  parse_digits b = (Decimal.Nil, b) ->
  parse_integer (String c a +:+ b) = Some (fst (parse_digits (String c a)), b).
Proof.
  intros Ha Hc Hb. unfold parse_integer.
  rewrite (parse_digits_app _ b Ha), Hb. cbn [fst snd]. rewrite uint_app_nil_r.
  rewrite (nonempty_text c a Ha).
  cbn [all_digits parse_digits] in *. destruct (digit_of c) as [d|] eqn:E; [|discriminate].
  destruct (parse_digits a) as [u r]. cbn [fst].
  now rewrite (digit_of_leading c d u E Hc).
Qed.

Lemma parse_fraction_text (c : ascii) (a b : string) :
  all_digits (String c a) = true ->
  parse_digits b = (Decimal.Nil, b) ->
  parse_fraction (String "." (String c a +:+ b))
  = Some (fst (parse_digits (String c a)), b).
Proof.
  intros Ha Hb. unfold parse_fraction. change (Ascii.eqb "." ".") with true. cbv iota.
  rewrite (parse_digits_app _ b Ha), Hb. cbn [fst snd]. rewrite uint_app_nil_r.
  now rewrite (nonempty_text c a Ha).
Qed.

Lemma parse_fraction_delimits (b : string) :
  delimits b = true -> parse_fraction b = Some (Decimal.Nil, b).
Proof.
  destruct b as [|c b]; [reflexivity|]. cbn [delimits parse_fraction]. intros H.
  destruct (delimiter_not_number c H) as [_ E].
  apply orb_false_iff in E as [E _]. apply orb_false_iff in E as [E _]. now rewrite E.
Qed.

Lemma parse_exponent_delimits (b : string) :
  delimits b = true -> parse_exponent b = Some (0, b).
Proof.
  destruct b as [|c b]; [reflexivity|]. cbn [delimits parse_exponent]. intros H.
  destruct (delimiter_not_number c H) as [_ E].
  apply orb_false_iff in E as [E E3]. apply orb_false_iff in E as [_ E2].
  now rewrite E2, E3.
Qed.

Lemma digits_pos (p : positive) :
  digits (Z.pos p) = NilEmpty.string_of_uint (Pos.to_uint p)
  /\ digits (Z.neg p) = NilEmpty.string_of_uint (Pos.to_uint p).
Proof.
  unfold digits. cbn [Z.abs_N N.to_uint].
  now rewrite string_of_uint_nonnil by apply DecimalPos.Unsigned.to_uint_nonnil.
Qed.

Lemma of_uint_to_uint (p : positive) : Z.of_uint (Pos.to_uint p) = Z.pos p.
Proof. unfold Z.of_uint. now rewrite DecimalPos.Unsigned.of_to. Qed.

Lemma nonempty_to_uint (p : positive) : nonempty (Pos.to_uint p) = true.
Proof.
  pose proof (DecimalPos.Unsigned.to_uint_nonnil p) as H.
  destruct (Pos.to_uint p); [congruence | reflexivity ..].
Qed.

(** The exponent part that [point_notation] writes is read back. *)
Lemma parse_exponent_text (x : Z) (rest : string) :
  x <> 0 -> delimits rest = true ->
  parse_exponent (String "e" ((if x <? 0 then "-" else "+") +:+ digits x +:+ rest))
  = Some (x, rest).
Proof.
  intros Hx Hrest. destruct x as [|p|p]; [congruence | |].
  - rewrite (proj1 (digits_pos p)). cbn [Z.ltb Z.compare String.append parse_exponent].
    change (Ascii.eqb "e" "e" || Ascii.eqb "e" "E") with true. cbv iota.
    change (Ascii.eqb "+" "-") with false. change (Ascii.eqb "+" "+") with true. cbv iota.
    rewrite (parse_digits_uint _ _ Hrest), nonempty_to_uint.
    now rewrite of_uint_to_uint.
  - rewrite (proj2 (digits_pos p)). cbn [Z.ltb Z.compare String.append parse_exponent].
    change (Ascii.eqb "e" "e" || Ascii.eqb "e" "E") with true. cbv iota.
    change (Ascii.eqb "-" "-") with true. cbv iota.
    rewrite (parse_digits_uint _ _ Hrest), nonempty_to_uint.
    now rewrite of_uint_to_uint.
Qed.

Lemma all_digits_take (n : nat) (s : string) :
  all_digits s = true -> all_digits (text_take n s) = true.
Proof.
  revert s. induction n as [|n IH]; intros [|c s]; cbn [text_take all_digits];
    try reflexivity.
  destruct (digit_of c); [apply IH | discriminate].
Qed.

Lemma all_digits_drop (n : nat) (s : string) :
  all_digits s = true -> all_digits (text_drop n s) = true.
Proof.
  revert s. induction n as [|n IH]; intros [|c s]; cbn [text_drop all_digits];
    try reflexivity; try (intros H; exact H).
  destruct (digit_of c); [apply IH | discriminate].
Qed.

Lemma text_drop_length (n : nat) (s : string) :
  String.length (text_drop n s) = (String.length s - n)%nat.
Proof.
  revert s. induction n as [|n IH]; intros [|c s]; cbn [text_drop String.length];
    try reflexivity; try lia.
  apply IH.
Qed.

Lemma parse_digits_split (a b : string) :
  all_digits a = true -> all_digits b = true ->
  uint_app (fst (parse_digits a)) (fst (parse_digits b)) = fst (parse_digits (a +:+ b)).
Proof. intros Ha _. now rewrite (parse_digits_app a b Ha). Qed.

(** A number written by [point_notation] is read back: the digits as one
    integer, and the power of ten. *)
Lemma parse_unsigned_point (c0 : ascii) (r0 rest : string) (e : Z) :
  all_digits (String c0 r0) = true -> Ascii.eqb c0 "0" = false ->
  e < 0 -> delimits rest = true ->
  parse_unsigned
    (point_notation (String c0 r0) (Z.of_nat (String.length (String c0 r0)) + e) +:+ rest)
  = Some (Z.of_uint (fst (parse_digits (String c0 r0))), e, rest).
Proof.
  intros Hds Hc0 He Hrest.
  set (ds := String c0 r0) in *.
  set (k := Z.of_nat (String.length ds)).
  assert (Hk : 1 <= k) by (unfold k, ds; cbn [String.length]; lia).
  pose proof (delimits_digits rest Hrest) as Drest.
  unfold point_notation. fold k.
  destruct ((0 <? k + e) && (k + e <=? 21)) eqn:A.
  - (* the point among the digits *)
    apply andb_true_iff in A as [A1 A2]. apply Z.ltb_lt in A1.
    set (j := Z.to_nat (k + e)).
    assert (Hj : (1 <= j < String.length ds)%nat) by (unfold j, k in *; lia).
    destruct (text_take j ds) as [|c1 t1] eqn:Et.
    { pose proof (text_take_length j ds ltac:(lia)) as L. rewrite Et in L.
      cbn [String.length] in L. lia. }
    assert (Ec : c1 = c0).
    { unfold ds in Et. destruct j as [|j']; [lia|]. cbn [text_take] in Et. congruence. }
    subst c1.
    destruct (text_drop j ds) as [|c2 t2] eqn:Ed.
    { pose proof (text_drop_length j ds) as L. rewrite Ed in L.
      cbn [String.length] in L. lia. }
    pose proof (all_digits_take j ds Hds) as Ht. rewrite Et in Ht.
    pose proof (all_digits_drop j ds Hds) as Hd. rewrite Ed in Hd.
    unfold parse_unsigned.
    rewrite !text_app_assoc.
    rewrite (parse_integer_text c0 t1 _ Ht Hc0) by reflexivity.
    change ("." +:+ ?x) with (String "." x).
    rewrite (parse_fraction_text c2 t2 rest Hd Drest).
    rewrite (parse_exponent_delimits rest Hrest).
    rewrite (parse_digits_split _ _ Ht Hd), <- Et, <- Ed, text_take_drop.
    rewrite (nb_digits_text _ (all_digits_drop j ds Hds)), text_drop_length.
    do 2 f_equal. f_equal. unfold j, k in *. lia.
  - destruct ((-6 <? k + e) && (k + e <=? 0)) eqn:B.
    + (* zeros between the point and the digits *)
      apply andb_true_iff in B as [_ B2]. apply Z.leb_le in B2.
      set (z := Z.to_nat (- (k + e))).
      unfold parse_unsigned.
      change ("0." +:+ ?x) with (String "0" (String "." x)).
      rewrite ?text_app_assoc. cbn [String.append].
      change (parse_integer (String "0" (String "." ?x)))
        with (Some (Decimal.D0 Decimal.Nil, String "." x)).
      cbv beta iota.
      assert (Hz : all_digits (zeros z +:+ ds) = true)
        by (now rewrite all_digits_app, all_digits_zeros, Hds).
      destruct (zeros z +:+ ds) as [|c2 t2] eqn:Ez.
      { apply (f_equal String.length) in Ez. rewrite text_length_app in Ez.
        unfold ds in Ez. cbn [String.length] in Ez. lia. }
      change (String c2 (t2 +:+ rest)) with (String c2 t2 +:+ rest).
      rewrite (parse_fraction_text c2 t2 rest Hz Drest).
      rewrite (parse_exponent_delimits rest Hrest).
      rewrite (nb_digits_text _ Hz), <- Ez, text_length_app, zeros_length.
      cbn [uint_app]. change (Z.of_uint (Decimal.D0 ?u)) with (Z.of_uint u).
      rewrite <- (parse_digits_split _ _ (all_digits_zeros z) Hds), of_uint_zeros.
      do 2 f_equal. f_equal. unfold z, k in *. lia.
    + (* with an exponent *)
      assert (Hn : k + e - 1 <> 0).
      { apply andb_false_iff in A. apply andb_false_iff in B.
        rewrite !Z.ltb_ge, !Z.leb_gt in *. lia. }
      unfold ds at 1 2. cbn [text_take text_drop].
      unfold parse_unsigned.
      assert (Hr0 : all_digits r0 = true).
      { unfold ds in Hds. cbn [all_digits] in Hds. now destruct (digit_of c0). }
      assert (H1 : all_digits (String c0 "") = true).
      { unfold ds in Hds. cbn [all_digits] in *. now destruct (digit_of c0). }
      assert (Hsplit : uint_app (fst (parse_digits (String c0 ""))) (fst (parse_digits r0))
                       = fst (parse_digits ds))
        by (now rewrite (parse_digits_split _ _ H1 Hr0)).
      destruct (k =? 1) eqn:K.
      * apply Z.eqb_eq in K.
        assert (r0 = "") as ->
          by (unfold k, ds in K; cbn [String.length] in K; destruct r0; [reflexivity|];
              cbn [String.length] in K; lia).
        rewrite !text_app_assoc. cbn [String.append].
        change (String c0 (String "e" ?x)) with (String c0 "" +:+ String "e" x).
        rewrite (parse_integer_text c0 EmptyString _ H1 Hc0) by reflexivity.
        change (parse_fraction (String "e" ?x)) with (Some (Decimal.Nil, String "e" x)).
        cbv beta iota.
        rewrite (parse_exponent_text _ rest Hn Hrest).
        rewrite <- Hsplit. cbn [parse_digits fst Decimal.nb_digits].
        do 2 f_equal. f_equal. unfold k, ds. cbn [String.length]. lia.
      * apply Z.eqb_neq in K.
        destruct r0 as [|c2 t2];
          [unfold k, ds in K; cbn [String.length] in K; lia|].
        rewrite !text_app_assoc. cbn [String.append].
        change (String c0 (String "." ?x)) with (String c0 "" +:+ String "." x).
        rewrite (parse_integer_text c0 EmptyString _ H1 Hc0) by reflexivity.
        change (String c2 (t2 +:+ ?x)) with (String c2 t2 +:+ x).
        rewrite (parse_fraction_text c2 t2 _ Hr0) by reflexivity.
        rewrite (parse_exponent_text _ rest Hn Hrest).
        rewrite Hsplit, (nb_digits_text _ Hr0).
        do 2 f_equal. f_equal. unfold k, ds. cbn [String.length]. lia.
Qed.

Lemma to_uint_text (p : positive) :
  exists c0 r0,
    NilEmpty.string_of_uint (Pos.to_uint p) = String c0 r0
    /\ Ascii.eqb c0 "0" = false /\ Ascii.eqb c0 "-" = false.
Proof.
  pose proof (DecimalPos.Unsigned.to_uint_nonnil p) as N0.
  pose proof (to_uint_no_leading_zero p) as N1.
  destruct (Pos.to_uint p) as [|u|u|u|u|u|u|u|u|u|u];
    [congruence | exfalso; exact (N1 u eq_refl) | ..];
    cbn [NilEmpty.string_of_uint]; eexists _, _; repeat split; reflexivity.
Qed.

Lemma digit_not_minus (c : ascii) (d : Decimal.uint -> Decimal.uint) :
  digit_of c = Some d -> Ascii.eqb c "-" = false.
Proof. each_ascii c; intros H; try discriminate H; reflexivity. Qed.

(** The text of a number that is not an integer starts with a digit. *)
Lemma point_notation_head (c0 : ascii) (r0 : string) (n : Z) :
  exists r, point_notation (String c0 r0) n = String c0 r
            \/ point_notation (String c0 r0) n = String "0" r.
Proof.
  unfold point_notation.
  destruct ((0 <? n) && (n <=? 21)) eqn:A.
  - apply andb_true_iff in A as [A _]. apply Z.ltb_lt in A.
    destruct (Z.to_nat n) as [|j] eqn:E; [lia|].
    cbn [text_take String.append]. eexists. left. reflexivity.
  - destruct ((-6 <? n) && (n <=? 0)).
    + eexists. right. reflexivity.
    + cbn [text_take String.append]. eexists. left. reflexivity.
Qed.

Lemma number_of_decimal (m e : Z) :
  m mod 10 <> 0 -> e < 0 -> number_of m e = JDec m e.
Proof.
  intros Hm He. unfold number_of.
  assert (m <> 0) by (intros ->; now apply Hm).
  destruct (Z.eqb_spec m 0) as [|_]; [contradiction|].
  destruct (Z.leb_spec 0 e) as [|_]; [lia|].
  destruct (Z.to_nat (- e)) as [|fuel] eqn:E; [lia|].
  cbn [strip_zeros]. now destruct (Z.eqb_spec (m mod 10) 0).
Qed.

(** The text of a number that is not an integer, followed by a delimiter,
    parses back to the number. *)
Lemma parse_number_decimal (m e : Z) (rest : string) :
  m mod 10 <> 0 -> e < 0 -> delimits rest = true ->
  parse_number (decimal_to_string m e +:+ rest) = Some (JDec m e, rest).
Proof.
  intros Hm He Hrest. unfold decimal_to_string.
  destruct m as [|p|p]; [now contradiction Hm | |].
  - rewrite (proj1 (digits_pos p)).
    destruct (to_uint_text p) as (c0 & r0 & E & H0 & Hminus).
    pose proof (all_digits_string_of_uint (Pos.to_uint p)) as Hds.
    pose proof (parse_digits_string_of_uint (Pos.to_uint p)) as Hp.
    rewrite E in *.
    change (Z.pos p <? 0) with false. cbv iota. cbn [String.append].
    pose proof (parse_unsigned_point c0 r0 rest e Hds H0 He Hrest) as P.
    destruct (point_notation_head c0 r0 (Z.of_nat (String.length (String c0 r0)) + e))
      as (r & [Eh|Eh]); rewrite Eh in *; cbn [String.append] in *;
      unfold parse_number, parse_sign; rewrite ?Hminus;
      change (Ascii.eqb "0" "-") with false; cbv iota; rewrite P, Hp; cbn [fst];
      now rewrite of_uint_to_uint, number_of_decimal.
  - rewrite (proj2 (digits_pos p)).
    destruct (to_uint_text p) as (c0 & r0 & E & H0 & Hminus).
    pose proof (all_digits_string_of_uint (Pos.to_uint p)) as Hds.
    pose proof (parse_digits_string_of_uint (Pos.to_uint p)) as Hp.
    rewrite E in *.
    change (Z.neg p <? 0) with true. cbv iota. cbn [String.append].
    unfold parse_number, parse_sign. change (Ascii.eqb "-" "-") with true. cbv iota.
    rewrite (parse_unsigned_point c0 r0 rest e Hds H0 He Hrest), Hp. cbn [fst].
    now rewrite of_uint_to_uint, number_of_decimal.
Qed.

(** The text of an integer, followed by a delimiter, parses back to it. *)
Lemma parse_number_correct (n : Z) (rest : string) :
  delimits rest = true ->
  parse_number (number_to_string n +:+ rest) = Some (JNum n, rest).
Proof.
  intros H. pose proof (delimits_digits rest H) as Drest.
  unfold number_to_string.
  assert (P : forall p : positive,
            parse_unsigned (NilEmpty.string_of_uint (Pos.to_uint p) +:+ rest)
            = Some (Z.pos p, 0, rest)).
  { intros p. destruct (to_uint_text p) as (c0 & r0 & E & H0 & _).
    pose proof (all_digits_string_of_uint (Pos.to_uint p)) as Hds.
    pose proof (parse_digits_string_of_uint (Pos.to_uint p)) as Hp.
    rewrite E in *. unfold parse_unsigned.
    rewrite (parse_integer_text c0 r0 rest Hds H0 Drest), Hp. cbn [fst].
    rewrite (parse_fraction_delimits rest H), (parse_exponent_delimits rest H).
    now rewrite uint_app_nil_r, of_uint_to_uint. }
  destruct n as [|p|p]; cbn [Z.to_int NilZero.string_of_int].
  - cbn [NilZero.string_of_uint NilEmpty.string_of_uint String.append].
    unfold parse_number, parse_sign, parse_unsigned, parse_integer.
    change (Ascii.eqb "0" "-") with false. cbv iota.
    change (parse_digits (String "0" rest))
      with (let '(u, r') := parse_digits rest in (Decimal.D0 u, r')).
    rewrite Drest. cbn [nonempty leading_zero andb negb].
    now rewrite (parse_fraction_delimits rest H), (parse_exponent_delimits rest H).
  - rewrite string_of_uint_nonnil by apply DecimalPos.Unsigned.to_uint_nonnil.
    destruct (to_uint_text p) as (c0 & r0 & E & _ & Hminus).
    unfold parse_number, parse_sign. rewrite E. cbn [String.append]. rewrite Hminus.
    change (String c0 (r0 +:+ rest)) with (String c0 r0 +:+ rest). rewrite <- E, P.
    unfold number_of. cbn [Z.eqb Z.leb Z.compare]. now rewrite Z.mul_1_r.
  - rewrite string_of_uint_nonnil by apply DecimalPos.Unsigned.to_uint_nonnil.
    unfold parse_number, parse_sign. cbn [String.append].
    change (Ascii.eqb "-" "-") with true. cbv iota. rewrite P.
    unfold number_of. cbn [Z.opp Z.eqb Z.leb Z.compare]. now rewrite Z.mul_1_r.
Qed.

Lemma string_of_uint_head (p : positive) :
  exists c r, NilEmpty.string_of_uint (Pos.to_uint p) = String c r
              /\ (exists d, digit_of c = Some d).
Proof.
  pose proof (DecimalPos.Unsigned.to_uint_nonnil p) as N0.
  destruct (Pos.to_uint p) as [|u|u|u|u|u|u|u|u|u|u]; [congruence | ..];
    cbn [NilEmpty.string_of_uint]; eexists _, _; (split; [reflexivity|]);
    cbv [digit_of Ascii.eqb Bool.eqb]; eexists; reflexivity.
Qed.

Lemma digits_head (m : Z) :
  exists c r, digits m = String c r /\ (exists d, digit_of c = Some d).
Proof.
  destruct m as [|p|p].
  - eexists _, _. split; [reflexivity|]. eexists. reflexivity.
  - rewrite (proj1 (digits_pos p)). apply string_of_uint_head.
  - rewrite (proj2 (digits_pos p)). apply string_of_uint_head.
Qed.

Lemma all_digits_digits (m : Z) : all_digits (digits m) = true.
Proof.
  destruct m as [|p|p]; [reflexivity | |].
  - rewrite (proj1 (digits_pos p)). apply all_digits_string_of_uint.
  - rewrite (proj2 (digits_pos p)). apply all_digits_string_of_uint.
Qed.

(** The text of a number that is not an integer starts with a sign or a
    digit. *)
Lemma decimal_to_string_head (m e : Z) :
  exists c r, decimal_to_string m e = String c r
              /\ (Ascii.eqb c "-" = true \/ exists d, digit_of c = Some d).
Proof.
  unfold decimal_to_string. destruct (m <? 0).
  - eexists _, _. split; [reflexivity|]. now left.
  - cbn [String.append].
    destruct (digits_head m) as (c0 & r0 & E & Hd). rewrite E.
    destruct (point_notation_head c0 r0 (Z.of_nat (String.length (String c0 r0)) + e))
      as (r & [Eh|Eh]); rewrite Eh; eexists _, _; (split; [reflexivity|]); right;
      [exact Hd | eexists; reflexivity].
Qed.

Lemma printable_digits (s : string) : all_digits s = true -> printable s = true.
Proof.
  induction s as [|c s IH]; cbn [all_digits printable]; [reflexivity|].
  destruct (digit_of c) as [d|] eqn:E; [|discriminate].
  intros H. rewrite (IH H), andb_true_r.
  revert E. clear. each_ascii c; intros E; try discriminate E; reflexivity.
Qed.

Lemma printable_decimal (m e : Z) : printable (decimal_to_string m e) = true.
Proof.
  pose proof (all_digits_digits m) as Hds.
  pose proof (fun n => printable_digits _ (all_digits_take n _ Hds)) as Ht.
  pose proof (fun n => printable_digits _ (all_digits_drop n _ Hds)) as Hd.
  pose proof (fun n => printable_digits _ (all_digits_zeros n)) as Hz.
  pose proof (printable_digits _ (all_digits_digits
                (Z.of_nat (String.length (digits m)) + e - 1))) as Hx.
  unfold decimal_to_string, point_notation.
  repeat match goal with
         | |- context [if ?b then _ else _] => destruct b
         end;
    rewrite ?printable_app, ?Ht, ?Hd, ?Hz, ?Hx, ?(printable_digits _ Hds); reflexivity.
Qed.

(** The text of an integer starts with a sign or a digit. *)
Lemma number_to_string_head (n : Z) :
  exists c r, number_to_string n = String c r
              /\ (Ascii.eqb c "-" = true \/ exists d, digit_of c = Some d).
Proof.
  unfold number_to_string.
  destruct n as [|p|p]; cbn [Z.to_int NilZero.string_of_int].
  - eexists _, _. split; [reflexivity|]. right. eexists. reflexivity.
  - rewrite string_of_uint_nonnil by apply DecimalPos.Unsigned.to_uint_nonnil.
    destruct (string_of_uint_head p) as (c & r & E & Hd).
    exists c, r. split; [exact E | now right].
  - eexists _, _. split; [reflexivity|]. now left.
Qed.

Lemma value_start_not_delimiter (c : ascii) :
  value_start c = true ->
  is_ws c = false /\ Ascii.eqb c "]" = false /\ Ascii.eqb c "}" = false.
Proof. each_ascii c; intros H; try discriminate H; repeat split; reflexivity. Qed.

Lemma parse_value_number (fuel : nat) (c : ascii) (r : string) :
  Ascii.eqb c "-" = true \/ (exists d, digit_of c = Some d) ->
  parse_value (S fuel) (String c r) = parse_number (String c r).
Proof.
  each_ascii c; intros [H|[d H]]; try discriminate H; reflexivity.
Qed.

Lemma parse_value_string (fuel : nat) (r : string) :
  parse_value (S fuel) (String DQUOTE r)
  = match parse_chars r with
    | Some (str, r') => Some (JStr str, r')
    | None => None
    end.
Proof. reflexivity. Qed.

Lemma parse_value_array (fuel : nat) (r : string) :
  parse_value (S fuel) (String "[" r)
  = match skip_ws r with
    | EmptyString => None
    | String c' r' =>
        if Ascii.eqb c' "]" then Some (JArr [], r') else parse_elements fuel r []
    end.
Proof. reflexivity. Qed.

Lemma parse_value_object (fuel : nat) (r : string) :
  parse_value (S fuel) (String "{" r)
  = match skip_ws r with
    | EmptyString => None
    | String c' r' =>
        if Ascii.eqb c' "}" then Some (JObj [], r') else parse_members fuel r []
    end.
Proof. reflexivity. Qed.

Lemma parse_elements_S (fuel : nat) (s : string) (acc : list json) :
  parse_elements (S fuel) s acc
  = match parse_value fuel s with
    | None => None
    | Some (v, r) =>
        match skip_ws r with
        | EmptyString => None
        | String c r' =>
            if Ascii.eqb c "," then parse_elements fuel r' (acc ++ [v])
            else if Ascii.eqb c "]" then Some (JArr (acc ++ [v]), r')
            else None
        end
    end.
Proof. reflexivity. Qed.

Lemma parse_members_quote (fuel : nat) (r : string) (acc : list (string * json)) :
  parse_members (S fuel) (String DQUOTE r) acc
  = match parse_chars r with
    | None => None
    | Some (k, r1) =>
        match skip_ws r1 with
        | EmptyString => None
        | String c r2 =>
            if Ascii.eqb c ":" then
              match parse_value fuel r2 with
              | None => None
              | Some (v, r3) =>
                  match skip_ws r3 with
                  | EmptyString => None
                  | String d r4 =>
                      if Ascii.eqb d "," then parse_members fuel r4 (obj_set k v acc)
                      else if Ascii.eqb d "}" then Some (JObj (obj_set k v acc), r4)
                      else None
                  end
              end
            else None
        end
    end.
Proof. reflexivity. Qed.

Lemma commas_seps (x : string) (l : list string) (close : string) :
  commas (x :: l) +:+ close = x +:+ seps l close.
Proof.
  revert x. induction l as [|y l IH]; intros x.
  - reflexivity.
  - change (commas (x :: y :: l)) with (x +:+ "," +:+ commas (y :: l)).
    cbn [seps]. now rewrite !text_app_assoc, IH.
Qed.

Lemma delimits_seps (l : list string) (c : ascii) (close : string) :
  delimiter c = true -> delimits (seps l (String c close)) = true.
Proof. intros H. destruct l; [exact H | reflexivity]. Qed.

(** The text of a value starts with a character that opens a value. *)
Lemma stringify_head (v : json) :
  exists c r, stringify v = String c r /\ value_start c = true.
Proof.
  destruct v as [|[|]|n|m e|s|l|l]; try (eexists _, _; split; reflexivity).
  - cbn [stringify].
    destruct (number_to_string_head n) as (c & r & E & [H|[d H]]);
      exists c, r; (split; [exact E|]); unfold value_start; rewrite H;
      rewrite ?orb_true_r; reflexivity.
  - cbn [stringify].
    destruct (decimal_to_string_head m e) as (c & r & E & [H|[d H]]);
      exists c, r; (split; [exact E|]); unfold value_start; rewrite H;
      rewrite ?orb_true_r; reflexivity.
Qed.

Lemma skip_ws_stringify (v : json) (rest : string) :
  skip_ws (stringify v +:+ rest) = stringify v +:+ rest.
Proof.
  destruct (stringify_head v) as (c & r & -> & H).
  cbn [String.append skip_ws].
  now rewrite (proj1 (value_start_not_delimiter c H)).
Qed.

Lemma distinct_app_fresh (a b : list string) (k : string) :
  distinct (a ++ k :: b) = true -> existsb (String.eqb k) a = false.
Proof.
  induction a as [|x a IH]; cbn [app distinct existsb]; [reflexivity|].
  intros H. apply andb_true_iff in H as [Hx Ha].
  rewrite (IH Ha), orb_false_r.
  apply negb_true_iff in Hx. rewrite existsb_app in Hx.
  apply orb_false_iff in Hx as [_ Hx]. cbn [existsb] in Hx.
  apply orb_false_iff in Hx as [Hx _]. now rewrite String.eqb_sym.
Qed.

Lemma obj_set_fresh (k : string) (v : json) (acc : list (string * json)) :
  existsb (String.eqb k) (map fst acc) = false ->
  obj_set k v acc = acc ++ [(k, v)].
Proof.
  induction acc as [|[k' v'] acc IH]; cbn [map fst existsb obj_set app]; [reflexivity|].
  intros H. apply orb_false_iff in H as [H1 H2].
  now rewrite H1, (IH H2).
Qed.

Lemma parse_elements_correct (l : list json) :
  forall (x : json) (acc : list json) (fuel : nat) (rest : string),
    Forall (fun v => well_formed v = true -> forall fuel rest,
                weight v <= fuel -> delimits rest = true ->
                parse_value fuel (stringify v +:+ rest) = Some (v, rest))%nat (x :: l) ->
    forallb well_formed (x :: l) = true ->
    (list_sum (map (fun v => S (weight v)) (x :: l)) <= fuel)%nat ->
    delimits rest = true ->
    parse_elements fuel (stringify x +:+ seps (map stringify l) (String "]" rest)) acc
    = Some (JArr (acc ++ x :: l), rest).
Proof.
  induction l as [|y l IH]; intros x acc fuel rest HP Hwf Hfuel Hrest;
    inversion HP as [|? ? Hx HP']; subst;
    cbn [forallb] in Hwf; apply andb_true_iff in Hwf as [Hwx Hwf];
    cbn [map list_sum fold_right] in Hfuel;
    (destruct fuel as [|fuel]; [lia|]); rewrite parse_elements_S.
  - cbn [map seps].
    rewrite (Hx Hwx fuel (String "]" rest)) by (reflexivity || lia).
    reflexivity.
  - cbn [map seps String.append].
    rewrite (Hx Hwx fuel) by (reflexivity || lia).
    change (skip_ws (String "," ?X)) with (String "," X). cbv beta iota.
    change (Ascii.eqb "," ",") with true. cbv iota.
    rewrite (IH y (acc ++ [x]) fuel rest HP' Hwf) by (assumption || cbn [map list_sum fold_right]; lia).
    now rewrite <- app_assoc.
Qed.

Lemma parse_members_correct (l : list (string * json)) :
  forall (k : string) (x : json) (acc : list (string * json)) (fuel : nat) (rest : string),
    Forall (fun kv => well_formed (snd kv) = true -> forall fuel rest,
                weight (snd kv) <= fuel -> delimits rest = true ->
                parse_value fuel (stringify (snd kv) +:+ rest) = Some (snd kv, rest))%nat
           ((k, x) :: l) ->
    distinct (map fst (acc ++ (k, x) :: l)) = true ->
    forallb (fun kv => well_formed (snd kv)) ((k, x) :: l) = true ->
    (list_sum (map (fun kv => S (weight (snd kv))) ((k, x) :: l)) <= fuel)%nat ->
    delimits rest = true ->
    parse_members fuel
      ((quote k +:+ ":" +:+ stringify x)
       +:+ seps (map (fun kv => quote (fst kv) +:+ ":" +:+ stringify (snd kv)) l)
             (String "}" rest)) acc
    = Some (JObj (acc ++ (k, x) :: l), rest).
Proof.
  induction l as [|[k' y] l IH]; intros k x acc fuel rest HP Hd Hwf Hfuel Hrest;
    inversion HP as [|? ? Hx HP']; subst; cbn [snd fst] in *;
    cbn [forallb snd] in Hwf; apply andb_true_iff in Hwf as [Hwx Hwf];
    cbn [map list_sum fold_right snd] in Hfuel;
    (destruct fuel as [|fuel]; [lia|]);
    rewrite text_app_assoc, quote_app, parse_members_quote, parse_chars_quote;
    change ((":" +:+ ?a) +:+ ?b) with (String ":" (a +:+ b));
    change (skip_ws (String ":" ?X)) with (String ":" X); cbv beta iota;
    change (Ascii.eqb ":" ":") with true; cbv iota;
    assert (Hk : obj_set k x acc = acc ++ [(k, x)])
      by (apply obj_set_fresh; rewrite map_app in Hd; cbn [map fst] in Hd;
          exact (distinct_app_fresh _ _ _ Hd)).
  - cbn [map seps].
    rewrite (Hx Hwx fuel (String "}" rest)) by (reflexivity || lia).
    change (skip_ws (String "}" rest)) with (String "}" rest). cbv beta iota.
    change (Ascii.eqb "}" ",") with false. change (Ascii.eqb "}" "}") with true.
    cbv iota. now rewrite Hk.
  - cbn [map seps fst snd].
    rewrite (Hx Hwx fuel) by (reflexivity || lia).
    change (skip_ws ("," +:+ ?X)) with (String "," X). cbv beta iota.
    change (Ascii.eqb "," ",") with true. cbv iota.
    rewrite Hk.
    rewrite (IH k' y (acc ++ [(k, x)]) fuel rest HP').
    + now rewrite <- app_assoc.
    + now rewrite <- app_assoc.
    + exact Hwf.
    + cbn [map list_sum fold_right snd]. lia.
    + exact Hrest.
Qed.

(** The text of a well-formed value, followed by a delimiter, parses back to
    the value and leaves what follows. *)
Lemma parse_stringify (v : json) :
  well_formed v = true ->
  forall (fuel : nat) (rest : string),
    (weight v <= fuel)%nat -> delimits rest = true ->
    parse_value fuel (stringify v +:+ rest) = Some (v, rest).
Proof.
  induction v as [|b|n|m e|s|l IH|l IH] using json_ind;
    intros Hwf fuel rest Hfuel Hrest;
    (destruct fuel as [|fuel]; [cbn [weight] in Hfuel; lia|]).
  - reflexivity.
  - destruct b; reflexivity.
  - cbn [stringify].
    destruct (number_to_string_head n) as (c & r & E & Hc).
    rewrite E. cbn [String.append]. rewrite (parse_value_number fuel c _ Hc).
    change (String c (r +:+ rest)) with (String c r +:+ rest).
    now rewrite <- E, parse_number_correct.
  - cbn [stringify well_formed] in *.
    apply andb_true_iff in Hwf as [Hwf _]. apply andb_true_iff in Hwf as [Hwf _].
    apply andb_true_iff in Hwf as [Hm He].
    apply negb_true_iff, Z.eqb_neq in Hm. apply Z.ltb_lt in He.
    destruct (decimal_to_string_head m e) as (c & r & E & Hc).
    rewrite E. cbn [String.append]. rewrite (parse_value_number fuel c _ Hc).
    change (String c (r +:+ rest)) with (String c r +:+ rest).
    now rewrite <- E, parse_number_decimal.
  - cbn [stringify]. now rewrite quote_app, parse_value_string, parse_chars_quote.
  - cbn [stringify weight well_formed] in *.
    change ("[" +:+ ?a +:+ "]") with (String "[" (a +:+ "]")).
    cbn [String.append]. rewrite parse_value_array.
    destruct l as [|x l]; [reflexivity|].
    rewrite text_app_assoc. change ("]" +:+ rest) with (String "]" rest).
    cbn [map]. rewrite commas_seps, skip_ws_stringify.
    destruct (stringify_head x) as (c & r & E & Hc). rewrite E at 1.
    cbn [String.append].
    rewrite (proj1 (proj2 (value_start_not_delimiter c Hc))).
    apply (parse_elements_correct l x [] fuel rest IH Hwf); [lia | exact Hrest].
  - cbn [stringify weight well_formed] in *.
    apply andb_true_iff in Hwf as [Hd Hwf].
    change ("{" +:+ ?a +:+ "}") with (String "{" (a +:+ "}")).
    cbn [String.append]. rewrite parse_value_object.
    destruct l as [|[k x] l]; [reflexivity|].
    rewrite text_app_assoc. change ("}" +:+ rest) with (String "}" rest).
    cbn [map fst snd]. rewrite commas_seps.
    rewrite (text_app_assoc (quote k)), quote_app.
    change (skip_ws (String DQUOTE ?X)) with (String DQUOTE X). cbv beta iota.
    change (Ascii.eqb DQUOTE "}") with false. cbv iota.
    rewrite <- quote_app, <- text_app_assoc.
    apply (parse_members_correct l k x [] fuel rest IH Hd Hwf); [lia | exact Hrest].
Qed.

Lemma commas_length (l : list string) :
  (list_sum (map (fun x => S (String.length x)) l) <= S (String.length (commas l)))%nat.
Proof.
  induction l as [|x l IH]; cbn [map list_sum fold_right]; [lia|].
  destruct l as [|y l].
  - cbn [map list_sum fold_right commas]. lia.
  - change (commas (x :: y :: l)) with (x +:+ "," +:+ commas (y :: l)).
    rewrite !text_length_app. cbn [String.length]. cbn [map list_sum fold_right] in *. lia.
Qed.

Lemma weight_length (v : json) : (weight v <= String.length (stringify v))%nat.
Proof.
  induction v as [|b|n|m e|s|l IH|l IH] using json_ind; cbn [weight stringify].
  - cbn. lia.
  - destruct b; cbn; lia.
  - destruct (number_to_string_head n) as (c & r & -> & _). cbn [String.length]. lia.
  - destruct (decimal_to_string_head m e) as (c & r & -> & _). cbn [String.length]. lia.
  - unfold quote. cbn [String.length]. lia.
  - rewrite !text_length_app. cbn [String.length].
    pose proof (commas_length (map stringify l)) as H. rewrite map_map in H.
    assert (list_sum (map (fun x => S (weight x)) l)
            <= list_sum (map (fun x => S (String.length (stringify x))) l))%nat; [|lia].
    clear H. induction IH as [|x l Hx _ IHl]; cbn [map list_sum fold_right]; [lia|].
    unfold list_sum in IHl. lia.
  - rewrite !text_length_app. cbn [String.length].
    pose proof (commas_length
                  (map (fun kv => quote (fst kv) +:+ ":" +:+ stringify (snd kv)) l)) as H.
    rewrite map_map in H.
    assert (list_sum (map (fun kv => S (weight (snd kv))) l)
            <= list_sum (map (fun kv => S (String.length
                               (quote (fst kv) +:+ ":" +:+ stringify (snd kv)))) l))%nat;
      [|lia].
    clear H. induction IH as [|x l Hx _ IHl]; cbn [map list_sum fold_right]; [lia|].
    rewrite !text_length_app. unfold list_sum in IHl. lia.
Qed.

(** [JSON.parse] gives back the value that [JSON.stringify] wrote, also when
    white space follows the text. *)
Lemma JSON_parse_stringify (v : json) (rest : string) :
  well_formed v = true ->
  delimits rest = true -> skip_ws rest = "" ->
  JSON_parse (stringify v +:+ rest) = Some v.
Proof.
  intros Hwf Hd Hws. unfold JSON_parse.
  rewrite (parse_stringify v Hwf _ rest); [now rewrite Hws | | exact Hd].
  pose proof (weight_length v). rewrite text_length_app. lia.
Qed.

Lemma printable_uint (u : Decimal.uint) : printable (NilEmpty.string_of_uint u) = true.
Proof. induction u; cbn [NilEmpty.string_of_uint printable]; try rewrite IHu; reflexivity. Qed.

Lemma printable_number (n : Z) : printable (number_to_string n) = true.
Proof.
  unfold number_to_string.
  destruct n as [|p|p]; cbn [Z.to_int NilZero.string_of_int]; [reflexivity | |];
    rewrite string_of_uint_nonnil by apply DecimalPos.Unsigned.to_uint_nonnil;
    cbn [printable]; now rewrite printable_uint.
Qed.

Lemma printable_commas (l : list string) :
  Forall (fun x => printable x = true) l -> printable (commas l) = true.
Proof.
  induction 1 as [|x l Hx Hl IH]; [reflexivity|].
  destruct l as [|y l]; [exact Hx|].
  change (commas (x :: y :: l)) with (x +:+ "," +:+ commas (y :: l)).
  now rewrite !printable_app, Hx, IH.
Qed.

(** [JSON.stringify] writes no control character. *)
Lemma printable_stringify (v : json) : printable (stringify v) = true.
Proof.
  induction v as [|b|n|m e|s|l IH|l IH] using json_ind; cbn [stringify].
  - reflexivity.
  - now destruct b.
  - apply printable_number.
  - apply printable_decimal.
  - apply printable_quote.
  - rewrite !printable_app, printable_commas; [reflexivity|].
    induction IH; constructor; assumption.
  - rewrite !printable_app, printable_commas; [reflexivity|].
    induction IH as [|kv l Hkv _ IHl]; constructor; [|assumption].
    now rewrite !printable_app, printable_quote, Hkv.
Qed.

Lemma printable_char (c d : ascii) :
  (nat_of_ascii d <? 32)%nat = true -> (nat_of_ascii c <? 32)%nat = false ->
  Ascii.eqb d c = false.
Proof.
  intros Hd Hc. destruct (Ascii.eqb d c) eqn:E; [|reflexivity].
  apply Ascii.eqb_eq in E. congruence.
Qed.

Lemma printable_occurs (d : ascii) (s : string) :
  (nat_of_ascii d <? 32)%nat = true -> printable s = true -> occurs d s = false.
Proof.
  intros Hd. induction s as [|c s IH]; cbn [printable occurs]; [reflexivity|].
  intros H. apply andb_true_iff in H as [Hc Hs]. apply negb_true_iff in Hc.
  now rewrite (printable_char c d Hd Hc), (IH Hs).
Qed.

(** ** The fuel of the parser is enough

    What [parse_value] reads with some fuel, it reads with as much fuel as
    it consumes characters: the fuel that [JSON_parse] gives never runs
    out. *)

Lemma skip_ws_length (s : string) : (String.length (skip_ws s) <= String.length s)%nat.
Proof.
  induction s as [|c s IH]; cbn [skip_ws]; [lia|].
  destruct (is_ws c); cbn [String.length]; lia.
Qed.

Lemma parse_chars_length (n : nat) :
  forall (s str r : string),
    (String.length s <= n)%nat -> parse_chars s = Some (str, r) ->
    (String.length r < String.length s)%nat.
Proof.
  assert (P : forall (c : ascii) (res : option (string * string)) (t str r : string),
            (forall str' r', res = Some (str', r') -> String.length r' < String.length t)%nat ->
            push_char c res = Some (str, r) -> (String.length r < String.length t)%nat).
  { intros c [[str' r']|] t str r Hres H; [|discriminate].
    injection H as _ <-. now apply (Hres str'). }
  assert (Q : forall (t0 : string) (res : option (string * string)) (t str r : string),
            (forall str' r', res = Some (str', r') -> String.length r' < String.length t)%nat ->
            push_text t0 res = Some (str, r) -> (String.length r < String.length t)%nat).
  { intros t0 [[str' r']|] t str r Hres H; [|discriminate].
    injection H as _ <-. now apply (Hres str'). }
  induction n as [|n IH]; intros s str r Hn H;
    (destruct s as [|c s]; [discriminate|]); cbn [String.length] in Hn; [lia|].
  cbn [parse_chars] in H. cbn [String.length].
  destruct (Ascii.eqb c DQUOTE); [injection H as _ <-; lia|].
  destruct (Ascii.eqb c BACKSLASH).
  - destruct s as [|e s]; [discriminate|]. cbn [String.length] in *.
    destruct (Ascii.eqb e "u").
    + destruct s as [|h1 [|h2 [|h3 [|h4 s]]]]; try discriminate.
      cbn [String.length] in *.
      destruct (hex4 h1 h2 h3 h4) as [code|]; [|discriminate].
      assert (Alone : push_text (utf8 code) (parse_chars s) = Some (str, r) ->
                      (String.length r < String.length s)%nat).
      { intros HA. apply (Q _ _ s) in HA; [exact HA|].
        intros str' r' E. apply (IH s str' r'); [lia | exact E]. }
      cbv zeta in H.
      destruct (is_high code); [|apply Alone in H; lia].
      destruct s as [|b0 [|u0 [|l1 [|l2 [|l3 [|l4 r3]]]]]];
        try (apply Alone in H; lia).
      destruct (Ascii.eqb b0 BACKSLASH && Ascii.eqb u0 "u"); [|apply Alone in H; lia].
      destruct (hex4 l1 l2 l3 l4) as [low|]; [|apply Alone in H; lia].
      destruct (is_low low); [|apply Alone in H; lia].
      cbn [String.length] in *.
      apply (Q _ _ r3) in H; [lia|].
      intros str' r' E. apply (IH r3 str' r'); [lia | exact E].
    + destruct (unescape e) as [d|]; [|discriminate].
      apply (P _ _ s) in H; [lia|]. intros str' r' E. apply (IH s str' r'); [lia | exact E].
  - destruct (nat_of_ascii c <? 32)%nat; [discriminate|].
    apply (P _ _ s) in H; [lia|]. intros str' r' E. apply (IH s str' r'); [lia | exact E].
Qed.

Lemma strip_prefix_length (p s r : string) :
  strip_prefix p s = Some r -> (String.length r <= String.length s)%nat.
Proof.
  revert s. induction p as [|a p IH]; intros s H; cbn [strip_prefix] in H.
  - injection H as <-. lia.
  - destruct s as [|b s]; [discriminate|].
    destruct (Ascii.eqb a b); [|discriminate].
    apply IH in H. cbn [String.length]. lia.
Qed.

Lemma parse_digits_length (s : string) :
  (String.length (snd (parse_digits s)) <= String.length s)%nat
  /\ (fst (parse_digits s) <> Decimal.Nil ->
      String.length (snd (parse_digits s)) < String.length s)%nat.
Proof.
  induction s as [|c s [IH _]]; cbn [parse_digits];
    [cbn [fst snd]; split; [lia | congruence]|].
  destruct (digit_of c) as [d|]; [|cbn [fst snd]; split; [lia | congruence]].
  destruct (parse_digits s) as [u r]. cbn [fst snd String.length] in *. split; lia.
Qed.

Lemma parse_fraction_length (s : string) (f : Decimal.uint) (r : string) :
  parse_fraction s = Some (f, r) -> (String.length r <= String.length s)%nat.
Proof.
  destruct s as [|c s]; cbn [parse_fraction]; [intros [= _ <-]; lia|].
  destruct (Ascii.eqb c "."); [|intros [= _ <-]; lia].
  pose proof (parse_digits_length s) as [L _].
  destruct (parse_digits s) as [u r0]. cbn [snd String.length] in *.
  destruct (nonempty u); [intros [= _ <-]; lia | discriminate].
Qed.

Lemma parse_exponent_length (s : string) (x : Z) (r : string) :
  parse_exponent s = Some (x, r) -> (String.length r <= String.length s)%nat.
Proof.
  destruct s as [|c s]; cbn [parse_exponent]; [intros [= _ <-]; lia|].
  destruct (Ascii.eqb c "e" || Ascii.eqb c "E"); [|intros [= _ <-]; lia].
  assert (G : forall s1 : string, (String.length s1 <= String.length s)%nat ->
            forall negative : bool,
              (let '(u, r2) := parse_digits s1 in
               if nonempty u
               then Some (if negative then - Z.of_uint u else Z.of_uint u, r2)
               else None) = Some (x, r) ->
              (String.length r <= String.length (String c s))%nat).
  { intros s1 L negative. pose proof (parse_digits_length s1) as [L1 _].
    destruct (parse_digits s1) as [u r2]. cbn [snd String.length] in *.
    destruct (nonempty u); [intros [= _ <-]; lia | discriminate]. }
  destruct s as [|d s'].
  - intros H. apply (G EmptyString (Nat.le_refl _) false H).
  - cbn [String.length] in G.
    destruct (Ascii.eqb d "-"); [intros H; apply (G s' ltac:(lia) true H)|].
    destruct (Ascii.eqb d "+"); intros H;
      [apply (G s' ltac:(lia) false H) | apply (G (String d s') (Nat.le_refl _) false H)].
Qed.

Lemma parse_number_length (s : string) (v : json) (r : string) :
  parse_number s = Some (v, r) -> (String.length r < String.length s)%nat.
Proof.
  unfold parse_number.
  assert (L0 : (String.length (snd (parse_sign s)) <= String.length s)%nat).
  { destruct s as [|c s]; cbn [parse_sign]; [cbn; lia|].
    destruct (Ascii.eqb c "-"); cbn [snd String.length]; lia. }
  destruct (parse_sign s) as [negative s1]. cbn [snd] in L0.
  unfold parse_unsigned, parse_integer.
  pose proof (parse_digits_length s1) as [_ L1].
  destruct (parse_digits s1) as [u r0]. cbn [fst snd] in L1.
  destruct (nonempty u) eqn:Hu; [|discriminate].
  destruct (negb (leading_zero u)); [|discriminate]. cbn [andb].
  assert (String.length r0 < String.length s1)%nat
    by (apply L1; intros ->; discriminate Hu).
  destruct (parse_fraction r0) as [[f r1]|] eqn:Ef; [|discriminate].
  apply parse_fraction_length in Ef.
  destruct (parse_exponent r1) as [[x r2]|] eqn:Ee; [|discriminate].
  apply parse_exponent_length in Ee.
  intros [= _ <-]. lia.
Qed.

Ltac reduce_with H := rewrite H; cbv beta iota.

Lemma parse_fuel (fuel : nat) :
  (forall (s : string) (v : json) (r : string),
      parse_value fuel s = Some (v, r) ->
      (String.length r < String.length s)%nat
      /\ forall f, (String.length s - String.length r <= f)%nat ->
                   parse_value f s = Some (v, r))
  /\ (forall (s : string) (acc : list json) (v : json) (r : string),
        parse_elements fuel s acc = Some (v, r) ->
        (String.length r < String.length s)%nat
        /\ forall f, (String.length s - String.length r <= f)%nat ->
                     parse_elements f s acc = Some (v, r))
  /\ (forall (s : string) (acc : list (string * json)) (v : json) (r : string),
        parse_members fuel s acc = Some (v, r) ->
        (String.length r < String.length s)%nat
        /\ forall f, (String.length s - String.length r <= f)%nat ->
                     parse_members f s acc = Some (v, r)).
Proof.
  induction fuel as [|fuel (IHv & IHe & IHm)]; [repeat split; discriminate|].
  split; [|split].
  - intros s v r H. cbn [parse_value] in H.
    pose proof (skip_ws_length s) as Ls.
    destruct (skip_ws s) as [|c r0] eqn:Es; [discriminate|]. cbn [String.length] in Ls.
    destruct (Ascii.eqb c "[") eqn:E1.
    { pose proof (skip_ws_length r0) as Lr.
      destruct (skip_ws r0) as [|c' r'] eqn:Er; [discriminate|]. cbn [String.length] in Lr.
      destruct (Ascii.eqb c' "]") eqn:E2.
      - injection H as <- <-. split; [lia|]. intros f Hf. destruct f as [|f]; [lia|].
        cbn [parse_value]. reduce_with Es. reduce_with E1. reduce_with Er.
        now reduce_with E2.
      - apply IHe in H as [Hl Hf]. split; [lia|]. intros f Hf'. destruct f as [|f]; [lia|].
        cbn [parse_value]. reduce_with Es. reduce_with E1. reduce_with Er.
        reduce_with E2. apply Hf. lia. }
    destruct (Ascii.eqb c "{") eqn:E3.
    { pose proof (skip_ws_length r0) as Lr.
      destruct (skip_ws r0) as [|c' r'] eqn:Er; [discriminate|]. cbn [String.length] in Lr.
      destruct (Ascii.eqb c' "}") eqn:E2.
      - injection H as <- <-. split; [lia|]. intros f Hf. destruct f as [|f]; [lia|].
        cbn [parse_value]. reduce_with Es. reduce_with E1. reduce_with E3.
        reduce_with Er. now reduce_with E2.
      - apply IHm in H as [Hl Hf]. split; [lia|]. intros f Hf'. destruct f as [|f]; [lia|].
        cbn [parse_value]. reduce_with Es. reduce_with E1. reduce_with E3.
        reduce_with Er. reduce_with E2. apply Hf. lia. }
    destruct (Ascii.eqb c DQUOTE) eqn:E4.
    { destruct (parse_chars r0) as [[str r1]|] eqn:Ec; [|discriminate].
      injection H as <- <-.
      pose proof (parse_chars_length _ r0 str r1 (Nat.le_refl _) Ec).
      split; [lia|]. intros f Hf. destruct f as [|f]; [lia|].
      cbn [parse_value]. reduce_with Es. reduce_with E1. reduce_with E3.
      reduce_with E4. now rewrite Ec. }
    destruct (Ascii.eqb c "n") eqn:E5.
    { destruct (strip_prefix "ull" r0) as [r1|] eqn:Ec; [|discriminate].
      injection H as <- <-. pose proof (strip_prefix_length _ _ _ Ec).
      split; [lia|]. intros f Hf. destruct f as [|f]; [lia|].
      cbn [parse_value]. reduce_with Es. reduce_with E1. reduce_with E3.
      reduce_with E4. reduce_with E5. now rewrite Ec. }
    destruct (Ascii.eqb c "t") eqn:E6.
    { destruct (strip_prefix "rue" r0) as [r1|] eqn:Ec; [|discriminate].
      injection H as <- <-. pose proof (strip_prefix_length _ _ _ Ec).
      split; [lia|]. intros f Hf. destruct f as [|f]; [lia|].
      cbn [parse_value]. reduce_with Es. reduce_with E1. reduce_with E3.
      reduce_with E4. reduce_with E5. reduce_with E6. now rewrite Ec. }
    destruct (Ascii.eqb c "f") eqn:E7.
    { destruct (strip_prefix "alse" r0) as [r1|] eqn:Ec; [|discriminate].
      injection H as <- <-. pose proof (strip_prefix_length _ _ _ Ec).
      split; [lia|]. intros f Hf. destruct f as [|f]; [lia|].
      cbn [parse_value]. reduce_with Es. reduce_with E1. reduce_with E3.
      reduce_with E4. reduce_with E5. reduce_with E6. reduce_with E7. now rewrite Ec. }
    destruct (parse_number (String c r0)) as [[n r1]|] eqn:Ec; [|discriminate].
    injection H as <- <-. pose proof (parse_number_length _ _ _ Ec) as Ln.
    cbn [String.length] in Ln.
    split; [lia|]. intros f Hf. destruct f as [|f]; [lia|].
    cbn [parse_value]. reduce_with Es. reduce_with E1. reduce_with E3.
    reduce_with E4. reduce_with E5. reduce_with E6. reduce_with E7. now rewrite Ec.
  - intros s acc v r H. cbn [parse_elements] in H.
    destruct (parse_value fuel s) as [[x r1]|] eqn:Ev; [|discriminate].
    apply IHv in Ev as [Lv Fv].
    pose proof (skip_ws_length r1) as Lr.
    destruct (skip_ws r1) as [|c r2] eqn:Er; [discriminate|]. cbn [String.length] in Lr.
    destruct (Ascii.eqb c ",") eqn:E1.
    + apply IHe in H as [Le Fe]. split; [lia|]. intros f Hf. destruct f as [|f]; [lia|].
      cbn [parse_elements]. rewrite Fv by lia. reduce_with Er. reduce_with E1.
      apply Fe. lia.
    + destruct (Ascii.eqb c "]") eqn:E2; [|discriminate].
      injection H as <- <-. split; [lia|]. intros f Hf. destruct f as [|f]; [lia|].
      cbn [parse_elements]. rewrite Fv by lia. reduce_with Er. reduce_with E1.
      now reduce_with E2.
  - intros s acc v r H. cbn [parse_members] in H.
    pose proof (skip_ws_length s) as Ls.
    destruct (skip_ws s) as [|q r0] eqn:Es; [discriminate|]. cbn [String.length] in Ls.
    destruct (Ascii.eqb q DQUOTE) eqn:E0; [|discriminate].
    destruct (parse_chars r0) as [[k r1]|] eqn:Ec; [|discriminate].
    pose proof (parse_chars_length _ r0 k r1 (Nat.le_refl _) Ec) as Lc.
    pose proof (skip_ws_length r1) as Lr1.
    destruct (skip_ws r1) as [|c r2] eqn:Er1; [discriminate|]. cbn [String.length] in Lr1.
    destruct (Ascii.eqb c ":") eqn:E1; [|discriminate].
    destruct (parse_value fuel r2) as [[x r3]|] eqn:Ev; [|discriminate].
    apply IHv in Ev as [Lv Fv].
    pose proof (skip_ws_length r3) as Lr3.
    destruct (skip_ws r3) as [|d r4] eqn:Er3; [discriminate|]. cbn [String.length] in Lr3.
    destruct (Ascii.eqb d ",") eqn:E2.
    + apply IHm in H as [Lm Fm]. split; [lia|]. intros f Hf. destruct f as [|f]; [lia|].
      cbn [parse_members]. reduce_with Es. reduce_with E0. reduce_with Ec.
      reduce_with Er1. reduce_with E1. rewrite Fv by lia. reduce_with Er3.
      reduce_with E2. apply Fm. lia.
    + destruct (Ascii.eqb d "}") eqn:E3; [|discriminate].
      injection H as <- <-. split; [lia|]. intros f Hf. destruct f as [|f]; [lia|].
      cbn [parse_members]. reduce_with Es. reduce_with E0. reduce_with Ec.
      reduce_with Er1. reduce_with E1. rewrite Fv by lia. reduce_with Er3.
      reduce_with E2. now reduce_with E3.
Qed.

(** [JSON_parse] refuses a text only if no fuel makes a value of it. *)
Lemma JSON_parse_complete (text : string) (fuel : nat) (v : json) (r : string) :
  parse_value fuel text = Some (v, r) -> skip_ws r = "" ->
  JSON_parse text = Some v.
Proof.
  intros H Hr. unfold JSON_parse.
  destruct (parse_fuel fuel) as (Hv & _). apply Hv in H as [_ H].
  rewrite H by lia. now rewrite Hr.
Qed.

(** ** Dispatch *)

Ltac fields :=
  cbn [outStream logger buffer ongoingRequests agent listeners suspended settled
       cancelCalls provider write log set_buffer set_ongoingRequests set_agent
       set_listeners set_suspended set_settled set_cancelCalls set_provider
       sendResponse fst snd] in *.

Lemma count_log_app (p : log_entry -> bool) (l k : list log_entry) :
  count_log p (l ++ k) = (count_log p l + count_log p k)%nat.
Proof. induction l as [|e l IH]; cbn [app count_log]; [reflexivity | rewrite IH; lia]. Qed.

Section Protocol.

Context {AgentState : Type}.
Variable agentEventNames : list string.
Implicit Types (s : StdIO AgentState) (request : json) (line : string)
  (a : activation) (o : settlement) (h : handle).

(** What [handleRequest] leaves untouched, and what it changes. *)
Lemma cancelRequest_effect request s (b : bool) s' :
  cancelRequest request s = Some (b, s') ->
  outStream s' = outStream s /\ logger s' = logger s /\ buffer s' = buffer s
  /\ agent s' = agent s /\ listeners s' = listeners s /\ suspended s' = suspended s
  /\ settled s' = settled s /\ provider s' = provider s.
Proof.
  unfold cancelRequest. destruct (cancel_target request) as [target|]; [|discriminate].
  destruct (ongoingRequests s !! to_key target) as [ongoing|];
    intros H; injection H as <- <-; [|tauto].
  destruct (isCancelable ongoing); fields; tauto.
Qed.

Lemma handleRequest_completed request s (response : Response) s' :
  handleRequest request s = (Completed response, s') ->
  outStream s' = outStream s /\ buffer s' = buffer s /\ agent s' = agent s
  /\ listeners s' = listeners s /\ suspended s' = suspended s /\ settled s' = settled s
  /\ (logger s' = logger s
      \/ logger s' = logger s ++ [LogError ("Failed to handle request: " +:+ stringify request)]
         /\ snd response = J JNull).
Proof.
  unfold handleRequest, caught.
  destruct (agent s) as [ag|] eqn:Hag; [|intros H; injection H as <- <-; fields; tauto].
  destruct (get_index (J request) 0) as [id|];
    [|intros H; injection H as <- <-; fields; tauto].
  destruct (get_index (J request) 1) as [data|];
    [|intros H; injection H as <- <-; fields; tauto].
  destruct (get_field data "func") as [funcName|];
    [|intros H; injection H as <- <-; fields; tauto].
  destruct (strict_equal funcName "cancelRequest").
  - destruct (cancelRequest request s) as [[b s1]|] eqn:E;
      intros H; injection H as <- <-; [|fields; tauto].
    apply cancelRequest_effect in E. intuition congruence.
  - destruct (agent_member ag (to_key funcName)) as [func|];
      [|intros H; injection H as <- <-; fields; tauto].
    destruct (func _ (provider s)) as [out st].
    destruct out as [|[[|[]]|h]]; intros H; try discriminate H;
      injection H as <- <-; fields; tauto.
Qed.

Lemma handleRequest_awaiting request s a s' :
  handleRequest request s = (Awaiting a, s') ->
  act_request a = request /\ get_index (J request) 0 = Some (act_id a)
  /\ ongoingRequests s' = <[to_key (act_id a) := act_handle a]> (ongoingRequests s)
  /\ outStream s' = outStream s /\ logger s' = logger s /\ buffer s' = buffer s
  /\ agent s' = agent s /\ listeners s' = listeners s /\ suspended s' = suspended s
  /\ settled s' = settled s /\ cancelCalls s' = cancelCalls s
  /\ is_Some (agent s).
Proof.
  unfold handleRequest, caught.
  destruct (agent s) as [ag|] eqn:Hag; [|discriminate].
  destruct (get_index (J request) 0) as [id|]; [|discriminate].
  destruct (get_index (J request) 1) as [data|]; [|discriminate].
  destruct (get_field data "func") as [funcName|]; [|discriminate].
  destruct (strict_equal funcName "cancelRequest").
  - destruct (cancelRequest request s) as [[b s1]|]; discriminate.
  - destruct (agent_member ag (to_key funcName)) as [func|]; [|discriminate].
    destruct (func _ (provider s)) as [out st].
    destruct out as [|[[|[]]|h]]; intros H; try discriminate H.
    injection H as <- <-. fields. repeat split; eauto.
Qed.

(** One decoded request gives one response line at once, or one activation
    waiting for its operation. *)
Lemma dispatch_effect request s :
  received (dispatch request s) = S (received s)
  /\ settled (dispatch request s) = settled s
  /\ ((exists response,
         outStream (dispatch request s) = outStream s ++ [terminated (encode response)]
         /\ suspended (dispatch request s) = suspended s
         /\ sent (dispatch request s) = S (sent s))
      \/ (exists a,
            act_request a = request
            /\ outStream (dispatch request s) = outStream s
            /\ suspended (dispatch request s) = suspended s ++ [a]
            /\ sent (dispatch request s) = sent s)).
Proof.
  unfold dispatch.
  destruct (handleRequest request (log (LogDebug "Received request") s))
    as [[response|a] s1] eqn:E.
  - apply handleRequest_completed in E as (Ho & _ & _ & _ & Hsu & Hse & Hl).
    unfold received, sent. fields. rewrite Ho, Hsu, Hse.
    split; [|split; [reflexivity|left; exists response; split; [reflexivity|split; [reflexivity|]]]];
      destruct Hl as [-> | [-> _]]; rewrite !count_log_app; cbn; lia.
  - apply handleRequest_awaiting in E
      as (Hr & _ & _ & Ho & Hl & _ & _ & _ & Hsu & Hse & _).
    unfold received, sent. fields. rewrite Ho, Hsu, Hse, Hl.
    split; [rewrite count_log_app; cbn; lia|].
    split; [reflexivity|]. right. exists a.
    repeat split; [exact Hr|]. rewrite count_log_app. cbn. lia.
Qed.

Lemma handle_line_effect s line :
  received (handle_line s line) = ((if parses line then 1 else 0) + received s)%nat
  /\ (sent (handle_line s line) + length (suspended (handle_line s line))
      = (if parses line then 1 else 0) + (sent s + length (suspended s)))%nat
  /\ settled (handle_line s line) = settled s.
Proof.
  unfold handle_line, parses. destruct (JSON_parse line) as [request|].
  - destruct (dispatch_effect request s)
      as (Hr & Hs & [(response & _ & Hsu & Hse) | (a & _ & _ & Hsu & Hse)]);
      rewrite Hr, Hs, Hsu, Hse, ?length_app; cbn [length]; repeat split; lia.
  - unfold received, sent. fields. rewrite !count_log_app. cbn. repeat split; lia.
Qed.

Lemma handle_lines_effect (lines : list string) s :
  received (fold_left handle_line lines s)
  = (length (List.filter parses lines) + received s)%nat
  /\ (sent (fold_left handle_line lines s)
      + length (suspended (fold_left handle_line lines s))
      = length (List.filter parses lines) + (sent s + length (suspended s)))%nat
  /\ settled (fold_left handle_line lines s) = settled s.
Proof.
  revert s. induction lines as [|l lines IH]; intros s; cbn [fold_left List.filter].
  - repeat split; lia.
  - destruct (IH (handle_line s l)) as (H1 & H2 & H3).
    destruct (handle_line_effect s l) as (G1 & G2 & G3).
    rewrite H1, H2, H3, G1, G2, G3.
    destruct (parses l); cbn [length]; repeat split; lia.
Qed.

(** The rest of an activation: one response line, whatever the outcome of
    the awaited operation. *)
Lemma resume_effect a o s :
  outStream (resume a o s)
  = outStream s ++ [terminated (encode (act_id a,
                                        match o with Fulfilled v => v | Rejected => J JNull end))]
  /\ received (resume a o s) = received s
  /\ sent (resume a o s) = S (sent s)
  /\ settled (resume a o s) = settled s
  /\ suspended (resume a o s) = suspended s
  /\ listeners (resume a o s) = listeners s
  /\ agent (resume a o s) = agent s
  /\ buffer (resume a o s) = buffer s.
Proof.
  unfold resume, caught, received, sent.
  destruct o as [v|]; fields; rewrite !count_log_app; cbn [count_log is_debug String.eqb];
    repeat split; cbn; lia.
Qed.

Lemma drain_list_effect (l : list activation) s :
  (sent (snd (drain_list l s)) + length (fst (drain_list l s)) = sent s + length l)%nat
  /\ received (snd (drain_list l s)) = received s
  /\ settled (snd (drain_list l s)) = settled s
  /\ listeners (snd (drain_list l s)) = listeners s
  /\ agent (snd (drain_list l s)) = agent s
  /\ buffer (snd (drain_list l s)) = buffer s
  /\ Forall (fun a => settled s !! act_handle a = None) (fst (drain_list l s))
  /\ (Forall (fun a => settled s !! act_handle a = None) l ->
      drain_list l s = (l, s)).
Proof.
  revert s. induction l as [|a l IH]; intros s; cbn [drain_list].
  - repeat split; constructor.
  - destruct (settled s !! act_handle a) as [o|] eqn:E.
    + destruct (IH (resume a o s)) as (H1 & H2 & H3 & H4 & H5 & H6 & H7 & _).
      destruct (resume_effect a o s) as (_ & G2 & G3 & G4 & _ & G6 & G7 & G8).
      rewrite H1, H2, H3, H4, H5, H6, G2, G3, G4, G6, G7, G8.
      rewrite G4 in H7. cbn [length].
      repeat split; [lia | exact H7 |].
      intros F. inversion F; congruence.
    + destruct (IH s) as (H1 & H2 & H3 & H4 & H5 & H6 & H7 & H8).
      destruct (drain_list l s) as [k s']. fields. cbn [length].
      repeat split; [lia | assumption .. | now constructor |].
      intros F. inversion F as [|? ? _ F']; subst.
      specialize (H8 F'). now injection H8 as -> ->.
Qed.

Lemma drain_effect s :
  (sent (drain s) + length (suspended (drain s)) = sent s + length (suspended s))%nat
  /\ received (drain s) = received s
  /\ settled (drain s) = settled s
  /\ listeners (drain s) = listeners s
  /\ agent (drain s) = agent s
  /\ buffer (drain s) = buffer s
  /\ Forall (fun a => settled (drain s) !! act_handle a = None) (suspended (drain s)).
Proof.
  unfold drain.
  destruct (drain_list_effect (suspended s) s) as (H1 & H2 & H3 & H4 & H5 & H6 & H7 & _).
  destruct (drain_list (suspended s) s) as [k s']. unfold received, sent in *. fields.
  rewrite H3. repeat split; assumption.
Qed.

(** Nothing waits whose operation is settled: at the end of a turn there is
    nothing left to run. *)
Lemma drain_idle s :
  Forall (fun a => settled s !! act_handle a = None) (suspended s) -> drain s = s.
Proof.
  intros F. unfold drain.
  destruct (drain_list_effect (suspended s) s) as (_ & _ & _ & _ & _ & _ & _ & H).
  rewrite (H F). now destruct s.
Qed.

Lemma handleInput_effect (chunk : string) s :
  (sent (handleInput chunk s) + length (suspended (handleInput chunk s))
   = length (List.filter parses (fst (frame (buffer s) chunk)))
     + (sent s + length (suspended s)))%nat
  /\ received (handleInput chunk s)
     = (length (List.filter parses (fst (frame (buffer s) chunk))) + received s)%nat.
Proof.
  rewrite handleInput_lines.
  destruct (handle_lines_effect (fst (frame (buffer s) chunk)) s) as (H1 & H2 & _).
  unfold received, sent in *. fields. split; assumption.
Qed.

Lemma emit_listeners (from : nat) (name : string) (payload : value)
    (ls : list (nat * string)) s :
  let s' :=
    fold_left
      (fun s l =>
         if Nat.eqb (fst l) from && String.eqb (snd l) name
         then sendResponse (J (JNum 0), payload) s
         else s) ls s in
  outStream s'
  = outStream s
    ++ repeat (terminated (encode (J (JNum 0), payload)))
         (length (List.filter
                    (fun l => Nat.eqb (fst l) from && String.eqb (snd l) name) ls))
  /\ logger s' = logger s /\ buffer s' = buffer s
  /\ ongoingRequests s' = ongoingRequests s /\ agent s' = agent s
  /\ listeners s' = listeners s /\ suspended s' = suspended s
  /\ settled s' = settled s /\ cancelCalls s' = cancelCalls s
  /\ provider s' = provider s.
Proof.
  revert s. induction ls as [|l ls IH]; intros s; cbn [fold_left List.filter].
  - cbn [length repeat]. rewrite app_nil_r. repeat split.
  - destruct (Nat.eqb (fst l) from && String.eqb (snd l) name).
    + destruct (IH (sendResponse (J (JNum 0), payload) s))
        as (H1 & H2 & H3 & H4 & H5 & H6 & H7 & H8 & H9 & H10).
      cbv zeta. rewrite H1, H2, H3, H4, H5, H6, H7, H8, H9, H10. fields.
      cbn [length repeat]. rewrite <- app_assoc. repeat split.
    + apply IH.
Qed.

Lemma emit_effect (from : nat) (name : string) (payload : value) s :
  outStream (emit from name payload s)
  = outStream s
    ++ repeat (terminated (encode (J (JNum 0), payload)))
         (length (List.filter
                    (fun l => Nat.eqb (fst l) from && String.eqb (snd l) name)
                    (listeners s)))
  /\ logger (emit from name payload s) = logger s
  /\ buffer (emit from name payload s) = buffer s
  /\ ongoingRequests (emit from name payload s) = ongoingRequests s
  /\ agent (emit from name payload s) = agent s
  /\ listeners (emit from name payload s) = listeners s
  /\ suspended (emit from name payload s) = suspended s
  /\ settled (emit from name payload s) = settled s
  /\ cancelCalls (emit from name payload s) = cancelCalls s
  /\ provider (emit from name payload s) = provider s.
Proof. apply emit_listeners. Qed.

(** In every state that the event loop reaches, each decoded request has
    been answered once or waits for its operation, and no activation waits
    for an operation that is settled. *)
Lemma step_balance s (e : event AgentState) :
  received s = (sent s + length (suspended s))%nat ->
  received (step agentEventNames s e)
  = (sent (step agentEventNames s e) + length (suspended (step agentEventNames s e)))%nat.
Proof.
  intros B. unfold step.
  match goal with |- context [drain ?x] =>
    destruct (drain_effect x) as (H1 & H2 & _); rewrite H1, H2 end.
  destruct e as [ag|chunk|from name payload|h o|st].
  - exact B.
  - destruct (handleInput_effect chunk s) as (G1 & G2). rewrite G1, G2. lia.
  - destruct (emit_effect from name payload s) as (_ & Hl & _ & _ & _ & _ & Hs & _).
    unfold received, sent. now rewrite Hl, Hs.
  - unfold settle. now destruct (settled s !! h).
  - exact B.
Qed.

Lemma step_idle s (e : event AgentState) :
  Forall (fun a => settled (step agentEventNames s e) !! act_handle a = None)
         (suspended (step agentEventNames s e)).
Proof. unfold step. apply drain_effect. Qed.

Lemma run_balance (trace : list (event AgentState)) s :
  received s = (sent s + length (suspended s))%nat ->
  received (run agentEventNames s trace)
  = (sent (run agentEventNames s trace)
     + length (suspended (run agentEventNames s trace)))%nat.
Proof.
  revert s. induction trace as [|e trace IH]; intros s B; [exact B|].
  apply IH, step_balance, B.
Qed.

Lemma run_snoc (trace : list (event AgentState)) (e : event AgentState) s :
  run agentEventNames s (trace ++ [e])
  = step agentEventNames (run agentEventNames s trace) e.
Proof. unfold run. now rewrite fold_left_app. Qed.

(** The loop of [handleInput] keeps the provider bound and its
    subscriptions. *)
Lemma handle_line_frame s line :
  listeners (handle_line s line) = listeners s
  /\ agent (handle_line s line) = agent s.
Proof.
  unfold handle_line. destruct (JSON_parse line) as [request|]; [|split; reflexivity].
  unfold dispatch.
  destruct (handleRequest request (log (LogDebug "Received request") s))
    as [[response|a] s1] eqn:E.
  - apply handleRequest_completed in E as (_ & _ & Ha & Hl & _). fields. now split.
  - apply handleRequest_awaiting in E as (_ & _ & _ & _ & _ & _ & Ha & Hl & _).
    fields. now split.
Qed.

Lemma handleInput_frame (chunk : string) s :
  listeners (handleInput chunk s) = listeners s
  /\ agent (handleInput chunk s) = agent s.
Proof.
  rewrite handleInput_lines. fields.
  generalize (fst (frame (buffer s) chunk)) as lines. intros lines. revert s.
  induction lines as [|l lines IH]; intros s; cbn [fold_left]; [split; reflexivity|].
  destruct (IH (handle_line s l)) as [H1 H2].
  destruct (handle_line_frame s l) as [G1 G2].
  rewrite H1, H2. now split.
Qed.

(** The subscriptions of the provider [from] to the event [name]. *)
Lemma step_listeners s (e : event AgentState) :
  listeners (step agentEventNames s e)
  = listeners s
    ++ match e with
       | Bind b => map (fun eventName => (agent_id b, eventName)) agentEventNames
       | _ => []
       end.
Proof.
  unfold step.
  match goal with |- context [drain ?x] =>
    destruct (drain_effect x) as (_ & _ & _ & H & _); rewrite H end.
  destruct e as [ag|chunk|from name payload|h o|st]; rewrite ?app_nil_r.
  - reflexivity.
  - apply handleInput_frame.
  - apply emit_effect.
  - unfold settle. now destruct (settled s !! h).
  - reflexivity.
Qed.

Lemma subscriptions_other (from other : nat) (name : string) (names : list string) :
  other <> from ->
  List.filter (fun l => Nat.eqb (fst l) from && String.eqb (snd l) name)
    (map (fun eventName => (other, eventName)) names) = [].
Proof.
  intros Hne. induction names as [|n names IH]; cbn [map List.filter fst snd]; [reflexivity|].
  destruct (Nat.eqb_spec other from) as [E|_]; [contradiction | exact IH].
Qed.

Lemma subscriptions_once (from : nat) (name : string) (names : list string) :
  List.NoDup names -> List.In name names ->
  length (List.filter (fun l => Nat.eqb (fst l) from && String.eqb (snd l) name)
            (map (fun eventName => (from, eventName)) names)) = 1%nat.
Proof.
  induction 1 as [|n names Hn Hnd IH]; intros Hin; [destruct Hin|].
  cbn [map List.filter fst snd]. rewrite Nat.eqb_refl. cbn [andb].
  destruct (String.eqb_spec n name) as [->|Hne].
  - cbn [length]. f_equal.
    assert (Hnone : forall k, ~ List.In name k ->
              List.filter (fun l => Nat.eqb (fst l) from && String.eqb (snd l) name)
                (map (fun eventName => (from, eventName)) k) = []).
    { induction k as [|x k IHk]; intros Hk; [reflexivity|].
      cbn [map List.filter fst snd]. rewrite Nat.eqb_refl. cbn [andb].
      destruct (String.eqb_spec x name) as [->|_].
      - exfalso. apply Hk. now left.
      - apply IHk. intros Hx. apply Hk. now right. }
    now rewrite (Hnone names Hn).
  - apply IH. destruct Hin as [->|Hin]; [contradiction | exact Hin].
Qed.

Lemma run_subscriptions (from : nat) (name : string)
    (trace : list (event AgentState)) s :
  Forall (fun e => binds from e = false) trace ->
  List.filter (fun l => Nat.eqb (fst l) from && String.eqb (snd l) name)
    (listeners (run agentEventNames s trace))
  = List.filter (fun l => Nat.eqb (fst l) from && String.eqb (snd l) name) (listeners s).
Proof.
  intros F. revert s. induction F as [|e trace He _ IH]; intros s; [reflexivity|].
  cbn [run fold_left]. fold (run agentEventNames (step agentEventNames s e) trace).
  rewrite IH, step_listeners, List.filter_app.
  destruct e as [b| | | |]; rewrite ?app_nil_r; try reflexivity.
  cbn [binds] in He. apply Nat.eqb_neq in He.
  now rewrite (subscriptions_other from (agent_id b) name agentEventNames He), app_nil_r.
Qed.

Lemma run_idle (trace : list (event AgentState)) (e : event AgentState) s :
  Forall (fun a => settled (run agentEventNames s (e :: trace)) !! act_handle a = None)
         (suspended (run agentEventNames s (e :: trace))).
Proof.
  destruct (exists_last (l := e :: trace)) as (t & e' & ->); [discriminate|].
  rewrite run_snoc. apply step_idle.
Qed.

End Protocol.

(** ** The claims about dispatch *)

Lemma frame_one_line (x : string) :
  occurs LF x = false -> frame "" (terminated x) = ([terminated x], "").
Proof.
  intros H. pose proof (frame_lines [x] "" (Forall_cons_2 _ _ _ H (List.Forall_nil _)) eq_refl) as F.
  cbn [map concat_text] in F. now rewrite !text_app_nil_r in F.
Qed.

Lemma handleInput_one_line {AgentState : Type} (s : StdIO AgentState) (x : string) :
  buffer s = "" -> occurs LF x = false ->
  handleInput (terminated x) s = handle_line s (terminated x).
Proof.
  intros Hb Hx. unfold handleInput. rewrite Hb, (frame_one_line x Hx).
  cbn [fold_left]. now rewrite <- Hb, set_buffer_buffer.
Qed.

Lemma JSON_parse_line (request : json) :
  well_formed request = true -> JSON_parse (line_of request) = Some request.
Proof. intros H. now apply JSON_parse_stringify. Qed.

Lemma handleInput_request {AgentState : Type} (s : StdIO AgentState) (request : json) :
  buffer s = "" -> well_formed request = true ->
  handleInput (line_of request) s = dispatch request s.
Proof.
  intros Hb Hwf. unfold line_of. rewrite handleInput_one_line.
  - unfold handle_line. fold (line_of request). now rewrite JSON_parse_line.
  - exact Hb.
  - apply printable_occurs; [reflexivity | apply printable_stringify].
Qed.



(** C1. While no provider is bound, the response to a request is
    [[0, null]], whatever the id and the function of the request: that is
    what [handleRequest] returns and what the line of the request makes
    [handleInput] write. *)
Theorem unbound_response {AgentState : Type} (s : StdIO AgentState) (request : json) :
  agent s = None ->
  fst (handleRequest request s) = Completed (J (JNum 0), J JNull)
  /\ encode (J (JNum 0), J JNull) = "[0,null]"
  /\ outStream (dispatch request s) = outStream s ++ [terminated "[0,null]"]
  /\ (forall line, JSON_parse line = Some request ->
        outStream (handle_line s line) = outStream s ++ [terminated "[0,null]"])
  /\ (buffer s = "" -> well_formed request = true ->
      outStream (handleInput (line_of request) s) = outStream s ++ [terminated "[0,null]"]).
Proof.
  intros Ha.
  assert (H1 : forall s' : StdIO AgentState, agent s' = None ->
            handleRequest request s'
            = caught request (J (JNum 0), J JNull) s')
    by (intros s' Hs'; unfold handleRequest; now rewrite Hs').
  assert (H2 : outStream (dispatch request s) = outStream s ++ [terminated "[0,null]"])
    by (unfold dispatch; rewrite H1 by exact Ha; reflexivity).
  split; [now rewrite (H1 s Ha)|]. split; [reflexivity|]. split; [exact H2|]. split.
  - intros line Hline. unfold handle_line. now rewrite Hline.
  - intros Hb Hwf. now rewrite handleInput_request.
Qed.

(** C6. Cancelling a target id that has an entry removes the entry and
    returns [true]; [cancel()] is called on the operation, once, exactly
    when it is a [CancelablePromise]; an operation of another kind is not
    touched, and in both cases neither the settled operations nor the
    waiting activations change. *)
Theorem cancel_tracked {AgentState : Type} (s : StdIO AgentState)
    (request : json) (target : Z) (ongoing : handle) :
  cancel_target request = Some (J (JNum target)) ->
  ongoingRequests s !! number_to_string target = Some ongoing ->
  exists s',
    cancelRequest request s = Some (true, s')
    /\ ongoingRequests s' = delete (number_to_string target) (ongoingRequests s)
    /\ ongoingRequests s' !! number_to_string target = None
    /\ cancelCalls s' = cancelCalls s ++ (if isCancelable ongoing then [ongoing] else [])
    /\ (isCancelable ongoing = false ->
        s' = set_ongoingRequests (delete (number_to_string target) (ongoingRequests s)) s)
    /\ settled s' = settled s /\ suspended s' = suspended s
    /\ outStream s' = outStream s /\ provider s' = provider s.
Proof.
  intros Ht Ho. unfold cancelRequest. rewrite Ht. cbn [to_key ToString]. rewrite Ho.
  eexists. split; [reflexivity|].
  destruct (isCancelable ongoing); fields; rewrite ?app_nil_r;
    repeat split; try apply lookup_delete_eq; discriminate.
Qed.

Lemma cancel_target_request (id target : json) :
  cancel_target (CancellationRequest id target) = Some (J target).
Proof. reflexivity. Qed.

Lemma handleRequest_cancel {AgentState : Type} (s : StdIO AgentState)
    (a : Agent AgentState) (id target : json) :
  agent s = Some a ->
  handleRequest (CancellationRequest id target) s
  = match cancelRequest (CancellationRequest id target) s with
    | None => caught (CancellationRequest id target) (J id, J JNull) s
    | Some (b, s') => (Completed (J id, J (JBool b)), s')
    end.
Proof. intros Ha. unfold handleRequest. rewrite Ha. reflexivity. Qed.

Lemma well_formed_request (id : json) (func : string) (args : list json) :
  well_formed id = true -> forallb well_formed args = true ->
  well_formed (AgentFunctionRequest id func args) = true.
Proof.
  intros Hid Hargs. unfold AgentFunctionRequest.
  cbn [well_formed forallb map fst snd distinct existsb negb andb orb String.eqb].
  rewrite Hid, Hargs. reflexivity.
Qed.

(** C5, as the source has it.  Cancelling a target id that has no entry
    returns [false] and changes nothing; and while a provider is bound, the
    line of such a cancellation request is answered with [[id, false]]. *)
Theorem cancel_untracked {AgentState : Type} (s : StdIO AgentState) (id target : Z) :
  ongoingRequests s !! number_to_string target = None ->
  cancelRequest (CancellationRequest (JNum id) (JNum target)) s = Some (false, s)
  /\ (is_Some (agent s) ->
      well_formed (JNum id) = true -> well_formed (JNum target) = true ->
      buffer s = "" ->
      let s' := handleInput (line_of (CancellationRequest (JNum id) (JNum target))) s in
      outStream s' = outStream s ++ [terminated ("[" +:+ number_to_string id +:+ ",false]")]
      /\ ongoingRequests s' = ongoingRequests s
      /\ suspended s' = suspended s).
Proof.
  intros Hnone.
  assert (Hc : forall s' : StdIO AgentState,
            ongoingRequests s' = ongoingRequests s ->
            cancelRequest (CancellationRequest (JNum id) (JNum target)) s' = Some (false, s')).
  { intros s' Hs'. unfold cancelRequest.
    rewrite cancel_target_request, Hs'. cbn [to_key ToString]. now rewrite Hnone. }
  split; [now apply Hc|].
  intros [a Ha] Hid Htarget Hb s'. unfold s'.
  rewrite handleInput_request;
    [| exact Hb | apply well_formed_request; [exact Hid | cbn [forallb]; now rewrite Htarget]].
  unfold dispatch.
  rewrite (handleRequest_cancel _ a) by exact Ha.
  rewrite Hc by reflexivity. fields. split; [|split; reflexivity].
  f_equal. f_equal. unfold terminated, encode. f_equal.
  cbn [fst snd slot stringify map commas]. now rewrite !text_app_assoc.
Qed.

(** C5 as stated fails before [bind]: the line of a cancellation request
    for an id without entry is answered with [[0, null]], not with
    [[7, false]]. *)
Lemma cancel_line_before_bind :
  ongoingRequests (new_StdIO tt) !! number_to_string 3 = None
  /\ outStream (handleInput (line_of (CancellationRequest (JNum 7) (JNum 3))) (new_StdIO tt))
     = [terminated "[0,null]"]
  /\ outStream (handleInput (line_of (CancellationRequest (JNum 7) (JNum 3))) (new_StdIO tt))
     <> outStream (new_StdIO tt) ++ [terminated "[7,false]"].
Proof. split; [reflexivity|]. split; [vm_compute; reflexivity | vm_compute; discriminate]. Qed.

(** C8, as the source has it.  Once a provider is bound, and bound once
    (none of its listeners was subscribed before, and it is not bound again),
    each event that it emits under one of the subscribed names, each listed
    once, writes exactly one line [[0, payload]], and neither the entries of
    pending requests nor the waiting activations change. *)
Theorem event_forwarded {AgentState : Type} (agentEventNames : list string)
    (s : StdIO AgentState) (a : Agent AgentState) (trace : list (event AgentState))
    (name : string) (payload : value) :
  List.NoDup agentEventNames ->
  List.In name agentEventNames ->
  List.filter (fun l => Nat.eqb (fst l) (agent_id a)) (listeners s) = [] ->
  Forall (fun e => binds (agent_id a) e = false) trace ->
  let s1 := run agentEventNames s (Bind a :: trace) in
  let s2 := step agentEventNames s1 (Emit (agent_id a) name payload) in
  outStream s2 = outStream s1 ++ [terminated (encode (J (JNum 0), payload))]
  /\ encode (J (JNum 0), payload) = "[0," +:+ stringify (slot payload) +:+ "]"
  /\ ongoingRequests s2 = ongoingRequests s1
  /\ suspended s2 = suspended s1
  /\ settled s2 = settled s1
  /\ logger s2 = logger s1.
Proof.
  intros Hnd Hin Hnew Htrace s1 s2.
  assert (Hsub : length (List.filter
                    (fun l => Nat.eqb (fst l) (agent_id a) && String.eqb (snd l) name)
                    (listeners s1)) = 1%nat).
  { unfold s1. cbn [run fold_left].
    fold (run agentEventNames (step agentEventNames s (Bind a)) trace).
    rewrite (run_subscriptions agentEventNames _ _ _ _ Htrace), step_listeners.
    rewrite List.filter_app, length_app, (subscriptions_once _ _ _ Hnd Hin).
    assert (E : List.filter
                  (fun l => Nat.eqb (fst l) (agent_id a) && String.eqb (snd l) name)
                  (listeners s) = []).
    { clear -Hnew. induction (listeners s) as [|l ls IH]; [reflexivity|].
      cbn [List.filter] in *. destruct (Nat.eqb (fst l) (agent_id a)); [discriminate|].
      cbn [andb]. now apply IH. }
    now rewrite E. }
  destruct (emit_effect (agent_id a) name payload s1)
    as (Ho & Hl & _ & Hr & _ & _ & Hsu & Hse & _).
  assert (Hidle : drain (emit (agent_id a) name payload s1)
                  = emit (agent_id a) name payload s1).
  { apply drain_idle. rewrite Hsu, Hse. apply run_idle. }
  unfold s2, step. rewrite Hidle, Ho, Hsub, Hl, Hr, Hsu, Hse. cbn [repeat].
  repeat split.
Qed.

(** C8 as stated fails for a provider that is bound twice: [bind] adds
    its listeners at each call and removes none, so that one event writes
    two lines. *)
Lemma event_after_second_bind :
  let s := run example_events (new_StdIO tt) [Bind example_agent; Bind example_agent] in
  outStream s = []
  /\ outStream (step example_events s (Emit (agent_id example_agent) "statusChanged"
                                         (J (JBool true))))
     = [terminated "[0,true]"; terminated "[0,true]"].
Proof. split; vm_compute; reflexivity. Qed.

(** C7, as the source has it.  A line that [JSON.parse] refuses (no run
    of the parser makes a value of it) is logged and skipped: it writes no
    response, suspends nothing and touches no entry; the lines before and
    after it in the chunk are handled as usual, and the buffer is what the
    framer keeps.  A line that parses is dispatched, whatever its shape; and
    the line that [JSON.stringify] writes for a value does parse, whatever
    the value: a number with a fraction, a string of any characters. *)
Theorem unparseable_line_skipped {AgentState : Type} (s : StdIO AgentState)
    (line : string) :
  JSON_parse line = None ->
  handle_line s line = log (LogError ("Failed to parse request: " +:+ line)) s
  /\ outStream (handle_line s line) = outStream s
  /\ suspended (handle_line s line) = suspended s
  /\ ongoingRequests (handle_line s line) = ongoingRequests s
  /\ received (handle_line s line) = received s
  /\ (forall (chunk : string) (before after : list string) (rest : string),
        frame (buffer s) chunk = (before ++ line :: after, rest) ->
        handleInput chunk s
        = set_buffer rest
            (fold_left handle_line after
               (log (LogError ("Failed to parse request: " +:+ line))
                  (fold_left handle_line before s))))
  /\ (forall (other : string) (request : json),
        JSON_parse other = Some request ->
        handle_line s other = dispatch request s
        /\ received (handle_line s other) = S (received s))
  /\ (forall (fuel : nat) (v : json) (r : string),
        parse_value fuel line = Some (v, r) -> skip_ws r <> "")
  /\ (forall request : json,
        well_formed request = true ->
        JSON_parse (line_of request) = Some request
        /\ handle_line s (line_of request) = dispatch request s).
Proof.
  intros Hline.
  assert (H : forall s' : StdIO AgentState,
            handle_line s' line = log (LogError ("Failed to parse request: " +:+ line)) s')
    by (intros s'; unfold handle_line; now rewrite Hline).
  rewrite H.
  split; [reflexivity|]. split; [reflexivity|]. split; [reflexivity|].
  split; [reflexivity|]. split; [|split; [|split; [|split]]].
  - unfold received. fields. rewrite count_log_app. cbn. lia.
  - intros chunk before after rest Hframe.
    rewrite handleInput_lines, Hframe. cbn [fst snd].
    rewrite fold_left_app. cbn [fold_left]. now rewrite H.
  - intros other request Hother. unfold handle_line. rewrite Hother.
    split; [reflexivity | apply dispatch_effect].
  - intros fuel v r Hv Hr.
    rewrite (JSON_parse_complete line fuel v r Hv Hr) in Hline. discriminate.
  - intros request Hwf. split; [now apply JSON_parse_line|].
    unfold handle_line. now rewrite JSON_parse_line.
Qed.

(** C7 as stated fails for a line that parses without having the shape of
    a request: [[1]] is answered, with [[0, null]] before [bind] and with
    [[1, null]] after it. *)
Lemma wrong_shape_answered :
  JSON_parse (terminated "[1]") = Some (JArr [JNum 1])
  /\ has_request_shape (JArr [JNum 1]) = false
  /\ outStream (handleInput (terminated "[1]") (new_StdIO tt)) = [terminated "[0,null]"]
  /\ outStream (run example_events (new_StdIO tt)
                  [Bind example_agent; Data (terminated "[1]")])
     = [terminated "[1,null]"].
Proof. repeat split; vm_compute; reflexivity. Qed.

Lemma handleRequest_fault {AgentState : Type} (s : StdIO AgentState)
    (request : json) (response : Response) (s' : StdIO AgentState) :
  handleRequest request s = (Completed response, s') ->
  logger s' <> logger s -> snd response = J JNull.
Proof.
  intros H Hl. apply handleRequest_completed in H as (_ & _ & _ & _ & _ & _ & [E|[_ E]]);
    [contradiction | exact E].
Qed.

Lemma handleRequest_unknown {AgentState : Type} (s : StdIO AgentState)
    (a : Agent AgentState) (id : json) (func : string) (args : list json) :
  agent s = Some a -> String.eqb func "cancelRequest" = false ->
  agent_member a func = None ->
  fst (handleRequest (AgentFunctionRequest id func args) s) = Completed (J id, J JNull).
Proof.
  intros Ha Hf Hm. unfold handleRequest. rewrite Ha.
  cbn [AgentFunctionRequest get_index get_field nth_error own_property String.eqb
       Ascii.eqb Bool.eqb strict_equal to_key ToString].
  now rewrite Hf, Hm.
Qed.

Lemma handleRequest_throws {AgentState : Type} (s : StdIO AgentState)
    (a : Agent AgentState) (id : json) (func : string) (args : list json)
    (f : value -> AgentState -> outcome * AgentState) (st : AgentState) :
  agent s = Some a -> String.eqb func "cancelRequest" = false ->
  agent_member a func = Some f ->
  f (J (JArr args)) (provider s) = (Throws, st) ->
  fst (handleRequest (AgentFunctionRequest id func args) s) = Completed (J id, J JNull).
Proof.
  intros Ha Hf Hm Hthrow. unfold handleRequest. rewrite Ha.
  cbn [AgentFunctionRequest get_index get_field nth_error own_property String.eqb
       Ascii.eqb Bool.eqb strict_equal to_key ToString].
  now rewrite Hf, Hm, Hthrow.
Qed.

(** C3. Each decoded request is answered exactly once: in every state that
    the event loop reaches, the requests received are those answered and
    those that wait, and none waits for a settled operation; a dispatch
    writes one response line or suspends one activation, and a resumed
    activation writes one line.  A fault is caught and answered with a
    null payload: every run of the [catch] clause, an unknown function, a
    provider that throws, a rejected operation.  A fault stops nothing:
    every later line that parses is dispatched. *)
Theorem one_response_per_request {AgentState : Type} (agentEventNames : list string)
    (st : AgentState) (trace : list (event AgentState)) :
  let s := run agentEventNames (new_StdIO st) trace in
  received s = (sent s + length (suspended s))%nat
  /\ Forall (fun a => settled s !! act_handle a = None) (suspended s)
  /\ (forall (s : StdIO AgentState) (request : json),
        (exists response,
           outStream (dispatch request s) = outStream s ++ [terminated (encode response)]
           /\ suspended (dispatch request s) = suspended s)
        \/ (exists a,
              act_request a = request
              /\ outStream (dispatch request s) = outStream s
              /\ suspended (dispatch request s) = suspended s ++ [a]))
  /\ (forall (s : StdIO AgentState) (a : activation) (o : settlement),
        outStream (resume a o s)
        = outStream s
          ++ [terminated (encode (act_id a,
                                  match o with Fulfilled v => v | Rejected => J JNull end))])
  /\ (forall (s s' : StdIO AgentState) (request : json) (response : Response),
        handleRequest request s = (Completed response, s') ->
        logger s' <> logger s -> snd response = J JNull)
  /\ (forall (s : StdIO AgentState) (a : Agent AgentState) (id : json) (func : string)
             (args : list json),
        agent s = Some a -> String.eqb func "cancelRequest" = false ->
        agent_member a func = None
        \/ (exists f st', agent_member a func = Some f
                          /\ f (J (JArr args)) (provider s) = (Throws, st')) ->
        fst (handleRequest (AgentFunctionRequest id func args) s)
        = Completed (J id, J JNull))
  /\ (forall (s : StdIO AgentState) (lines : list string),
        received (fold_left handle_line lines s)
        = (length (List.filter parses lines) + received s)%nat).
Proof.
  intros s. split; [|split; [|split; [|split; [|split; [|split]]]]].
  - apply run_balance. reflexivity.
  - unfold s. destruct trace as [|e trace]; [constructor | apply run_idle].
  - intros s0 request.
    destruct (dispatch_effect request s0)
      as (_ & _ & [(response & H1 & H2 & _) | (a & H1 & H2 & H3 & _)]); eauto.
  - intros s0 a o. apply resume_effect.
  - intros s0 s' request response. apply handleRequest_fault.
  - intros s0 a id func args Ha Hf [Hm | (f & st' & Hm & Ht)].
    + now apply (handleRequest_unknown s0 a).
    + now apply (handleRequest_throws s0 a id func args f st').
  - intros s0 lines. apply handle_lines_effect.
Qed.

(** ** Entries and completion *)

Section Entries.

Context {AgentState : Type}.
Implicit Types (s : StdIO AgentState) (a : activation) (o : settlement) (k : string).

Lemma resume_entries a o s :
  ongoingRequests (resume a o s)
  = match o with
    | Fulfilled _ => delete (to_key (act_id a)) (ongoingRequests s)
    | Rejected => ongoingRequests s
    end.
Proof. now destruct o. Qed.

Lemma resume_absent a o s k :
  ongoingRequests s !! k = None -> ongoingRequests (resume a o s) !! k = None.
Proof.
  intros H. rewrite resume_entries. destruct o; [|exact H].
  rewrite lookup_delete. now case_decide.
Qed.

Lemma drain_list_absent (l : list activation) s k :
  ongoingRequests s !! k = None ->
  ongoingRequests (snd (drain_list l s)) !! k = None.
Proof.
  revert s. induction l as [|a l IH]; intros s H; cbn [drain_list]; [exact H|].
  destruct (settled s !! act_handle a) as [o|].
  - apply IH, resume_absent, H.
  - specialize (IH s H). now destruct (drain_list l s).
Qed.

Lemma resume_settled a o s : settled (resume a o s) = settled s.
Proof. now destruct o. Qed.

Lemma drain_list_deletes (l : list activation) s a (v : value) :
  List.In a l -> settled s !! act_handle a = Some (Fulfilled v) ->
  ongoingRequests (snd (drain_list l s)) !! to_key (act_id a) = None.
Proof.
  revert s. induction l as [|b l IH]; intros s Hin Hs; [destruct Hin|].
  cbn [drain_list]. destruct Hin as [->|Hin].
  - rewrite Hs. apply drain_list_absent. rewrite resume_entries. apply lookup_delete_eq.
  - destruct (settled s !! act_handle b) as [o|].
    + apply IH; [exact Hin | now rewrite resume_settled].
    + specialize (IH s Hin Hs). now destruct (drain_list l s).
Qed.

Lemma drain_list_keeps (l : list activation) s a :
  List.In a l -> settled s !! act_handle a = None ->
  List.In a (fst (drain_list l s)).
Proof.
  revert s. induction l as [|b l IH]; intros s Hin Hs; [destruct Hin|].
  cbn [drain_list]. destruct (settled s !! act_handle b) as [o|] eqn:E.
  - destruct Hin as [->|Hin]; [congruence|].
    apply IH; [exact Hin | now rewrite resume_settled].
  - specialize (IH s). destruct (drain_list l s) as [k s']. cbn [fst] in *.
    destruct Hin as [->|Hin]; [now left | right; now apply IH].
Qed.

Lemma dispatch_awaiting (request : json) s a s1 :
  handleRequest request (log (LogDebug "Received request") s) = (Awaiting a, s1) ->
  dispatch request s = set_suspended (suspended s ++ [a]) s1
  /\ ongoingRequests (dispatch request s)
     = <[to_key (act_id a) := act_handle a]> (ongoingRequests s)
  /\ suspended (dispatch request s) = suspended s ++ [a]
  /\ settled (dispatch request s) = settled s.
Proof.
  intros H. unfold dispatch. rewrite H.
  apply handleRequest_awaiting in H as (_ & _ & Ho & _ & _ & _ & _ & _ & Hsu & Hse & _).
  fields. rewrite Hsu, Ho, Hse. repeat split.
Qed.

(** After the operation of [a] is fulfilled in a state where [a] and [b]
    wait, the entry under the id of [a] is gone, [b] still waits, and a
    cancellation of that id finds nothing. *)
Lemma fulfilled_deletes_shared (agentEventNames : list string) s a b (v : value)
    (request : json) :
  List.In a (suspended s) -> List.In b (suspended s) ->
  act_handle a <> act_handle b ->
  settled s !! act_handle a = None -> settled s !! act_handle b = None ->
  cancel_target request = Some (act_id a) ->
  let s' := step agentEventNames s (Settle (act_handle a) (Fulfilled v)) in
  ongoingRequests s' !! to_key (act_id a) = None
  /\ List.In b (suspended s')
  /\ settled s' !! act_handle b = None
  /\ cancelRequest request s' = Some (false, s').
Proof.
  intros Ha Hb Hne Hsa Hsb Ht s'.
  assert (E : s' = drain (set_settled (<[act_handle a := Fulfilled v]> (settled s)) s))
    by (unfold s', step, settle; now rewrite Hsa).
  set (s0 := set_settled (<[act_handle a := Fulfilled v]> (settled s)) s) in E.
  assert (H1 : ongoingRequests s' !! to_key (act_id a) = None).
  { rewrite E. unfold drain.
    pose proof (drain_list_deletes (suspended s0) s0 a v Ha) as D.
    destruct (drain_list (suspended s0) s0) as [k s1]. fields.
    apply D. unfold s0. fields. apply lookup_insert_eq. }
  assert (H2 : List.In b (suspended s')).
  { rewrite E. unfold drain.
    pose proof (drain_list_keeps (suspended s0) s0 b Hb) as D.
    destruct (drain_list (suspended s0) s0) as [k s1]. fields.
    apply D. unfold s0. fields. now rewrite lookup_insert_ne. }
  assert (H3 : settled s' !! act_handle b = None).
  { rewrite E. destruct (drain_effect s0) as (_ & _ & -> & _).
    unfold s0. fields. now rewrite lookup_insert_ne. }
  repeat split; try assumption.
  unfold cancelRequest. now rewrite Ht, H1.
Qed.

End Entries.

(** C10. When a second request with the id of a pending request is also
    pending, its entry replaces the entry of the first: there is one entry
    for the id, that of the second.  When either operation is then
    fulfilled, this entry is deleted, the other request still waits for its
    operation, and a cancellation of the id returns [false]. *)
Theorem reused_id_shares_entry {AgentState : Type} (agentEventNames : list string)
    (s s1 s2 : StdIO AgentState) (r1 r2 : json) (a1 a2 : activation) (id : Z) :
  handleRequest r1 (log (LogDebug "Received request") s) = (Awaiting a1, s1) ->
  handleRequest r2 (log (LogDebug "Received request") (dispatch r1 s)) = (Awaiting a2, s2) ->
  act_id a1 = J (JNum id) ->
  act_id a2 = J (JNum id) ->
  act_handle a1 <> act_handle a2 ->
  settled s !! act_handle a1 = None ->
  settled s !! act_handle a2 = None ->
  let key := number_to_string id in
  let s' := dispatch r2 (dispatch r1 s) in
  ongoingRequests (dispatch r1 s) !! key = Some (act_handle a1)
  /\ ongoingRequests s' = <[key := act_handle a2]> (ongoingRequests s)
  /\ ongoingRequests s' !! key = Some (act_handle a2)
  /\ suspended s' = suspended s ++ [a1; a2]
  /\ (forall (a b : activation) (v : value) (request : json),
        a = a1 /\ b = a2 \/ a = a2 /\ b = a1 ->
        cancel_target request = Some (J (JNum id)) ->
        let s'' := step agentEventNames s' (Settle (act_handle a) (Fulfilled v)) in
        ongoingRequests s'' !! key = None
        /\ List.In b (suspended s'')
        /\ settled s'' !! act_handle b = None
        /\ cancelRequest request s'' = Some (false, s'')).
Proof.
  intros H1 H2 Hid1 Hid2 Hne Hs1 Hs2 key s'.
  destruct (dispatch_awaiting r1 s a1 s1 H1) as (_ & Ho1 & Hsu1 & Hse1).
  destruct (dispatch_awaiting r2 (dispatch r1 s) a2 s2 H2) as (_ & Ho2 & Hsu2 & Hse2).
  fold s' in Ho2, Hsu2, Hse2.
  assert (K1 : to_key (act_id a1) = key) by (now rewrite Hid1).
  assert (K2 : to_key (act_id a2) = key) by (now rewrite Hid2).
  rewrite K1 in Ho1. rewrite K2 in Ho2.
  assert (Hsu : suspended s' = suspended s ++ [a1; a2])
    by (now rewrite Hsu2, Hsu1, <- app_assoc).
  assert (Hse : settled s' = settled s) by (now rewrite Hse2, Hse1).
  split; [rewrite Ho1; apply lookup_insert_eq|].
  split; [rewrite Ho2, Ho1; apply insert_insert_eq|].
  split; [rewrite Ho2; apply lookup_insert_eq|].
  split; [exact Hsu|].
  intros a b v request Hab Ht s''.
  assert (Hin1 : List.In a1 (suspended s')) by (rewrite Hsu; apply in_or_app; right; now left).
  assert (Hin2 : List.In a2 (suspended s'))
    by (rewrite Hsu; apply in_or_app; right; right; now left).
  destruct Hab as [[-> ->] | [-> ->]].
  - rewrite <- K1. rewrite <- Hid1 in Ht.
    apply fulfilled_deletes_shared; try assumption; now rewrite Hse.
  - rewrite <- K2. rewrite <- Hid2 in Ht.
    apply fulfilled_deletes_shared; try assumption; try (now rewrite Hse).
    congruence.
Qed.

(** C2 fails when the awaited operation is rejected.  On fulfilment
    [resume] deletes the entry of the request; on rejection it leaves the
    entry in place.  A request whose provider operation rejects is answered
    with [[1, null]], nothing waits any more, and its entry is still there:
    a later cancellation of id 1 returns [true]. *)
Theorem rejected_operation_keeps_entry :
  (forall (AgentState : Type) (s : StdIO AgentState) (a : activation) (v : value),
      ongoingRequests (resume a (Fulfilled v) s) !! to_key (act_id a) = None)
  /\ (forall (AgentState : Type) (s : StdIO AgentState) (a : activation),
        ongoingRequests (resume a Rejected s) = ongoingRequests s)
  /\ let s := run example_events (new_StdIO tt)
                [Bind example_agent;
                 Data (line_of (AgentFunctionRequest (JNum 1) "postEvent" [JNum 0]));
                 Settle (Plain 0) Rejected] in
     outStream s = [terminated "[1,null]"]
     /\ suspended s = []
     /\ ongoingRequests s !! "1" = Some (Plain 0)
     /\ outStream (step example_events s (Data (line_of (CancellationRequest (JNum 2) (JNum 1)))))
        = [terminated "[1,null]"; terminated "[2,true]"].
Proof.
  split; [intros; rewrite resume_entries; apply lookup_delete_eq|].
  split; [reflexivity|]. cbv zeta. repeat split; vm_compute; reflexivity.
Qed.

(** ** The theorems at concrete inputs *)

Lemma unbound_response_witness :
  agent (new_StdIO tt) = None
  /\ outStream (dispatch (AgentFunctionRequest (JNum 5) "ping" []) (new_StdIO tt))
     = [terminated "[0,null]"].
Proof.
  split; [reflexivity|].
  exact (proj1 (proj2 (proj2 (unbound_response (new_StdIO tt)
                                (AgentFunctionRequest (JNum 5) "ping" []) eq_refl)))).
Defined.

Lemma framer_chunking_witness :
  Forall (fun l => occurs LF l = false) ["ab"; "cd"]
  /\ occurs LF "ef" = false
  /\ concat_text ["a"; "b" +:+ String LF "c"; "d" +:+ String LF "e"; "f"]
     = concat_text (map terminated ["ab"; "cd"]) +:+ "ef"
  /\ buffer (new_StdIO tt) = ""
  /\ feed "" ["a"; "b" +:+ String LF "c"; "d" +:+ String LF "e"; "f"]
     = (map terminated ["ab"; "cd"], "ef").
Proof.
  assert (H1 : Forall (fun l => occurs LF l = false) ["ab"; "cd"])
    by (repeat constructor).
  split; [exact H1|]. split; [reflexivity|]. split; [reflexivity|]. split; [reflexivity|].
  exact (proj1 (framer_chunking ["ab"; "cd"] "ef"
                  ["a"; "b" +:+ String LF "c"; "d" +:+ String LF "e"; "f"]
                  (new_StdIO tt) H1 eq_refl eq_refl eq_refl)).
Defined.


Lemma cancel_untracked_witness :
  ongoingRequests (bind example_events example_agent (new_StdIO tt))
    !! number_to_string 3 = None
  /\ is_Some (agent (bind example_events example_agent (new_StdIO tt)))
  /\ cancelRequest (CancellationRequest (JNum 7) (JNum 3))
       (bind example_events example_agent (new_StdIO tt))
     = Some (false, bind example_events example_agent (new_StdIO tt))
  /\ outStream (handleInput (line_of (CancellationRequest (JNum 7) (JNum 3)))
                  (bind example_events example_agent (new_StdIO tt)))
     = [terminated "[7,false]"].
Proof.
  assert (H1 : is_Some (agent (bind example_events example_agent (new_StdIO tt))))
    by (eexists; reflexivity).
  split; [reflexivity|]. split; [exact H1|].
  destruct (cancel_untracked (bind example_events example_agent (new_StdIO tt))
              7 3 eq_refl) as [E F].
  split; [exact E|].
  exact (proj1 (F H1 eq_refl eq_refl eq_refl)).
Defined.

Lemma cancel_tracked_witness :
  let s := run example_events (new_StdIO tt)
             [Bind example_agent;
              Data (line_of (AgentFunctionRequest (JNum 1) "getCompletions" [JNum 4]))] in
  cancel_target (CancellationRequest (JNum 9) (JNum 1)) = Some (J (JNum 1))
  /\ ongoingRequests s !! number_to_string 1 = Some (Cancelable 4)
  /\ exists s',
       cancelRequest (CancellationRequest (JNum 9) (JNum 1)) s = Some (true, s')
       /\ ongoingRequests s' !! number_to_string 1 = None
       /\ cancelCalls s' = [Cancelable 4].
Proof.
  cbv zeta.
  assert (H2 : ongoingRequests
                 (run example_events (new_StdIO tt)
                    [Bind example_agent;
                     Data (line_of (AgentFunctionRequest (JNum 1) "getCompletions" [JNum 4]))])
                 !! number_to_string 1 = Some (Cancelable 4))
    by (vm_compute; reflexivity).
  split; [reflexivity|]. split; [exact H2|].
  destruct (cancel_tracked _ (CancellationRequest (JNum 9) (JNum 1)) 1
              (Cancelable 4) eq_refl H2) as (s' & E & _ & Hnone & Hcalls & _).
  exists s'. split; [exact E|]. split; [exact Hnone|]. exact Hcalls.
Defined.

Lemma unparseable_line_skipped_witness :
  JSON_parse (terminated "[7, {") = None
  /\ outStream (handle_line (bind example_events example_agent (new_StdIO tt))
                  (terminated "[7, {")) = [].
Proof.
  split; [reflexivity|].
  exact (proj1 (proj2 (unparseable_line_skipped
                         (bind example_events example_agent (new_StdIO tt))
                         (terminated "[7, {") eq_refl))).
Defined.

Lemma event_forwarded_witness :
  List.NoDup example_events
  /\ List.In "statusChanged" example_events
  /\ List.filter (fun l => Nat.eqb (fst l) (agent_id example_agent))
       (listeners (new_StdIO tt)) = []
  /\ Forall (fun e : event unit => binds (agent_id example_agent) e = false)
       [Data (line_of (AgentFunctionRequest (JNum 1) "postEvent" [JNum 0]))]
  /\ let s1 := run example_events (new_StdIO tt)
                 [Bind example_agent;
                  Data (line_of (AgentFunctionRequest (JNum 1) "postEvent" [JNum 0]))] in
     outStream (step example_events s1
                  (Emit (agent_id example_agent) "statusChanged" (J (JStr "ready"))))
     = outStream s1 ++ [terminated (encode (J (JNum 0), J (JStr "ready")))].
Proof.
  assert (H1 : List.NoDup example_events)
    by (constructor; [intros [] | constructor]).
  assert (H2 : List.In "statusChanged" example_events) by (left; reflexivity).
  assert (H4 : Forall (fun e : event unit => binds (agent_id example_agent) e = false)
                 [Data (line_of (AgentFunctionRequest (JNum 1) "postEvent" [JNum 0]))])
    by (repeat constructor).
  split; [exact H1|]. split; [exact H2|]. split; [reflexivity|]. split; [exact H4|].
  exact (proj1 (event_forwarded example_events (new_StdIO tt) example_agent
                  [Data (line_of (AgentFunctionRequest (JNum 1) "postEvent" [JNum 0]))]
                  "statusChanged" (J (JStr "ready")) H1 H2 eq_refl H4)).
Defined.

Lemma one_response_per_request_witness :
  let s := run example_events (new_StdIO tt)
             [Bind example_agent;
              Data (line_of (AgentFunctionRequest (JNum 1) "postEvent" [JNum 0])
                    +:+ line_of (AgentFunctionRequest (JNum 2) "fail" [])
                    +:+ line_of (AgentFunctionRequest (JNum 3) "unknown" []))] in
  received s = (sent s + length (suspended s))%nat
  /\ received s = 3%nat /\ sent s = 2%nat
  /\ outStream s = [terminated "[2,null]"; terminated "[3,null]"].
Proof.
  cbv zeta. split; [|repeat split; vm_compute; reflexivity].
  exact (proj1 (one_response_per_request example_events tt
                  [Bind example_agent;
                   Data (line_of (AgentFunctionRequest (JNum 1) "postEvent" [JNum 0])
                         +:+ line_of (AgentFunctionRequest (JNum 2) "fail" [])
                         +:+ line_of (AgentFunctionRequest (JNum 3) "unknown" []))])).
Defined.

Lemma reused_id_shares_entry_witness :
  let s := bind example_events example_agent (new_StdIO tt) in
  let r1 := AgentFunctionRequest (JNum 1) "postEvent" [JNum 1] in
  let r2 := AgentFunctionRequest (JNum 1) "getCompletions" [JNum 2] in
  let a1 := Activation r1 (J (JNum 1)) (Plain 1) in
  let a2 := Activation r2 (J (JNum 1)) (Cancelable 2) in
  let s1 := snd (handleRequest r1 (log (LogDebug "Received request") s)) in
  let s2 := snd (handleRequest r2 (log (LogDebug "Received request") (dispatch r1 s))) in
  let s'' := step example_events (dispatch r2 (dispatch r1 s))
               (Settle (Plain 1) (Fulfilled (J (JStr "done")))) in
  handleRequest r1 (log (LogDebug "Received request") s) = (Awaiting a1, s1)
  /\ handleRequest r2 (log (LogDebug "Received request") (dispatch r1 s)) = (Awaiting a2, s2)
  /\ act_id a1 = J (JNum 1)
  /\ act_id a2 = J (JNum 1)
  /\ act_handle a1 <> act_handle a2
  /\ settled s !! act_handle a1 = None
  /\ settled s !! act_handle a2 = None
  /\ ongoingRequests (dispatch r2 (dispatch r1 s)) !! "1" = Some (Cancelable 2)
  /\ List.In a2 (suspended s'')
  /\ cancelRequest (CancellationRequest (JNum 9) (JNum 1)) s'' = Some (false, s'').
Proof.
  intros s r1 r2 a1 a2 s1 s2 s''.
  assert (H1 : handleRequest r1 (log (LogDebug "Received request") s) = (Awaiting a1, s1))
    by (vm_compute; reflexivity).
  assert (H2 : handleRequest r2 (log (LogDebug "Received request") (dispatch r1 s))
               = (Awaiting a2, s2))
    by (vm_compute; reflexivity).
  assert (H4 : act_handle a1 <> act_handle a2) by discriminate.
  destruct (reused_id_shares_entry example_events s s1 s2 r1 r2 a1 a2 1
              H1 H2 eq_refl eq_refl H4 eq_refl eq_refl) as (_ & _ & E & _ & F).
  destruct (F a1 a2 (J (JStr "done")) (CancellationRequest (JNum 9) (JNum 1))
              (or_introl (conj eq_refl eq_refl)) eq_refl) as (_ & G1 & _ & G2).
  repeat split; assumption || reflexivity.
Defined.

(** * Further properties of the source *)

(** ** What a turn changes *)

Section Turns.

Context {AgentState : Type}.
Variable agentEventNames : list string.
Implicit Types (s : StdIO AgentState) (a : activation) (o : settlement) (h : handle).

Lemma step_agent s (e : event AgentState) :
  agent (step agentEventNames s e)
  = match e with Bind b => Some b | _ => agent s end.
Proof.
  unfold step.
  match goal with |- context [drain ?x] =>
    destruct (drain_effect x) as (_ & _ & _ & _ & H & _); rewrite H end.
  destruct e as [b|chunk|from name payload|h o|st]; try reflexivity.
  - apply handleInput_frame.
  - apply emit_effect.
  - unfold settle. now destruct (settled s !! h).
Qed.

Lemma step_buffer s (e : event AgentState) :
  buffer (step agentEventNames s e)
  = match e with Data chunk => snd (frame (buffer s) chunk) | _ => buffer s end.
Proof.
  unfold step.
  match goal with |- context [drain ?x] =>
    destruct (drain_effect x) as (_ & _ & _ & _ & _ & H & _); rewrite H end.
  destruct e as [b|chunk|from name payload|h o|st]; try reflexivity.
  - now rewrite handleInput_lines.
  - apply emit_effect.
  - unfold settle. now destruct (settled s !! h).
Qed.

Lemma resumes_outStream (l : list activation) o s :
  outStream (fold_left (fun s a => resume a o s) l s)
  = outStream s ++ map (fun a => response_line (act_id a, payload_of o)) l.
Proof.
  revert s. induction l as [|a l IH]; intros s; cbn [fold_left map].
  - now rewrite app_nil_r.
  - rewrite IH. destruct (resume_effect a o s) as (-> & _).
    rewrite <- app_assoc. now destruct o.
Qed.

Lemma resumes_settled (l : list activation) o s :
  settled (fold_left (fun s a => resume a o s) l s) = settled s.
Proof.
  revert s. induction l as [|a l IH]; intros s; cbn [fold_left]; [reflexivity|].
  now rewrite IH, resume_settled.
Qed.

(** When [h] is settled with [o] and nothing else that is waited for is
    settled, the end of the turn resumes exactly the activations that wait
    for [h]. *)
Lemma drain_list_settled (l : list activation) s h o :
  settled s !! h = Some o ->
  Forall (fun a => act_handle a <> h -> settled s !! act_handle a = None) l ->
  drain_list l s
  = (List.filter (fun a => negb (awaits h a)) l,
     fold_left (fun s a => resume a o s) (List.filter (awaits h) l) s).
Proof.
  intros Hs F. revert s Hs F.
  induction l as [|a l IH]; intros s Hs F; [reflexivity|].
  inversion F as [|? ? Ha F']; subst. cbn [drain_list List.filter].
  destruct (decide (act_handle a = h)) as [E|E].
  - assert (Ea : awaits h a = true) by (unfold awaits; now apply bool_decide_eq_true_2).
    rewrite Ea. cbn [negb fold_left].
    rewrite E, Hs. apply IH; now rewrite resume_settled.
  - assert (Ea : awaits h a = false) by (unfold awaits; now apply bool_decide_eq_false_2).
    rewrite Ea. cbn [negb].
    rewrite (Ha E). now rewrite (IH s Hs F').
Qed.

Lemma step_settle s h o :
  settled s !! h = None ->
  Forall (fun a => settled s !! act_handle a = None) (suspended s) ->
  let s' := step agentEventNames s (Settle h o) in
  outStream s'
  = outStream s
    ++ map (fun a => response_line (act_id a, payload_of o))
         (List.filter (awaits h) (suspended s))
  /\ suspended s' = List.filter (fun a => negb (awaits h a)) (suspended s)
  /\ settled s' = <[h := o]> (settled s).
Proof.
  intros Hs F s'. unfold s', step, settle. rewrite Hs. unfold drain.
  set (s0 := set_settled (<[h := o]> (settled s)) s).
  assert (E : drain_list (suspended s0) s0
              = (List.filter (fun a => negb (awaits h a)) (suspended s),
                 fold_left (fun s a => resume a o s)
                   (List.filter (awaits h) (suspended s)) s0)).
  { apply drain_list_settled.
    - unfold s0. fields. apply lookup_insert_eq.
    - unfold s0. fields. eapply Forall_impl; [exact F|].
      intros a Ha Hne. cbv beta in Ha. now rewrite lookup_insert_ne. }
  rewrite E. fields. rewrite resumes_outStream, resumes_settled. now split.
Qed.

End Turns.

(** ** Calls of the provider *)

Lemma handleRequest_call {AgentState : Type} (s : StdIO AgentState)
    (a : Agent AgentState) (id : json) (func : string) (args : list json)
    (f : value -> AgentState -> outcome * AgentState) (out : outcome) (st : AgentState) :
  agent s = Some a -> String.eqb func "cancelRequest" = false ->
  agent_member a func = Some f ->
  f (J (JArr args)) (provider s) = (out, st) ->
  handleRequest (AgentFunctionRequest id func args) s
  = match out with
    | Throws | Returns (Value (J JNull)) =>
        caught (AgentFunctionRequest id func args) (J id, J JNull) (set_provider st s)
    | Returns (Value v) => (Completed (J id, v), set_provider st s)
    | Returns (Thenable h) =>
        (Awaiting (Activation (AgentFunctionRequest id func args) (J id) h),
         set_ongoingRequests (<[ToString id := h]> (ongoingRequests s)) (set_provider st s))
    end.
Proof.
  intros Ha Hf Hm Hcall. unfold handleRequest. rewrite Ha.
  cbn [AgentFunctionRequest get_index get_field nth_error own_property String.eqb
       Ascii.eqb Bool.eqb strict_equal to_key ToString].
  rewrite Hf, Hm, Hcall. reflexivity.
Qed.

(** X1. A call that returns a value at once is answered in the same turn
    with [[id, value]]: the provider function gets the arguments of the
    request, no entry is made, nothing waits and nothing is logged as an
    error. *)
Theorem immediate_result {AgentState : Type} (s : StdIO AgentState)
    (a : Agent AgentState) (id : json) (func : string) (args : list json)
    (f : value -> AgentState -> outcome * AgentState) (v : value) (st : AgentState) :
  agent s = Some a -> String.eqb func "cancelRequest" = false ->
  agent_member a func = Some f ->
  f (J (JArr args)) (provider s) = (Returns (Value v), st) ->
  v <> J JNull ->
  well_formed id = true -> forallb well_formed args = true -> buffer s = "" ->
  let s' := handleInput (line_of (AgentFunctionRequest id func args)) s in
  outStream s' = outStream s ++ [response_line (J id, v)]
  /\ logger s' = logger s ++ [LogDebug "Received request"; LogDebug "Sent response"]
  /\ ongoingRequests s' = ongoingRequests s
  /\ suspended s' = suspended s
  /\ provider s' = st.
Proof.
  intros Ha Hf Hm Hcall Hv Hid Hargs Hb s'. unfold s'.
  rewrite handleInput_request by (exact Hb || now apply well_formed_request).
  unfold dispatch.
  rewrite (handleRequest_call _ a id func args f (Returns (Value v)) st)
    by assumption.
  destruct v as [|[]]; try contradiction; fields; rewrite <- app_assoc; repeat split.
Qed.

(** X2. A provider function that returns [null] is answered like a
    fault: [typeof null] is ["object"], reading [then] of it throws, the
    [catch] clause logs the request as failed, and the payload is the
    [null] that the response started with. *)
Theorem null_result_is_fault {AgentState : Type} (s : StdIO AgentState)
    (a : Agent AgentState) (id : json) (func : string) (args : list json)
    (f : value -> AgentState -> outcome * AgentState) (st : AgentState) :
  agent s = Some a -> String.eqb func "cancelRequest" = false ->
  agent_member a func = Some f ->
  f (J (JArr args)) (provider s) = (Returns (Value (J JNull)), st) ->
  well_formed id = true -> forallb well_formed args = true -> buffer s = "" ->
  let request := AgentFunctionRequest id func args in
  let s' := handleInput (line_of request) s in
  outStream s' = outStream s ++ [response_line (J id, J JNull)]
  /\ logger s'
     = logger s ++ [LogDebug "Received request";
                    LogError ("Failed to handle request: " +:+ stringify request);
                    LogDebug "Sent response"]
  /\ ongoingRequests s' = ongoingRequests s
  /\ suspended s' = suspended s.
Proof.
  intros Ha Hf Hm Hcall Hid Hargs Hb request s'. unfold s', request.
  rewrite handleInput_request by (exact Hb || now apply well_formed_request).
  unfold dispatch.
  rewrite (handleRequest_call _ a id func args f (Returns (Value (J JNull))) st)
    by assumption.
  unfold caught. fields. rewrite <- !app_assoc. repeat split.
Qed.

(** X3. Settling an operation answers exactly the requests that wait for
    it, in the order in which they were dispatched, each with its own id;
    the other requests go on waiting.  An operation settles once: a second
    settlement changes nothing. *)
Theorem settle_answers_waiters {AgentState : Type} (agentEventNames : list string)
    (s : StdIO AgentState) (h : handle) (o o' : settlement) :
  settled s !! h = None ->
  Forall (fun a => settled s !! act_handle a = None) (suspended s) ->
  let s' := step agentEventNames s (Settle h o) in
  outStream s'
  = outStream s
    ++ map (fun a => response_line (act_id a, payload_of o))
         (List.filter (awaits h) (suspended s))
  /\ suspended s' = List.filter (fun a => negb (awaits h a)) (suspended s)
  /\ step agentEventNames s' (Settle h o') = s'.
Proof.
  intros Hs F s'.
  destruct (step_settle agentEventNames s h o Hs F) as (H1 & H2 & H3).
  fold s' in H1, H2, H3. split; [exact H1|]. split; [exact H2|].
  unfold step at 1, settle. rewrite H3, lookup_insert_eq.
  apply drain_idle. apply step_idle.
Qed.

(** X4. Cancelling does not suppress the response: a request that was
    cancelled while it waited is still answered when its operation
    settles, with the result if the operation is fulfilled and with [null]
    if it is rejected. *)
Theorem cancelled_still_answered {AgentState : Type} (agentEventNames : list string)
    (s s' : StdIO AgentState) (a : activation) (request : json) (o : settlement) :
  List.In a (suspended s) ->
  Forall (fun b => settled s !! act_handle b = None) (suspended s) ->
  cancelRequest request s = Some (true, s') ->
  List.In (response_line (act_id a, payload_of o))
    (outStream (step agentEventNames s' (Settle (act_handle a) o)))
  /\ ~ List.In a (suspended (step agentEventNames s' (Settle (act_handle a) o))).
Proof.
  intros Hin F Hc.
  assert (Hs : settled s !! act_handle a = None)
    by (rewrite List.Forall_forall in F; now apply F).
  apply cancelRequest_effect in Hc as (_ & _ & _ & _ & _ & Hsu & Hse & _).
  destruct (step_settle agentEventNames s' (act_handle a) o) as (H1 & H2 & _);
    [now rewrite Hse | now rewrite Hsu, Hse |].
  rewrite H1, H2, Hsu. split.
  - apply in_or_app. right.
    apply (in_map (fun b => response_line (act_id b, payload_of o))).
    apply filter_In. split; [exact Hin|].
    unfold awaits. now apply bool_decide_eq_true_2.
  - intros Hin'. apply filter_In in Hin' as [_ Hn].
    unfold awaits in Hn. now rewrite bool_decide_eq_true_2 in Hn.
Qed.

Lemma filter_awaits_none (h : handle) (l : list activation) :
  Forall (fun b => act_handle b <> h) l ->
  List.filter (awaits h) l = [] /\ List.filter (fun b => negb (awaits h b)) l = l.
Proof.
  induction 1 as [|b l Hb _ [IH1 IH2]]; [split; reflexivity|].
  assert (Eb : awaits h b = false) by (unfold awaits; now apply bool_decide_eq_false_2).
  cbn [List.filter]. rewrite Eb. cbn [negb]. now rewrite IH1, IH2.
Qed.

Lemma step_settle_state {AgentState : Type} (agentEventNames : list string)
    (s : StdIO AgentState) (h : handle) (o : settlement) :
  settled s !! h = None ->
  Forall (fun a => settled s !! act_handle a = None) (suspended s) ->
  step agentEventNames s (Settle h o)
  = set_suspended (List.filter (fun a => negb (awaits h a)) (suspended s))
      (fold_left (fun s a => resume a o s) (List.filter (awaits h) (suspended s))
         (set_settled (<[h := o]> (settled s)) s)).
Proof.
  intros Hs F. unfold step, settle. rewrite Hs. unfold drain.
  set (s0 := set_settled (<[h := o]> (settled s)) s).
  rewrite (drain_list_settled (suspended s0) s0 h o); [reflexivity | |].
  - unfold s0. fields. apply lookup_insert_eq.
  - unfold s0. fields. eapply Forall_impl; [exact F|].
    intros a Ha Hne. cbv beta in Ha. now rewrite lookup_insert_ne.
Qed.

(** X5. The life of a pending request.  The turn that dispatches it
    writes nothing, puts the operation under the id of the request and
    leaves one activation waiting; the turn in which the operation is
    fulfilled writes [[id, result]], removes the entry and leaves nothing
    of the request behind. *)
Theorem pending_round_trip {AgentState : Type} (agentEventNames : list string)
    (s : StdIO AgentState) (a : Agent AgentState) (id : Z) (func : string)
    (args : list json) (f : value -> AgentState -> outcome * AgentState)
    (h : handle) (st : AgentState) (v : value) :
  agent s = Some a -> String.eqb func "cancelRequest" = false ->
  agent_member a func = Some f ->
  f (J (JArr args)) (provider s) = (Returns (Thenable h), st) ->
  settled s !! h = None ->
  Forall (fun b => settled s !! act_handle b = None) (suspended s) ->
  Forall (fun b => act_handle b <> h) (suspended s) ->
  well_formed (JNum id) = true -> forallb well_formed args = true -> buffer s = "" ->
  let request := AgentFunctionRequest (JNum id) func args in
  let s1 := step agentEventNames s (Data (line_of request)) in
  let s2 := step agentEventNames s1 (Settle h (Fulfilled v)) in
  outStream s1 = outStream s
  /\ ongoingRequests s1 = <[number_to_string id := h]> (ongoingRequests s)
  /\ suspended s1 = suspended s ++ [Activation request (J (JNum id)) h]
  /\ outStream s2 = outStream s ++ [response_line (J (JNum id), v)]
  /\ ongoingRequests s2 = delete (number_to_string id) (ongoingRequests s)
  /\ suspended s2 = suspended s.
Proof.
  intros Ha Hf Hm Hcall Hs F Hother Hid Hargs Hb request s1 s2.
  set (act := Activation request (J (JNum id)) h).
  assert (E1 : s1 = set_suspended (suspended s ++ [act])
                      (set_ongoingRequests
                         (<[number_to_string id := h]> (ongoingRequests s))
                         (set_provider st (log (LogDebug "Received request") s)))).
  { unfold s1, step. rewrite handleInput_request by (exact Hb || now apply well_formed_request).
    unfold dispatch.
    rewrite (handleRequest_call _ a (JNum id) func args f (Returns (Thenable h)) st)
      by assumption.
    apply drain_idle. fields. apply Forall_app. split; [exact F|].
    constructor; [exact Hs | constructor]. }
  assert (F1 : Forall (fun b => settled s1 !! act_handle b = None) (suspended s1)).
  { rewrite E1. fields. apply Forall_app. split; [exact F|].
    constructor; [exact Hs | constructor]. }
  assert (Hs1 : settled s1 !! h = None) by (rewrite E1; exact Hs).
  assert (E2 : s2 = step agentEventNames s1 (Settle h (Fulfilled v))) by reflexivity.
  rewrite (step_settle_state agentEventNames s1 h (Fulfilled v) Hs1 F1) in E2.
  destruct (filter_awaits_none h (suspended s) Hother) as [N1 N2].
  assert (Eh : awaits h act = true) by (unfold awaits; now apply bool_decide_eq_true_2).
  assert (L1 : List.filter (awaits h) (suspended s1) = [act]).
  { rewrite E1. fields. rewrite List.filter_app, N1. cbn [List.filter app]. now rewrite Eh. }
  assert (L2 : List.filter (fun b => negb (awaits h b)) (suspended s1) = suspended s).
  { rewrite E1. fields. rewrite List.filter_app, N2. cbn [List.filter]. rewrite Eh.
    cbn [negb]. apply app_nil_r. }
  rewrite L1, L2 in E2. cbn [fold_left] in E2.
  rewrite E2. rewrite E1. fields. repeat split.
  cbn [act_id act to_key ToString]. apply delete_insert_eq.
Qed.

(** X6. Cancelling an id twice: the first cancellation finds the entry
    and returns [true], the second finds nothing, returns [false] and
    changes nothing; [cancel()] is called by the first only, and only on a
    [CancelablePromise]. *)
Theorem cancel_twice {AgentState : Type} (s : StdIO AgentState)
    (request : json) (target : Z) (ongoing : handle) :
  cancel_target request = Some (J (JNum target)) ->
  ongoingRequests s !! number_to_string target = Some ongoing ->
  exists s',
    cancelRequest request s = Some (true, s')
    /\ cancelRequest request s' = Some (false, s')
    /\ cancelCalls s' = cancelCalls s ++ (if isCancelable ongoing then [ongoing] else []).
Proof.
  intros Ht Ho. unfold cancelRequest. rewrite Ht. cbn [to_key ToString]. rewrite Ho.
  eexists. split; [reflexivity|].
  destruct (isCancelable ongoing); fields; rewrite lookup_delete_eq;
    (split; [reflexivity|]); rewrite ?app_nil_r; reflexivity.
Qed.

(** X7. A cancellation request that names no target is not answered
    with [false]: when [args] is missing or [null], reading [args[0]] throws,
    the request is logged as failed and answered with [[id, null]], and no
    entry is touched. *)
Theorem cancel_without_args {AgentState : Type} (s : StdIO AgentState)
    (a : Agent AgentState) (id : json) (o : list (string * json)) :
  agent s = Some a ->
  own_property "func" o = J (JStr "cancelRequest") ->
  own_property "args" o = Undefined \/ own_property "args" o = J JNull ->
  let request := JArr [id; JObj o] in
  handleRequest request s
  = (Completed (J id, J JNull),
     log (LogError ("Failed to handle request: " +:+ stringify request)) s)
  /\ outStream (dispatch request s) = outStream s ++ [response_line (J id, J JNull)]
  /\ ongoingRequests (dispatch request s) = ongoingRequests s.
Proof.
  intros Ha Hf Hargs request.
  assert (Ht : cancel_target request = None).
  { unfold cancel_target, request. cbn [get_index nth_error get_field].
    destruct Hargs as [-> | ->]; reflexivity. }
  assert (E : forall s0 : StdIO AgentState, agent s0 = Some a ->
            handleRequest request s0 = caught request (J id, J JNull) s0).
  { intros s0 H0. unfold handleRequest, request. rewrite H0.
    cbn [get_index nth_error get_field]. rewrite Hf.
    cbn [strict_equal String.eqb Ascii.eqb Bool.eqb].
    unfold cancelRequest. fold request. now rewrite Ht. }
  split; [now apply E|]. unfold dispatch. rewrite E by exact Ha.
  split; reflexivity.
Qed.

(** X8. A cancellation request is answered without the provider: none of
    its functions is called, its state stays as it is, and the answer does
    not depend on which provider is bound. *)
Theorem cancel_bypasses_provider {AgentState : Type} (s : StdIO AgentState)
    (a b : Agent AgentState) (id : json) (o : list (string * json)) :
  own_property "func" o = J (JStr "cancelRequest") ->
  let request := JArr [id; JObj o] in
  provider (snd (handleRequest request (set_agent a s))) = provider s
  /\ fst (handleRequest request (set_agent a s))
     = fst (handleRequest request (set_agent b s))
  /\ ongoingRequests (snd (handleRequest request (set_agent a s)))
     = ongoingRequests (snd (handleRequest request (set_agent b s))).
Proof.
  intros Hf request.
  assert (E : forall c : Agent AgentState,
            handleRequest request (set_agent c s)
            = match cancelRequest request (set_agent c s) with
              | None => caught request (J id, J JNull) (set_agent c s)
              | Some (r, s') => (Completed (J id, J (JBool r)), s')
              end).
  { intros c. unfold handleRequest, request. cbn [agent set_agent].
    cbn [get_index nth_error get_field]. rewrite Hf. reflexivity. }
  rewrite !E. unfold cancelRequest.
  destruct (cancel_target request) as [target|]; [|repeat split].
  cbn [ongoingRequests set_agent].
  destruct (ongoingRequests s !! to_key target) as [ongoing|]; [|repeat split].
  destruct (isCancelable ongoing); repeat split.
Qed.

(** X9. While a provider is bound, every response carries the id of its
    request, also when the request fails: the first slot of the response is
    [request[0]], or [0] when [request[0]] cannot be read; and an
    activation that waits keeps [request[0]] for its response. *)
Theorem response_echoes_id {AgentState : Type} (s : StdIO AgentState) (request : json) :
  is_Some (agent s) ->
  match handleRequest request s with
  | (Completed response, _) =>
      fst response
      = match get_index (J request) 0 with
        | Some id => id
        | None => J (JNum 0)
        end
  | (Awaiting act, _) =>
      get_index (J request) 0 = Some (act_id act) /\ act_request act = request
  end.
Proof.
  intros [a Ha]. unfold handleRequest, caught. rewrite Ha.
  destruct (get_index (J request) 0) as [id|]; [|reflexivity].
  destruct (get_index (J request) 1) as [data|]; [|reflexivity].
  destruct (get_field data "func") as [funcName|]; [|reflexivity].
  destruct (strict_equal funcName "cancelRequest").
  - destruct (cancelRequest request s) as [[r s']|]; reflexivity.
  - destruct (agent_member a (to_key funcName)) as [func|]; [|reflexivity].
    destruct (func _ (provider s)) as [out st].
    destruct out as [|[[|[]]|h]]; try reflexivity. now split.
Qed.

(** ** Invariants of the event loop *)

Section Invariants.

Context {AgentState : Type}.
Variable agentEventNames : list string.
Implicit Types (s : StdIO AgentState) (a : activation) (o : settlement) (h : handle).

Lemma drain_nothing s : suspended s = [] -> drain s = s.
Proof. intros H. apply drain_idle. rewrite H. constructor. Qed.

Lemma handle_line_unbound s (line : string) :
  agent s = None ->
  handle_line s line
  = (if parses line
     then log (LogDebug "Sent response")
            (sendResponse (J (JNum 0), J JNull)
               (log (LogError ("Failed to handle request: "
                               +:+ match JSON_parse line with
                                   | Some request => stringify request
                                   | None => ""
                                   end))
                  (log (LogDebug "Received request") s)))
     else log (LogError ("Failed to parse request: " +:+ line)) s).
Proof.
  intros Ha. unfold handle_line, parses.
  destruct (JSON_parse line) as [request|]; [|reflexivity].
  unfold dispatch, handleRequest. fields. now rewrite Ha.
Qed.

Lemma handle_lines_unbound (lines : list string) s :
  agent s = None ->
  let s' := fold_left handle_line lines s in
  agent s' = None /\ ongoingRequests s' = ongoingRequests s
  /\ suspended s' = suspended s /\ listeners s' = listeners s
  /\ cancelCalls s' = cancelCalls s /\ settled s' = settled s
  /\ outStream s'
     = outStream s ++ repeat (terminated "[0,null]") (length (List.filter parses lines)).
Proof.
  revert s. induction lines as [|l lines IH]; intros s Ha; cbn [fold_left List.filter].
  - cbv zeta. cbn [length repeat]. rewrite app_nil_r. repeat split. exact Ha.
  - assert (Hl := handle_line_unbound s l Ha).
    assert (Ha' : agent (handle_line s l) = None)
      by (rewrite Hl; destruct (parses l); exact Ha).
    destruct (IH (handle_line s l) Ha') as (H1 & H2 & H3 & H4 & H5 & H6 & H7).
    cbv zeta. rewrite H1, H2, H3, H4, H5, H6, H7, Hl.
    destruct (parses l); fields; cbn [length repeat]; rewrite <- ?app_assoc; repeat split.
Qed.

End Invariants.

Section Reachable.

Context {AgentState : Type}.
Variable agentEventNames : list string.
Implicit Types (s : StdIO AgentState).

Lemma step_unbound s (e : event AgentState) :
  agent (step agentEventNames s e) = None ->
  ongoingRequests s = ∅ -> suspended s = [] -> listeners s = [] -> cancelCalls s = [] ->
  outStream s = repeat (terminated "[0,null]") (received s) ->
  let s' := step agentEventNames s e in
  agent s = None
  /\ ongoingRequests s' = ∅ /\ suspended s' = [] /\ listeners s' = []
  /\ cancelCalls s' = []
  /\ outStream s' = repeat (terminated "[0,null]") (received s').
Proof.
  intros Ha' Ho Hsu Hl Hc Hout s'.
  assert (Ha : agent s = None).
  { rewrite step_agent in Ha'. destruct e; (discriminate || exact Ha'). }
  split; [exact Ha|]. unfold s', step.
  destruct e as [b|chunk|from name payload|h o|st].
  - rewrite step_agent in Ha'. discriminate.
  - rewrite handleInput_lines.
    destruct (handle_lines_unbound (fst (frame (buffer s) chunk)) s Ha)
      as (_ & H2 & H3 & H4 & H5 & _ & H7).
    destruct (handle_lines_effect (fst (frame (buffer s) chunk)) s) as (R & _ & _).
    rewrite drain_nothing by (fields; now rewrite H3).
    unfold received in *. fields. rewrite H2, H3, H4, H5, H7, R, Hout.
    repeat split; try assumption.
    rewrite Nat.add_comm. symmetry. apply repeat_app.
  - assert (E : emit from name payload s = s) by (unfold emit; now rewrite Hl).
    rewrite E, drain_nothing by exact Hsu. repeat split; assumption.
  - rewrite drain_nothing by (unfold settle; destruct (settled s !! h); exact Hsu).
    unfold settle, received. destruct (settled s !! h); fields; repeat split; assumption.
  - rewrite drain_nothing by exact Hsu. unfold received. fields. repeat split; assumption.
Qed.

Lemma run_unbound (st : AgentState) (trace : list (event AgentState)) :
  let s := run agentEventNames (new_StdIO st) trace in
  agent s = None ->
  ongoingRequests s = ∅ /\ suspended s = [] /\ listeners s = [] /\ cancelCalls s = []
  /\ outStream s = repeat (terminated "[0,null]") (received s).
Proof.
  induction trace as [|e trace IH] using rev_ind; [repeat split|].
  cbv zeta in *. rewrite run_snoc. intros Ha.
  assert (Hp : agent (run agentEventNames (new_StdIO st) trace) = None).
  { rewrite step_agent in Ha. destruct e; (discriminate || exact Ha). }
  destruct (IH Hp) as (H1 & H2 & H3 & H4 & H5).
  destruct (step_unbound _ e Ha H1 H2 H3 H4 H5) as (_ & G). exact G.
Qed.

Lemma run_idle_new (st : AgentState) (trace : list (event AgentState)) :
  let s := run agentEventNames (new_StdIO st) trace in
  Forall (fun a => settled s !! act_handle a = None) (suspended s).
Proof. destruct trace as [|e trace]; [constructor | apply run_idle]. Qed.

Lemma subscriptions_count (from other : nat) (name : string) (names : list string) :
  length (List.filter (fun l => Nat.eqb (fst l) from && String.eqb (snd l) name)
            (map (fun eventName => (other, eventName)) names))
  = ((if Nat.eqb other from then 1 else 0) * occurrences name names)%nat.
Proof.
  induction names as [|n names IH]; cbn [map List.filter fst snd occurrences];
    [now destruct (Nat.eqb other from)|].
  destruct (Nat.eqb other from); cbn [andb].
  - destruct (String.eqb n name); cbn [length]; rewrite IH; lia.
  - rewrite IH. lia.
Qed.

Lemma run_subscriptions_count (from : nat) (name : string)
    (trace : list (event AgentState)) s :
  length (List.filter (fun l => Nat.eqb (fst l) from && String.eqb (snd l) name)
            (listeners (run agentEventNames s trace)))
  = (length (List.filter (fun l => Nat.eqb (fst l) from && String.eqb (snd l) name)
               (listeners s))
     + length (List.filter (binds from) trace) * occurrences name agentEventNames)%nat.
Proof.
  revert s. induction trace as [|e trace IH]; intros s; cbn [List.filter length]; [cbn; lia|].
  cbn [run fold_left]. fold (run agentEventNames (step agentEventNames s e) trace).
  rewrite IH, step_listeners, List.filter_app, length_app.
  destruct e as [b| | | |]; cbn [binds List.filter length]; try lia.
  rewrite subscriptions_count.
  destruct (Nat.eqb (agent_id b) from); cbn [length]; lia.
Qed.

Lemma run_agent_kept (trace : list (event AgentState)) s :
  Forall (fun e => is_Bind e = false) trace ->
  agent (run agentEventNames s trace) = agent s.
Proof.
  intros F. revert s. induction F as [|e trace He _ IH]; intros s; [reflexivity|].
  cbn [run fold_left]. fold (run agentEventNames (step agentEventNames s e) trace).
  rewrite IH, step_agent. destruct e; (discriminate || reflexivity).
Qed.

End Reachable.

(** X10. Before the first [bind] nothing is tracked: as long as no
    provider is bound there is no entry, no waiting activation, no
    subscription and no call of [cancel()], and the lines written are one
    [[0, null]] for each request decoded so far. *)
Theorem unbound_tracks_nothing {AgentState : Type} (agentEventNames : list string)
    (st : AgentState) (trace : list (event AgentState)) :
  let s := run agentEventNames (new_StdIO st) trace in
  agent s = None ->
  ongoingRequests s = ∅ /\ suspended s = [] /\ listeners s = [] /\ cancelCalls s = []
  /\ outStream s = repeat (terminated "[0,null]") (received s).
Proof. apply run_unbound. Qed.

(** X11. [bind] only adds listeners and nothing removes them: an event
    that the provider emits under a name is written once for each [bind] of
    that provider so far and each occurrence of the name among the
    subscribed names; not at all if the provider was never bound, twice if
    it was bound twice. *)
Theorem events_per_bind {AgentState : Type} (agentEventNames : list string)
    (st : AgentState) (trace : list (event AgentState))
    (from : nat) (name : string) (payload : value) :
  let s := run agentEventNames (new_StdIO st) trace in
  let s' := step agentEventNames s (Emit from name payload) in
  outStream s'
  = outStream s
    ++ repeat (response_line (J (JNum 0), payload))
         (length (List.filter (binds from) trace) * occurrences name agentEventNames)
  /\ ongoingRequests s' = ongoingRequests s
  /\ suspended s' = suspended s.
Proof.
  intros s s'.
  destruct (emit_effect from name payload s) as (Ho & _ & _ & Hr & _ & _ & Hsu & Hse & _).
  assert (Hidle : drain (emit from name payload s) = emit from name payload s).
  { apply drain_idle. rewrite Hsu, Hse. apply run_idle_new. }
  unfold s', step. rewrite Hidle, Ho, Hr, Hsu. unfold s at 2.
  rewrite run_subscriptions_count. cbn [new_StdIO listeners List.filter length].
  repeat split.
Qed.

(** X12. The provider that answers is the one of the last [bind], and no
    turn unbinds it: after a [bind], requests, events and settlements leave
    the bound provider in place. *)
Theorem last_bind_wins {AgentState : Type} (agentEventNames : list string)
    (s : StdIO AgentState) (before after : list (event AgentState))
    (a : Agent AgentState) :
  Forall (fun e => is_Bind e = false) after ->
  agent (run agentEventNames s (before ++ Bind a :: after)) = Some a.
Proof.
  intros F. unfold run. rewrite fold_left_app. cbn [fold_left].
  fold (run agentEventNames s before).
  fold (run agentEventNames
          (step agentEventNames (run agentEventNames s before) (Bind a)) after).
  now rewrite (run_agent_kept agentEventNames after _ F), step_agent.
Qed.

(** ** What is written *)

Section Written.

Context {AgentState : Type}.
Variable agentEventNames : list string.
Implicit Types (s : StdIO AgentState).

Lemma handle_line_writes s (line : string) :
  exists k, outStream (handle_line s line) = outStream s ++ k
            /\ Forall is_response_line k.
Proof.
  unfold handle_line. destruct (JSON_parse line) as [request|].
  - destruct (dispatch_effect request s)
      as (_ & _ & [(response & H & _) | (a & _ & H & _)]).
    + exists [response_line response]. split; [exact H|].
      constructor; [now exists response | constructor].
    + exists []. rewrite app_nil_r. split; [exact H | constructor].
  - exists []. rewrite app_nil_r. split; [reflexivity | constructor].
Qed.

Lemma handle_lines_writes (lines : list string) s :
  exists k, outStream (fold_left handle_line lines s) = outStream s ++ k
            /\ Forall is_response_line k.
Proof.
  revert s. induction lines as [|l lines IH]; intros s; cbn [fold_left].
  - exists []. rewrite app_nil_r. split; [reflexivity | constructor].
  - destruct (handle_line_writes s l) as (k1 & E1 & F1).
    destruct (IH (handle_line s l)) as (k2 & E2 & F2).
    exists (k1 ++ k2). rewrite E2, E1, <- app_assoc. split; [reflexivity|].
    apply Forall_app. now split.
Qed.

Lemma drain_list_writes (l : list activation) s :
  exists k, outStream (snd (drain_list l s)) = outStream s ++ k
            /\ Forall is_response_line k.
Proof.
  revert s. induction l as [|a l IH]; intros s; cbn [drain_list].
  - exists []. rewrite app_nil_r. split; [reflexivity | constructor].
  - destruct (settled s !! act_handle a) as [o|].
    + destruct (IH (resume a o s)) as (k & E & F).
      destruct (resume_effect a o s) as (R & _).
      eexists (_ :: k). rewrite E, R, <- app_assoc. split; [reflexivity|].
      constructor; [eexists; reflexivity | exact F].
    + destruct (IH s) as (k & E & F). exists k.
      destruct (drain_list l s) as [k' s']. now split.
Qed.

Lemma step_writes s (e : event AgentState) :
  exists k, outStream (step agentEventNames s e) = outStream s ++ k
            /\ Forall is_response_line k.
Proof.
  assert (D : forall s0 : StdIO AgentState,
            exists k, outStream (drain s0) = outStream s0 ++ k /\ Forall is_response_line k).
  { intros s0. unfold drain. destruct (drain_list_writes (suspended s0) s0) as (k & E & F).
    exists k. destruct (drain_list (suspended s0) s0) as [k' s']. now split. }
  assert (T : forall s0 : StdIO AgentState,
            (exists k, outStream s0 = outStream s ++ k /\ Forall is_response_line k) ->
            exists k, outStream (drain s0) = outStream s ++ k /\ Forall is_response_line k).
  { intros s0 (k1 & E1 & F1). destruct (D s0) as (k2 & E2 & F2).
    exists (k1 ++ k2). rewrite E2, E1, <- app_assoc. split; [reflexivity|].
    apply Forall_app. now split. }
  unfold step. apply T. destruct e as [b|chunk|from name payload|h o|st].
  - exists []. rewrite app_nil_r. split; [reflexivity | constructor].
  - rewrite handleInput_lines. apply handle_lines_writes.
  - destruct (emit_effect from name payload s) as (E & _). eexists. split; [exact E|].
    apply List.Forall_forall. intros t Ht. apply repeat_spec in Ht. subst t.
    eexists. reflexivity.
  - exists []. rewrite app_nil_r. unfold settle.
    split; [now destruct (settled s !! h) | constructor].
  - exists []. rewrite app_nil_r. split; [reflexivity | constructor].
Qed.

Lemma run_writes (trace : list (event AgentState)) s :
  exists k, outStream (run agentEventNames s trace) = outStream s ++ k
            /\ Forall is_response_line k.
Proof.
  revert s. induction trace as [|e trace IH]; intros s.
  - exists []. rewrite app_nil_r. split; [reflexivity | constructor].
  - cbn [run fold_left]. fold (run agentEventNames (step agentEventNames s e) trace).
    destruct (step_writes s e) as (k1 & E1 & F1).
    destruct (IH (step agentEventNames s e)) as (k2 & E2 & F2).
    exists (k1 ++ k2). rewrite E2, E1, <- app_assoc. split; [reflexivity|].
    apply Forall_app. now split.
Qed.

End Written.

Lemma encode_one_line (response : Response) : occurs LF (encode response) = false.
Proof. apply printable_occurs; [reflexivity | apply printable_stringify]. Qed.

(** X13. Everything that is ever written to the output is a response
    array followed by its newline, and the newline is the only one in the
    text: each write is exactly one line, whether it answers a request or
    forwards an event. *)
Theorem output_is_lines {AgentState : Type} (agentEventNames : list string)
    (st : AgentState) (trace : list (event AgentState)) :
  Forall (fun t => exists response : Response,
              t = encode response +:+ String LF ""
              /\ occurs LF (encode response) = false)
         (outStream (run agentEventNames (new_StdIO st) trace)).
Proof.
  destruct (run_writes agentEventNames trace (new_StdIO st)) as (k & E & F).
  rewrite E. cbn [new_StdIO outStream app].
  eapply Forall_impl; [exact F|]. intros t [response ->].
  exists response. split; [reflexivity | apply encode_one_line].
Qed.

Lemma handleInput_requests {AgentState : Type} (s : StdIO AgentState)
    (requests : list json) :
  forallb well_formed requests = true ->
  buffer s = "" ->
  handleInput (concat_text (map line_of requests)) s
  = fold_left (fun s request => dispatch request s) requests s.
Proof.
  intros Hwf Hb.
  assert (Hframe : frame "" (concat_text (map line_of requests))
                   = (map line_of requests, "")).
  { pose proof (frame_lines (map stringify requests) "") as F.
    rewrite map_map, text_app_nil_r in F. apply F; [|reflexivity].
    apply List.Forall_forall. intros x Hx. apply in_map_iff in Hx as (r & <- & _).
    apply printable_occurs; [reflexivity | apply printable_stringify]. }
  unfold handleInput. rewrite Hb, Hframe.
  replace (set_buffer "" s) with s by (rewrite <- Hb; symmetry; apply set_buffer_buffer).
  clear Hb Hframe. revert s.
  induction requests as [|r requests IH]; intros s; [reflexivity|].
  cbn [forallb] in Hwf. apply andb_true_iff in Hwf as [Hr Hrs].
  cbn [map fold_left]. unfold handle_line at 2.
  rewrite (JSON_parse_line r Hr). now apply IH.
Qed.

(** X14. Several requests in one chunk: when a chunk holds the lines of
    some requests, [handleInput] dispatches each of them, in the order of
    the lines, and leaves the buffer empty. *)
Theorem requests_batch {AgentState : Type} (s : StdIO AgentState) (requests : list json) :
  forallb well_formed requests = true ->
  buffer s = "" ->
  handleInput (concat_text (map line_of requests)) s
  = fold_left (fun s request => dispatch request s) requests s
  /\ buffer (handleInput (concat_text (map line_of requests)) s) = "".
Proof.
  intros Hwf Hb. split; [now apply handleInput_requests|].
  rewrite handleInput_lines. fields.
  pose proof (frame_lines (map stringify requests) "") as F.
  rewrite map_map, text_app_nil_r in F. rewrite Hb.
  fold (line_of) in F.
  rewrite F; [reflexivity | | reflexivity].
  apply List.Forall_forall. intros x Hx. apply in_map_iff in Hx as (r & <- & _).
  apply printable_occurs; [reflexivity | apply printable_stringify].
Qed.

(** X15. The framer loses nothing and repeats nothing: the lines it
    hands to the loop, followed by the buffer it keeps, are the old buffer
    followed by the chunk; each line ends with its only newline, and the
    buffer holds no newline, in every state that the event loop reaches. *)
Theorem framer_conserves {AgentState : Type} (agentEventNames : list string)
    (buffer0 chunk : string) (st : AgentState) (trace : list (event AgentState)) :
  concat_text (fst (frame buffer0 chunk)) +:+ snd (frame buffer0 chunk)
  = buffer0 +:+ chunk
  /\ Forall (fun l => exists x, l = terminated x /\ occurs LF x = false)
       (fst (frame buffer0 chunk))
  /\ occurs LF (snd (frame buffer0 chunk)) = false
  /\ occurs LF (buffer (run agentEventNames (new_StdIO st) trace)) = false.
Proof.
  assert (G : forall b c : string,
            concat_text (fst (frame b c)) +:+ snd (frame b c) = b +:+ c
            /\ Forall (fun l => exists x, l = terminated x /\ occurs LF x = false)
                 (fst (frame b c))
            /\ occurs LF (snd (frame b c)) = false).
  { intros b c. destruct (text_lines (b +:+ c)) as (ls & frag & Hls & Hfrag & E).
    rewrite frame_buffer, E, (frame_lines ls frag Hls Hfrag). cbn [fst snd].
    split; [reflexivity|]. split; [|exact Hfrag].
    apply List.Forall_forall. intros l Hl. apply in_map_iff in Hl as (x & <- & Hx).
    exists x. split; [reflexivity|]. rewrite List.Forall_forall in Hls. now apply Hls. }
  destruct (G buffer0 chunk) as (G1 & G2 & G3).
  split; [exact G1|]. split; [exact G2|]. split; [exact G3|].
  induction trace as [|e trace IH] using rev_ind; [reflexivity|].
  rewrite run_snoc, step_buffer. destruct e; try exact IH. apply G.
Qed.

(** X16. The entry of a pending request is there before the request
    waits: a cancellation that arrives in the same chunk, on the line after
    the request, finds it.  The chunk is answered with [[cid, true]] alone,
    [cancel()] is called if the operation is a [CancelablePromise], the entry
    is gone again, and the request itself still waits for its operation. *)
Theorem cancel_in_same_chunk {AgentState : Type} (s : StdIO AgentState)
    (a : Agent AgentState) (id cid : Z) (func : string) (args : list json)
    (f : value -> AgentState -> outcome * AgentState) (h : handle) (st : AgentState) :
  agent s = Some a -> String.eqb func "cancelRequest" = false ->
  agent_member a func = Some f ->
  f (J (JArr args)) (provider s) = (Returns (Thenable h), st) ->
  well_formed (JNum id) = true -> well_formed (JNum cid) = true ->
  forallb well_formed args = true -> buffer s = "" ->
  let request := AgentFunctionRequest (JNum id) func args in
  let s' := handleInput (line_of request
                         +:+ line_of (CancellationRequest (JNum cid) (JNum id))) s in
  outStream s' = outStream s ++ [response_line (J (JNum cid), J (JBool true))]
  /\ ongoingRequests s' = delete (number_to_string id) (ongoingRequests s)
  /\ cancelCalls s' = cancelCalls s ++ (if isCancelable h then [h] else [])
  /\ suspended s' = suspended s ++ [Activation request (J (JNum id)) h].
Proof.
  intros Ha Hf Hm Hcall Hid Hcid Hargs Hb request s'.
  assert (E : s' = dispatch (CancellationRequest (JNum cid) (JNum id)) (dispatch request s)).
  { unfold s'.
    pose proof (handleInput_requests s
                  [request; CancellationRequest (JNum cid) (JNum id)]) as H.
    cbn [map concat_text fold_left] in H. rewrite text_app_nil_r in H. apply H; [|exact Hb].
    cbn [forallb]. unfold request, CancellationRequest.
    rewrite !well_formed_request; try assumption; try reflexivity.
    cbn [forallb]. now rewrite Hid. }
  assert (E1 : dispatch request s
               = set_suspended (suspended s ++ [Activation request (J (JNum id)) h])
                   (set_ongoingRequests
                      (<[number_to_string id := h]> (ongoingRequests s))
                      (set_provider st (log (LogDebug "Received request") s)))).
  { unfold dispatch.
    now rewrite (handleRequest_call _ a (JNum id) func args f (Returns (Thenable h)) st)
      by assumption. }
  rewrite E, E1. clear E E1 s'. unfold dispatch.
  rewrite (handleRequest_cancel _ a) by exact Ha.
  unfold cancelRequest. rewrite cancel_target_request. fields.
  cbn [to_key ToString]. rewrite lookup_insert_eq.
  destruct (isCancelable h); fields; rewrite ?app_nil_r, delete_insert_eq; repeat split.
Qed.

(** ** The further properties at concrete inputs *)

Lemma immediate_result_witness :
  let s := bind example_events example_agent (new_StdIO tt) in
  let f := fun (_ : value) (st : unit) => (Returns (Value (J (JStr "pong"))), st) in
  agent s = Some example_agent
  /\ String.eqb "ping" "cancelRequest" = false
  /\ agent_member example_agent "ping" = Some f
  /\ f (J (JArr [])) (provider s) = (Returns (Value (J (JStr "pong"))), tt)
  /\ J (JStr "pong") <> J JNull
  /\ buffer s = ""
  /\ outStream (handleInput (line_of (AgentFunctionRequest (JNum 5) "ping" [])) s)
     = outStream s ++ [response_line (J (JNum 5), J (JStr "pong"))].
Proof.
  intros s f.
  assert (H5 : J (JStr "pong") <> J JNull) by discriminate.
  repeat (split; [reflexivity || exact H5|]).
  exact (proj1 (immediate_result s example_agent (JNum 5) "ping" [] f (J (JStr "pong")) tt
                  eq_refl eq_refl eq_refl eq_refl H5 eq_refl eq_refl eq_refl)).
Defined.

Lemma null_result_is_fault_witness :
  let f := fun (_ : value) (st : unit) => (Returns (Value (J JNull)), st) in
  let a := {| agent_id := 2; agent_member := fun _ => Some f |} in
  let s := set_agent a (new_StdIO tt) in
  agent s = Some a
  /\ String.eqb "getStatus" "cancelRequest" = false
  /\ agent_member a "getStatus" = Some f
  /\ f (J (JArr [])) (provider s) = (Returns (Value (J JNull)), tt)
  /\ buffer s = ""
  /\ logger (handleInput (line_of (AgentFunctionRequest (JNum 5) "getStatus" [])) s)
     = logger s
       ++ [LogDebug "Received request";
           LogError ("Failed to handle request: "
                     +:+ stringify (AgentFunctionRequest (JNum 5) "getStatus" []));
           LogDebug "Sent response"].
Proof.
  intros f a s.
  repeat (split; [reflexivity|]).
  exact (proj1 (proj2 (null_result_is_fault s a (JNum 5) "getStatus" [] f tt
                         eq_refl eq_refl eq_refl eq_refl eq_refl eq_refl eq_refl))).
Defined.

Lemma settle_answers_waiters_witness :
  let s := run example_events (new_StdIO tt)
             [Bind example_agent;
              Data (line_of (AgentFunctionRequest (JNum 1) "postEvent" [JNum 7])
                    +:+ line_of (AgentFunctionRequest (JNum 2) "postEvent" [JNum 8])
                    +:+ line_of (AgentFunctionRequest (JNum 3) "postEvent" [JNum 7]))] in
  settled s !! Plain 7 = None
  /\ Forall (fun a => settled s !! act_handle a = None) (suspended s)
  /\ outStream (step example_events s (Settle (Plain 7) (Fulfilled (J (JStr "ok")))))
     = [response_line (J (JNum 1), J (JStr "ok")); response_line (J (JNum 3), J (JStr "ok"))].
Proof.
  intros s.
  assert (H1 : settled s !! Plain 7 = None) by (vm_compute; reflexivity).
  assert (H2 : Forall (fun a => settled s !! act_handle a = None) (suspended s))
    by (apply run_idle).
  split; [exact H1|]. split; [exact H2|].
  rewrite (proj1 (settle_answers_waiters example_events s (Plain 7)
                    (Fulfilled (J (JStr "ok"))) Rejected H1 H2)).
  vm_compute. reflexivity.
Defined.

Lemma cancelled_still_answered_witness :
  let request := AgentFunctionRequest (JNum 1) "postEvent" [JNum 7] in
  let s := run example_events (new_StdIO tt) [Bind example_agent; Data (line_of request)] in
  let a := Activation request (J (JNum 1)) (Plain 7) in
  let s' := set_ongoingRequests (delete "1" (ongoingRequests s)) s in
  List.In a (suspended s)
  /\ Forall (fun b => settled s !! act_handle b = None) (suspended s)
  /\ cancelRequest (CancellationRequest (JNum 9) (JNum 1)) s = Some (true, s')
  /\ List.In (response_line (J (JNum 1), J (JStr "late")))
       (outStream (step example_events s' (Settle (Plain 7) (Fulfilled (J (JStr "late")))))).
Proof.
  intros request s a s'.
  assert (H1 : List.In a (suspended s)) by (left; vm_compute; reflexivity).
  assert (H2 : Forall (fun b => settled s !! act_handle b = None) (suspended s))
    by (apply run_idle).
  assert (H3 : cancelRequest (CancellationRequest (JNum 9) (JNum 1)) s = Some (true, s'))
    by (vm_compute; reflexivity).
  split; [exact H1|]. split; [exact H2|]. split; [exact H3|].
  exact (proj1 (cancelled_still_answered example_events s s' a
                  (CancellationRequest (JNum 9) (JNum 1)) (Fulfilled (J (JStr "late")))
                  H1 H2 H3)).
Defined.

Lemma pending_round_trip_witness :
  let s := bind example_events example_agent (new_StdIO tt) in
  let f := fun (args : value) (st : unit) =>
             (Returns (Thenable (Plain (operation_number args))), st) in
  let request := AgentFunctionRequest (JNum 1) "postEvent" [JNum 4] in
  let s1 := step example_events s (Data (line_of request)) in
  let s2 := step example_events s1 (Settle (Plain 4) (Fulfilled (J (JStr "done")))) in
  agent s = Some example_agent
  /\ agent_member example_agent "postEvent" = Some f
  /\ f (J (JArr [JNum 4])) (provider s) = (Returns (Thenable (Plain 4)), tt)
  /\ settled s !! Plain 4 = None
  /\ Forall (fun b => settled s !! act_handle b = None) (suspended s)
  /\ Forall (fun b => act_handle b <> Plain 4) (suspended s)
  /\ buffer s = ""
  /\ ongoingRequests s1 = <[number_to_string 1 := Plain 4]> (ongoingRequests s)
  /\ outStream s2 = outStream s ++ [response_line (J (JNum 1), J (JStr "done"))]
  /\ ongoingRequests s2 = delete (number_to_string 1) (ongoingRequests s).
Proof.
  intros s f request s1 s2.
  assert (H5 : Forall (fun b => settled s !! act_handle b = None) (suspended s))
    by constructor.
  assert (H6 : Forall (fun b => act_handle b <> Plain 4) (suspended s)) by constructor.
  destruct (pending_round_trip example_events s example_agent 1 "postEvent" [JNum 4] f
              (Plain 4) tt (J (JStr "done"))
              eq_refl eq_refl eq_refl eq_refl eq_refl H5 H6 eq_refl eq_refl eq_refl)
    as (_ & G2 & _ & G4 & G5 & _).
  repeat (split; [reflexivity || assumption|]). exact G5.
Defined.

Lemma cancel_twice_witness :
  let s := run example_events (new_StdIO tt)
             [Bind example_agent;
              Data (line_of (AgentFunctionRequest (JNum 1) "getCompletions" [JNum 4]))] in
  cancel_target (CancellationRequest (JNum 9) (JNum 1)) = Some (J (JNum 1))
  /\ ongoingRequests s !! number_to_string 1 = Some (Cancelable 4)
  /\ exists s',
       cancelRequest (CancellationRequest (JNum 9) (JNum 1)) s = Some (true, s')
       /\ cancelRequest (CancellationRequest (JNum 9) (JNum 1)) s' = Some (false, s').
Proof.
  intros s.
  assert (H2 : ongoingRequests s !! number_to_string 1 = Some (Cancelable 4))
    by (vm_compute; reflexivity).
  split; [reflexivity|]. split; [exact H2|].
  destruct (cancel_twice s (CancellationRequest (JNum 9) (JNum 1)) 1 (Cancelable 4)
              eq_refl H2) as (s' & E1 & E2 & _).
  exists s'. split; [exact E1 | exact E2].
Defined.

Lemma cancel_without_args_witness :
  let s := bind example_events example_agent (new_StdIO tt) in
  let o := [("func", JStr "cancelRequest")] in
  agent s = Some example_agent
  /\ own_property "func" o = J (JStr "cancelRequest")
  /\ (own_property "args" o = Undefined \/ own_property "args" o = J JNull)
  /\ outStream (dispatch (JArr [JNum 7; JObj o]) s)
     = outStream s ++ [response_line (J (JNum 7), J JNull)].
Proof.
  intros s o.
  assert (H3 : own_property "args" o = Undefined \/ own_property "args" o = J JNull)
    by (left; reflexivity).
  split; [reflexivity|]. split; [reflexivity|]. split; [exact H3|].
  exact (proj1 (proj2 (cancel_without_args s example_agent (JNum 7) o
                         eq_refl eq_refl H3))).
Defined.

Lemma cancel_bypasses_provider_witness :
  let spy := {| agent_id := 3;
                agent_member := fun _ =>
                  Some (fun (_ : value) (st : nat) => (Returns (Value (J (JNum 1))), S st)) |} in
  let o := [("func", JStr "cancelRequest"); ("args", JArr [JNum 3])] in
  own_property "func" o = J (JStr "cancelRequest")
  /\ provider (snd (handleRequest (JArr [JNum 7; JObj o]) (set_agent spy (new_StdIO 0%nat))))
     = 0%nat.
Proof.
  intros spy o. split; [reflexivity|].
  exact (proj1 (cancel_bypasses_provider (new_StdIO 0%nat) spy spy (JNum 7) o eq_refl)).
Defined.

Lemma response_echoes_id_witness :
  let s := bind example_events example_agent (new_StdIO tt) in
  is_Some (agent s)
  /\ match handleRequest (AgentFunctionRequest (JNum 3) "fail" []) s with
     | (Completed response, _) =>
         fst response
         = match get_index (J (AgentFunctionRequest (JNum 3) "fail" [])) 0 with
           | Some id => id
           | None => J (JNum 0)
           end
     | (Awaiting act, _) =>
         get_index (J (AgentFunctionRequest (JNum 3) "fail" [])) 0 = Some (act_id act)
         /\ act_request act = AgentFunctionRequest (JNum 3) "fail" []
     end.
Proof.
  intros s.
  assert (H : is_Some (agent s)) by (eexists; reflexivity).
  split; [exact H|].
  exact (response_echoes_id s (AgentFunctionRequest (JNum 3) "fail" []) H).
Defined.

Lemma unbound_tracks_nothing_witness :
  let s := run example_events (new_StdIO tt)
             [Data (line_of (AgentFunctionRequest (JNum 1) "ping" []));
              Emit 1 "statusChanged" (J (JStr "ready"));
              Data (line_of (CancellationRequest (JNum 2) (JNum 1)))] in
  agent s = None
  /\ ongoingRequests s = ∅
  /\ outStream s = repeat (terminated "[0,null]") (received s).
Proof.
  intros s.
  assert (H : agent s = None) by (vm_compute; reflexivity).
  destruct (unbound_tracks_nothing example_events tt
              [Data (line_of (AgentFunctionRequest (JNum 1) "ping" []));
               Emit 1 "statusChanged" (J (JStr "ready"));
               Data (line_of (CancellationRequest (JNum 2) (JNum 1)))] H)
    as (G1 & _ & _ & _ & G5).
  split; [exact H|]. split; [exact G1 | exact G5].
Defined.

Lemma last_bind_wins_witness :
  let other := {| agent_id := 2; agent_member := fun _ => None |} : Agent unit in
  Forall (fun e : event unit => is_Bind e = false)
    [Data (line_of (AgentFunctionRequest (JNum 1) "ping" []));
     Emit 1 "statusChanged" (J (JStr "ready"))]
  /\ agent (run example_events (new_StdIO tt)
              ([Bind example_agent]
               ++ Bind other
                  :: [Data (line_of (AgentFunctionRequest (JNum 1) "ping" []));
                      Emit 1 "statusChanged" (J (JStr "ready"))]))
     = Some other.
Proof.
  intros other.
  assert (H : Forall (fun e : event unit => is_Bind e = false)
                [Data (line_of (AgentFunctionRequest (JNum 1) "ping" []));
                 Emit 1 "statusChanged" (J (JStr "ready"))])
    by (repeat constructor).
  split; [exact H|].
  exact (last_bind_wins example_events (new_StdIO tt) [Bind example_agent] _ other H).
Defined.

Lemma requests_batch_witness :
  let s := bind example_events example_agent (new_StdIO tt) in
  let requests := [AgentFunctionRequest (JNum 1) "ping" [];
                   CancellationRequest (JNum 2) (JNum 1)] in
  forallb well_formed requests = true
  /\ buffer s = ""
  /\ handleInput (concat_text (map line_of requests)) s
     = fold_left (fun s request => dispatch request s) requests s.
Proof.
  intros s requests. split; [reflexivity|]. split; [reflexivity|].
  exact (proj1 (requests_batch s requests eq_refl eq_refl)).
Defined.

Lemma cancel_in_same_chunk_witness :
  let s := bind example_events example_agent (new_StdIO tt) in
  let f := fun (args : value) (st : unit) =>
             (Returns (Thenable (Cancelable (operation_number args))), st) in
  let request := AgentFunctionRequest (JNum 1) "getCompletions" [JNum 4] in
  agent s = Some example_agent
  /\ agent_member example_agent "getCompletions" = Some f
  /\ f (J (JArr [JNum 4])) (provider s) = (Returns (Thenable (Cancelable 4)), tt)
  /\ buffer s = ""
  /\ outStream (handleInput (line_of request
                             +:+ line_of (CancellationRequest (JNum 2) (JNum 1))) s)
     = outStream s ++ [response_line (J (JNum 2), J (JBool true))].
Proof.
  intros s f request.
  repeat (split; [reflexivity|]).
  exact (proj1 (cancel_in_same_chunk s example_agent 1 2 "getCompletions" [JNum 4] f
                  (Cancelable 4) tt
                  eq_refl eq_refl eq_refl eq_refl eq_refl eq_refl eq_refl eq_refl)).
Defined.
